(** * Payment tracking of the real-estate backend (src/server.js)

    The server is an Express application whose routes send SQL text to a
    PostgreSQL store through [pool.query].  This development embeds the
    schema created by [initDB], every statement the routes send, and the
    routes themselves, and proves properties of the payment-recording core:
    [POST /api/workers/:id/payments] and [POST /api/vendors/:id/payments].

    Modelling decisions, all recorded where they are made:
    - a route (type [query], [pool_query], [app]) is a request served
      alone.  [pool.query] hands each statement to a connection of the pool
      that is free; with no other request in flight that is one connection
      for all the statements of a request, the one released last, and
      [session] is that connection.  What is proved of a route, and of
      requests served one after the other ([serve], [record_all]), is
      proved under that condition, stated with each property;
    - requests in flight together are run by [overlap], on handlers cut
      at their queries ([script]); there the payment routes do not keep
      their BEGIN, INSERT, UPDATE and COMMIT together;
    - [app] is the table of the route handlers.  What Express answers
      before a handler runs (a body that [express.json] cannot parse, a
      path no route matches, the rate limiter of the second source file)
      is not embedded;
    - the store is reachable: a statement fails only for a reason the schema
      gives (rejected parameter text, NOT NULL, PRIMARY KEY, FOREIGN KEY,
      DECIMAL precision).  The bounds of INTEGER and VARCHAR(n) are not in
      the statements: [fits_columns] keeps a request within them, as a
      hypothesis of what is proved of the values it stores;
    - request fields are taken as the store reads them (type [param]);
    - DECIMAL(p,2) columns hold finite values, as whole numbers of
      hundredths; the NaN value of the numeric type is not covered;
    - the numbers of the analytics report are kept as [parseInt] and
      [parseFloat] of the text they read, not as doubles.

    The second source file is a variant of the server's preamble (helmet,
    compression, rate limiting, a larger pool) that registers
    [GET /api/projects] with a Cache-Control header over the same SELECT;
    it adds no statement and is not embedded separately. *)

From Stdlib Require Import ZArith QArith Qround List String Bool Lia.
From Stdlib Require Import Permutation Sorted.
Import ListNotations.
Open Scope Z_scope.

(** ** Column values *)

(** DECIMAL(p,2): the numeric type rounds to the column's scale, ties away
    from zero, and then rejects a value whose integer part needs more than
    [p - 2] digits. *)
Module Decimal.

Definition round_half_away (x : Q) : Z :=
  if Qle_bool 0 x then Qfloor (x + (1 # 2))%Q
  else - Qfloor (- x + (1 # 2))%Q.

(** A value of scale 2 is kept as its number of hundredths. *)
Definition to_hundredths (x : Q) : Z := round_half_away (x * 100)%Q.

Definition of_hundredths (c : Z) : Q := (inject_Z c / 100)%Q.

Definition fits (precision : Z) (c : Z) : bool := Z.abs c <? 10 ^ precision.

(** Assignment of a numeric to a DECIMAL([precision],2) column. *)
Definition coerce (precision : Z) (x : Q) : option Z :=
  let c := to_hundredths x in
  if fits precision c then Some c else None.

End Decimal.

(** DATE values, compared as calendar dates. *)
Record date := mkDate { year : Z; month : Z; day : Z }.

Definition date_compare (a b : date) : comparison :=
  match year a ?= year b with
  | Eq => match month a ?= month b with
          | Eq => day a ?= day b
          | c => c
          end
  | c => c
  end.

Definition date_leb (a b : date) : bool :=
  match date_compare a b with Gt => false | _ => true end.

(** TIMESTAMP values: a point on the store's clock. *)
Definition timestamp := Z.

(** ** Rows of the six tables of [initDB] *)

Module Project.
Record row := mk {
  id : Z;                       (* SERIAL PRIMARY KEY *)
  name : string;                (* VARCHAR(255) NOT NULL *)
  location : option string;     (* VARCHAR(255) *)
  units : option Z;             (* INTEGER *)
  status : option string;       (* VARCHAR(50) DEFAULT 'Planning' *)
  budget : option Z;            (* DECIMAL(15,2) *)
  spent : option Z;             (* DECIMAL(15,2) DEFAULT 0 *)
  start_date : option date;     (* DATE *)
  progress_percent : option Z;  (* INTEGER DEFAULT 0 *)
  created_at : timestamp        (* TIMESTAMP DEFAULT CURRENT_TIMESTAMP *)
}.
End Project.

Module Worker.
Record row := mk {
  id : Z;                            (* SERIAL PRIMARY KEY *)
  name : string;                     (* VARCHAR(255) NOT NULL *)
  role : option string;              (* VARCHAR(100) *)
  hourly_rate : option Z;            (* DECIMAL(10,2) *)
  contact : option string;           (* VARCHAR(255) *)
  total_paid : option Z;             (* DECIMAL(15,2) DEFAULT 0 *)
  last_payment_date : option date;   (* DATE *)
  created_at : timestamp             (* TIMESTAMP DEFAULT CURRENT_TIMESTAMP *)
}.
End Worker.

Module WorkerPayment.
Record row := mk {
  id : Z;                        (* SERIAL PRIMARY KEY *)
  worker_id : option Z;          (* INTEGER REFERENCES workers(id) ON DELETE CASCADE *)
  amount : Z;                    (* DECIMAL(10,2) NOT NULL *)
  payment_date : date;           (* DATE NOT NULL *)
  description : option string;   (* TEXT *)
  created_at : timestamp         (* TIMESTAMP DEFAULT CURRENT_TIMESTAMP *)
}.
End WorkerPayment.

Module Vendor.
Record row := mk {
  id : Z;                            (* SERIAL PRIMARY KEY *)
  name : string;                     (* VARCHAR(255) NOT NULL *)
  category : option string;          (* VARCHAR(100) *)
  contact : option string;           (* VARCHAR(255) *)
  rating : option Z;                 (* INTEGER DEFAULT 5 *)
  total_paid : option Z;             (* DECIMAL(15,2) DEFAULT 0 *)
  last_payment_date : option date;   (* DATE *)
  created_at : timestamp             (* TIMESTAMP DEFAULT CURRENT_TIMESTAMP *)
}.
End Vendor.

Module VendorPayment.
Record row := mk {
  id : Z;                        (* SERIAL PRIMARY KEY *)
  vendor_id : option Z;          (* INTEGER REFERENCES vendors(id) ON DELETE CASCADE *)
  amount : Z;                    (* DECIMAL(10,2) NOT NULL *)
  payment_date : date;           (* DATE NOT NULL *)
  description : option string;   (* TEXT *)
  created_at : timestamp         (* TIMESTAMP DEFAULT CURRENT_TIMESTAMP *)
}.
End VendorPayment.

Module Inventory.
Record row := mk {
  id : Z;                      (* SERIAL PRIMARY KEY *)
  name : string;               (* VARCHAR(255) NOT NULL *)
  category : option string;    (* VARCHAR(100) *)
  quantity : option Z;         (* INTEGER DEFAULT 0 *)
  unit_price : option Z;       (* DECIMAL(10,2) *)
  min_stock : option Z;        (* INTEGER DEFAULT 5 *)
  created_at : timestamp       (* TIMESTAMP DEFAULT CURRENT_TIMESTAMP *)
}.
End Inventory.

(** The contents of the store.  A table is the list of its rows, oldest
    insertion first. *)
Record tables := mkTables {
  projects : list Project.row;
  workers : list Worker.row;
  worker_payments : list WorkerPayment.row;
  vendors : list Vendor.row;
  vendor_payments : list VendorPayment.row;
  inventory : list Inventory.row
}.

(** What [initDB] leaves on a fresh store: CREATE TABLE IF NOT EXISTS, six
    times. *)
Definition initDB : tables := mkTables [] [] [] [] [] [].

Definition with_projects (l : list Project.row) (t : tables) : tables :=
  mkTables l (workers t) (worker_payments t) (vendors t) (vendor_payments t) (inventory t).
Definition with_workers (l : list Worker.row) (t : tables) : tables :=
  mkTables (projects t) l (worker_payments t) (vendors t) (vendor_payments t) (inventory t).
Definition with_worker_payments (l : list WorkerPayment.row) (t : tables) : tables :=
  mkTables (projects t) (workers t) l (vendors t) (vendor_payments t) (inventory t).
Definition with_vendors (l : list Vendor.row) (t : tables) : tables :=
  mkTables (projects t) (workers t) (worker_payments t) l (vendor_payments t) (inventory t).
Definition with_vendor_payments (l : list VendorPayment.row) (t : tables) : tables :=
  mkTables (projects t) (workers t) (worker_payments t) (vendors t) l (inventory t).
Definition with_inventory (l : list Inventory.row) (t : tables) : tables :=
  mkTables (projects t) (workers t) (worker_payments t) (vendors t) (vendor_payments t) l.

(** ** Failures, request fields, environment *)

(** The conditions under which the store refuses a statement of this
    program; [err.message] in the routes is the message of one of them. *)
Inductive pg_error :=
| invalid_text_representation   (* a parameter's text is not a value of its type *)
| numeric_value_out_of_range    (* DECIMAL(p,2) precision exceeded *)
| not_null_violation            (* NULL in a NOT NULL column *)
| unique_violation              (* PRIMARY KEY already present *)
| foreign_key_violation.        (* REFERENCES: no such row *)

Definition result (A : Type) : Type := (pg_error + A)%type.

Definition ok {A} (a : A) : result A := inr a.
Definition raise {A} (e : pg_error) : result A := inl e.

Definition and_then {A B} (r : result A) (k : A -> result B) : result B :=
  match r with
  | inl e => inl e
  | inr a => k a
  end.

Notation "'let*' x ':=' r 'in' k" := (and_then r (fun x => k))
  (at level 10, x name, r at level 100, k at level 200).

(** A field of [req.body], as the store reads the text node-postgres sends
    for it: [Null] for a missing or null field, [Rejected] for a text the
    column type's input function refuses, [Value] otherwise. *)
Inductive param (A : Type) :=
| Null
| Rejected
| Value (a : A).
Arguments Null {A}.
Arguments Rejected {A}.
Arguments Value {A} a.

(** [req.params.id]: a path segment is never null; it is an integer or it
    is refused.  The id columns are INTEGER: an integer beyond 32 bits is
    refused as well, with another message, and [bound_id] does not tell it
    from an id that fits; [int4] does, where a property needs it. *)
Inductive id_param :=
| BadId
| Id (n : Z).

Definition bound {A} (p : param A) : result (option A) :=
  match p with
  | Null => ok None
  | Rejected => raise invalid_text_representation
  | Value a => ok (Some a)
  end.

Definition bound_id (p : id_param) : result Z :=
  match p with
  | BadId => raise invalid_text_representation
  | Id n => ok n
  end.

Definition not_null {A} (v : option A) : result A :=
  match v with
  | None => raise not_null_violation
  | Some a => ok a
  end.

(** Assignment to a DECIMAL([precision],2) column; NULL stays NULL. *)
Definition decimal (precision : Z) (v : option Q) : result (option Z) :=
  match v with
  | None => ok None
  | Some x =>
      match Decimal.coerce precision x with
      | Some c => ok (Some c)
      | None => raise numeric_value_out_of_range
      end
  end.

(** What a request draws from outside the tables: the next value of the
    SERIAL sequence of the table it inserts into, and CURRENT_TIMESTAMP. *)
Record env := mkEnv { nextval : Z; current_timestamp : timestamp }.

Fixpoint traverse {A B} (f : A -> result B) (l : list A) : result (list B) :=
  match l with
  | [] => ok []
  | a :: l' =>
      let* b := f a in
      let* bs := traverse f l' in
      ok (b :: bs)
  end.

(** ** The store session and [pool.query]

    A [session] is a connection of the pool together with the statements
    sent so far.  A route is run on one session from its first query to
    its last: that is a request served with no other request in flight,
    when the pool hands every query the connection it released last. *)

Inductive relation := Projects | Workers | WorkerPayments | Vendors | VendorPayments | InventoryItems.

(** The statements the program sends, by leading keyword and table. *)
Inductive sql :=
| Begin
| Commit
| Rollback
| Insert (r : relation)
| Update (r : relation)
| Delete (r : relation)
| Select (r : relation).

(** [saved] is the state to return to on ROLLBACK while a transaction is
    open. *)
Record store := mkStore { data : tables; saved : option tables }.

Record session := mkSession { backend : store; issued : list sql }.

Record statement (A : Type) := Statement {
  text : sql;
  run : store -> result (A * store)
}.
Arguments Statement {A} text run.
Arguments text {A} s.
Arguments run {A} s.

(** A statement that reads and writes the tables only. *)
Definition on_tables {A} (f : tables -> result (A * tables)) (st : store) : result (A * store) :=
  let* r := f (data st) in
  ok (fst r, mkStore (snd r) (saved st)).

Definition BEGIN : statement unit :=
  Statement Begin (fun st =>
    ok (tt, mkStore (data st)
                    (match saved st with
                     | None => Some (data st)
                     | Some t => Some t
                     end))).

Definition COMMIT : statement unit :=
  Statement Commit (fun st => ok (tt, mkStore (data st) None)).

Definition ROLLBACK : statement unit :=
  Statement Rollback (fun st =>
    ok (tt, match saved st with
            | None => st
            | Some t => mkStore t None
            end)).

(** Code running against the session: [await] of a rejected promise throws. *)
Definition query (A : Type) : Type := session -> result A * session.

Definition pure {A} (a : A) : query A := fun s => (inr a, s).

Definition bind {A B} (m : query A) (k : A -> query B) : query B :=
  fun s =>
    match m s with
    | (inl e, s') => (inl e, s')
    | (inr a, s') => k a s'
    end.

Notation "x <- m ;; k" := (bind m (fun x => k))
  (at level 61, m at next level, right associativity).

(** [await pool.query(text, values)], on the connection that serves the
    request.  (After a statement that failed the pool closes the
    connection, which rolls back the transaction open on it, and the next
    query gets a new one.  For a request served alone the tables come out
    the same: a failed statement outside a transaction changes nothing,
    and a payment route sends ROLLBACK after a failure inside one.  The
    closing is written out only where requests overlap, in [dispatch].) *)
Definition pool_query {A} (q : statement A) : query A :=
  fun s =>
    let log := issued s ++ [text q] in
    match run q (backend s) with
    | inl e => (inl e, mkSession (backend s) log)
    | inr (a, st) => (inr a, mkSession st log)
    end.

(** [try { ... } catch (err) { ... }] *)
Definition try_catch {A} (body : query A) (handler : pg_error -> query A) : query A :=
  fun s =>
    match body s with
    | (inr a, s') => (inr a, s')
    | (inl err, s') => handler err s'
    end.

(** ** Responses *)

Inductive any_row :=
| project_row (r : Project.row)
| worker_row (r : Worker.row)
| worker_payment_row (r : WorkerPayment.row)
| vendor_row (r : Vendor.row)
| vendor_payment_row (r : VendorPayment.row)
| inventory_row (r : Inventory.row).

(** A number of the analytics report: [parseInt] of the text of a count,
    or [parseFloat] of the text of a DECIMAL(15,2) sum.  The number is
    kept as the function applied to what it read, the sum in hundredths:
    the double that [parseFloat] returns for it, which is not the sum once
    the sum has more digits than a double holds, is not computed here. *)
Inductive number :=
| parseInt (count : Z)
| parseFloat (hundredths : Z).

Record analytics := mkAnalytics {
  a_projects : number; a_workers : number; a_vendors : number; a_inventory : number;
  a_total_budget : number; a_total_spent : number;
  a_total_worker_payments : number; a_total_vendor_payments : number
}.

Inductive json :=
| rows (l : list any_row)           (* res.json(result.rows) *)
| first_row (r : option any_row)    (* res.json(result.rows[0]) *)
| message (m : string)              (* res.json({ message }) *)
| error (e : pg_error)              (* res.json({ error: err.message }) *)
| health
| analytics_report (a : analytics).

Record response := mkResponse { status : Z; body : json }.

Definition res_json (b : json) : response := mkResponse 200 b.

(** [res.status(500).json({ error: err.message })] *)
Definition res_status_500 (err : pg_error) : response := mkResponse 500 (error err).

(** ** Request bodies: the fields the routes destructure from [req.body] *)

Module ProjectBody.
Record t := mk {
  name : param string; budget : param Q; spent : param Q;
  start_date : param date; status : param string;
  progress_percent : param Z; location : param string
}.
End ProjectBody.

Module WorkerBody.
Record t := mk {
  name : param string; role : param string;
  hourly_rate : param Q; contact : param string
}.
End WorkerBody.

Module VendorBody.
Record t := mk {
  name : param string; category : param string;
  contact : param string; rating : param Z
}.
End VendorBody.

Module PaymentBody.
Record t := mk {
  amount : param Q; payment_date : param date; description : param string
}.
End PaymentBody.

Module InventoryBody.
Record t := mk {
  name : param string; category : param string; quantity : param Z;
  unit_price : param Q; min_stock : param Z
}.
End InventoryBody.

(** ** Table operations shared by the statements *)

(** The order in which a SELECT meets the rows of a table is the store's
    choice; a [scan] is that choice, a rearrangement of the table. *)
Definition scan (A : Type) : Type := list A -> list A.

Definition is_scan {A} (visit : scan A) : Prop :=
  forall l, Permutation (visit l) l.

(** ORDER BY key DESC: the rows met are sorted on the key alone; rows with
    equal keys stay in the order they were met. *)
Fixpoint insert_desc {A} (leb : A -> A -> bool) (x : A) (l : list A) : list A :=
  match l with
  | [] => [x]
  | y :: l' => if leb y x then x :: y :: l' else y :: insert_desc leb x l'
  end.

Fixpoint order_by_desc {A} (leb : A -> A -> bool) (l : list A) : list A :=
  match l with
  | [] => []
  | x :: l' => insert_desc leb x (order_by_desc leb l')
  end.

(** INSERT of one row under a PRIMARY KEY. *)
Definition insert_row {A} (key : A -> Z) (r : A) (l : list A) : result (list A) :=
  if existsb (fun r' => key r' =? key r) l then raise unique_violation
  else ok (l ++ [r]).

(** UPDATE ... WHERE: every row the condition selects is replaced; one
    failing row fails the statement. *)
Definition update_where {A} (selected : A -> bool) (set : A -> result A) (l : list A)
  : result (list A) :=
  traverse (fun r => if selected r then set r else ok r) l.

(** RETURNING * of an UPDATE: the new versions of the selected rows. *)
Definition returning {A} (selected : A -> bool) (set : A -> result A) (l : list A)
  : result (list A) :=
  traverse set (filter selected l).

Definition delete_where {A} (selected : A -> bool) (l : list A) : list A :=
  filter (fun r => negb (selected r)) l.

(** REFERENCES parent(id): a non-null reference must name a parent row. *)
Definition references {P} (key : P -> Z) (parent : list P) (ref : option Z) : bool :=
  match ref with
  | None => false
  | Some n => existsb (fun p => key p =? n) parent
  end.

Definition foreign_key {P} (key : P -> Z) (parent : list P) (ref : option Z) : result unit :=
  match ref with
  | None => ok tt
  | Some _ => if references key parent ref then ok tt else raise foreign_key_violation
  end.

Definition coalesce (v : option Z) (d : Z) : Z :=
  match v with
  | Some x => x
  | None => d
  end.

(** ** Statements on workers and worker_payments *)

(** SELECT * FROM workers ORDER BY created_at DESC *)
Definition SELECT_workers (visit : scan Worker.row) : statement (list Worker.row) :=
  Statement (Select Workers) (on_tables (fun t =>
    ok (order_by_desc (fun a b => Worker.created_at a <=? Worker.created_at b)
                      (visit (workers t)), t))).

(** INSERT INTO workers (name, role, hourly_rate, contact)
    VALUES ($1, $2, $3, $4) RETURNING * *)
Definition INSERT_INTO_workers (e : env) (name role : param string)
    (hourly_rate : param Q) (contact : param string) : statement (list Worker.row) :=
  Statement (Insert Workers) (on_tables (fun t =>
    let* name := bound name in
    let* role := bound role in
    let* hourly_rate := bound hourly_rate in
    let* contact := bound contact in
    let* hourly_rate := decimal 10 hourly_rate in
    let* name := not_null name in
    let r := Worker.mk (nextval e) name role hourly_rate contact
                       (Some 0) None (current_timestamp e) in
    let* l := insert_row Worker.id r (workers t) in
    ok ([r], with_workers l t))).

Definition set_worker_fields (name : option string) (role : option string)
    (hourly_rate : option Z) (contact : option string) (w : Worker.row) : result Worker.row :=
  let* name := not_null name in
  ok (Worker.mk (Worker.id w) name role hourly_rate contact
                (Worker.total_paid w) (Worker.last_payment_date w) (Worker.created_at w)).

(** UPDATE workers SET name=$1, role=$2, hourly_rate=$3, contact=$4
    WHERE id=$5 RETURNING * *)
Definition UPDATE_workers (name role : param string) (hourly_rate : param Q)
    (contact : param string) (id : id_param) : statement (list Worker.row) :=
  Statement (Update Workers) (on_tables (fun t =>
    let* name := bound name in
    let* role := bound role in
    let* hourly_rate := bound hourly_rate in
    let* contact := bound contact in
    let* id := bound_id id in
    let* hourly_rate := decimal 10 hourly_rate in
    let selected := fun w => Worker.id w =? id in
    let set := set_worker_fields name role hourly_rate contact in
    let* l := update_where selected set (workers t) in
    let* out := returning selected set (workers t) in
    ok (out, with_workers l t))).

(** DELETE FROM workers WHERE id=$1, with the ON DELETE CASCADE of
    worker_payments.worker_id: the payments that reference a deleted row go
    with it. *)
Definition DELETE_FROM_workers (id : id_param) : statement unit :=
  Statement (Delete Workers) (on_tables (fun t =>
    let* id := bound_id id in
    let selected := fun w => Worker.id w =? id in
    let deleted := filter selected (workers t) in
    let cascade := fun p => references Worker.id deleted (WorkerPayment.worker_id p) in
    ok (tt, with_worker_payments (delete_where cascade (worker_payments t))
              (with_workers (delete_where selected (workers t)) t)))).

(** SELECT * FROM worker_payments WHERE worker_id = $1
    ORDER BY payment_date DESC *)
Definition SELECT_worker_payments (visit : scan WorkerPayment.row) (id : id_param)
  : statement (list WorkerPayment.row) :=
  Statement (Select WorkerPayments) (on_tables (fun t =>
    let* id := bound_id id in
    let where_ := fun p => match WorkerPayment.worker_id p with
                           | Some n => n =? id
                           | None => false
                           end in
    ok (order_by_desc
          (fun a b => date_leb (WorkerPayment.payment_date a) (WorkerPayment.payment_date b))
          (filter where_ (visit (worker_payments t))), t))).

(** INSERT INTO worker_payments (worker_id, amount, payment_date, description)
    VALUES ($1, $2, $3, $4) RETURNING * *)
Definition INSERT_INTO_worker_payments (e : env) (id : id_param) (amount : param Q)
    (payment_date : param date) (description : param string)
  : statement (list WorkerPayment.row) :=
  Statement (Insert WorkerPayments) (on_tables (fun t =>
    let* id := bound_id id in
    let* amount := bound amount in
    let* payment_date := bound payment_date in
    let* description := bound description in
    let* amount := decimal 10 amount in
    let* amount := not_null amount in
    let* payment_date := not_null payment_date in
    let r := WorkerPayment.mk (nextval e) (Some id) amount payment_date description
                              (current_timestamp e) in
    let* l := insert_row WorkerPayment.id r (worker_payments t) in
    let* _ := foreign_key Worker.id (workers t) (WorkerPayment.worker_id r) in
    ok ([r], with_worker_payments l t))).

(** total_paid = COALESCE(total_paid, 0) + $1, assigned to DECIMAL(15,2);
    a NULL operand makes the sum NULL.  Next to a numeric operand the
    parameter is a numeric of any scale: it is the sum that is rounded to
    two places here, whereas the INSERT rounds the amount itself. *)
Definition add_to_total (total_paid : option Z) (amount : option Q) : result (option Z) :=
  decimal 15
    (match amount with
     | None => None
     | Some x => Some (Decimal.of_hundredths (coalesce total_paid 0) + x)%Q
     end).

Definition set_worker_aggregate (amount : option Q) (payment_date : option date)
    (w : Worker.row) : result Worker.row :=
  let* total := add_to_total (Worker.total_paid w) amount in
  ok (Worker.mk (Worker.id w) (Worker.name w) (Worker.role w) (Worker.hourly_rate w)
                (Worker.contact w) total payment_date (Worker.created_at w)).

(** UPDATE workers SET total_paid = COALESCE(total_paid, 0) + $1,
    last_payment_date = $2 WHERE id = $3 *)
Definition UPDATE_workers_total_paid (amount : param Q) (payment_date : param date)
    (id : id_param) : statement unit :=
  Statement (Update Workers) (on_tables (fun t =>
    let* amount := bound amount in
    let* payment_date := bound payment_date in
    let* id := bound_id id in
    let* l := update_where (fun w => Worker.id w =? id)
                           (set_worker_aggregate amount payment_date) (workers t) in
    ok (tt, with_workers l t))).

(** ** Statements on vendors and vendor_payments *)

(** SELECT * FROM vendors ORDER BY created_at DESC *)
Definition SELECT_vendors (visit : scan Vendor.row) : statement (list Vendor.row) :=
  Statement (Select Vendors) (on_tables (fun t =>
    ok (order_by_desc (fun a b => Vendor.created_at a <=? Vendor.created_at b)
                      (visit (vendors t)), t))).

(** INSERT INTO vendors (name, category, contact, rating)
    VALUES ($1, $2, $3, $4) RETURNING * *)
Definition INSERT_INTO_vendors (e : env) (name category contact : param string)
    (rating : param Z) : statement (list Vendor.row) :=
  Statement (Insert Vendors) (on_tables (fun t =>
    let* name := bound name in
    let* category := bound category in
    let* contact := bound contact in
    let* rating := bound rating in
    let* name := not_null name in
    let r := Vendor.mk (nextval e) name category contact rating
                       (Some 0) None (current_timestamp e) in
    let* l := insert_row Vendor.id r (vendors t) in
    ok ([r], with_vendors l t))).

Definition set_vendor_fields (name : option string) (category contact : option string)
    (rating : option Z) (v : Vendor.row) : result Vendor.row :=
  let* name := not_null name in
  ok (Vendor.mk (Vendor.id v) name category contact rating
                (Vendor.total_paid v) (Vendor.last_payment_date v) (Vendor.created_at v)).

(** UPDATE vendors SET name=$1, category=$2, contact=$3, rating=$4
    WHERE id=$5 RETURNING * *)
Definition UPDATE_vendors (name category contact : param string) (rating : param Z)
    (id : id_param) : statement (list Vendor.row) :=
  Statement (Update Vendors) (on_tables (fun t =>
    let* name := bound name in
    let* category := bound category in
    let* contact := bound contact in
    let* rating := bound rating in
    let* id := bound_id id in
    let selected := fun v => Vendor.id v =? id in
    let set := set_vendor_fields name category contact rating in
    let* l := update_where selected set (vendors t) in
    let* out := returning selected set (vendors t) in
    ok (out, with_vendors l t))).

(** DELETE FROM vendors WHERE id=$1, with the ON DELETE CASCADE of
    vendor_payments.vendor_id. *)
Definition DELETE_FROM_vendors (id : id_param) : statement unit :=
  Statement (Delete Vendors) (on_tables (fun t =>
    let* id := bound_id id in
    let selected := fun v => Vendor.id v =? id in
    let deleted := filter selected (vendors t) in
    let cascade := fun p => references Vendor.id deleted (VendorPayment.vendor_id p) in
    ok (tt, with_vendor_payments (delete_where cascade (vendor_payments t))
              (with_vendors (delete_where selected (vendors t)) t)))).

(** SELECT * FROM vendor_payments WHERE vendor_id = $1
    ORDER BY payment_date DESC *)
Definition SELECT_vendor_payments (visit : scan VendorPayment.row) (id : id_param)
  : statement (list VendorPayment.row) :=
  Statement (Select VendorPayments) (on_tables (fun t =>
    let* id := bound_id id in
    let where_ := fun p => match VendorPayment.vendor_id p with
                           | Some n => n =? id
                           | None => false
                           end in
    ok (order_by_desc
          (fun a b => date_leb (VendorPayment.payment_date a) (VendorPayment.payment_date b))
          (filter where_ (visit (vendor_payments t))), t))).

(** INSERT INTO vendor_payments (vendor_id, amount, payment_date, description)
    VALUES ($1, $2, $3, $4) RETURNING * *)
Definition INSERT_INTO_vendor_payments (e : env) (id : id_param) (amount : param Q)
    (payment_date : param date) (description : param string)
  : statement (list VendorPayment.row) :=
  Statement (Insert VendorPayments) (on_tables (fun t =>
    let* id := bound_id id in
    let* amount := bound amount in
    let* payment_date := bound payment_date in
    let* description := bound description in
    let* amount := decimal 10 amount in
    let* amount := not_null amount in
    let* payment_date := not_null payment_date in
    let r := VendorPayment.mk (nextval e) (Some id) amount payment_date description
                              (current_timestamp e) in
    let* l := insert_row VendorPayment.id r (vendor_payments t) in
    let* _ := foreign_key Vendor.id (vendors t) (VendorPayment.vendor_id r) in
    ok ([r], with_vendor_payments l t))).

Definition set_vendor_aggregate (amount : option Q) (payment_date : option date)
    (v : Vendor.row) : result Vendor.row :=
  let* total := add_to_total (Vendor.total_paid v) amount in
  ok (Vendor.mk (Vendor.id v) (Vendor.name v) (Vendor.category v) (Vendor.contact v)
                (Vendor.rating v) total payment_date (Vendor.created_at v)).

(** UPDATE vendors SET total_paid = COALESCE(total_paid, 0) + $1,
    last_payment_date = $2 WHERE id = $3 *)
Definition UPDATE_vendors_total_paid (amount : param Q) (payment_date : param date)
    (id : id_param) : statement unit :=
  Statement (Update Vendors) (on_tables (fun t =>
    let* amount := bound amount in
    let* payment_date := bound payment_date in
    let* id := bound_id id in
    let* l := update_where (fun v => Vendor.id v =? id)
                           (set_vendor_aggregate amount payment_date) (vendors t) in
    ok (tt, with_vendors l t))).

(** ** Statements on projects and inventory *)

(** SELECT * FROM projects ORDER BY created_at DESC *)
Definition SELECT_projects (visit : scan Project.row) : statement (list Project.row) :=
  Statement (Select Projects) (on_tables (fun t =>
    ok (order_by_desc (fun a b => Project.created_at a <=? Project.created_at b)
                      (visit (projects t)), t))).

(** INSERT INTO projects (name, budget, start_date, status, location)
    VALUES ($1, $2, $3, $4, $5) RETURNING * *)
Definition INSERT_INTO_projects (e : env) (name : param string) (budget : param Q)
    (start_date : param date) (status location : param string)
  : statement (list Project.row) :=
  Statement (Insert Projects) (on_tables (fun t =>
    let* name := bound name in
    let* budget := bound budget in
    let* start_date := bound start_date in
    let* status := bound status in
    let* location := bound location in
    let* budget := decimal 15 budget in
    let* name := not_null name in
    let r := Project.mk (nextval e) name location None status budget (Some 0)
                        start_date (Some 0) (current_timestamp e) in
    let* l := insert_row Project.id r (projects t) in
    ok ([r], with_projects l t))).

Definition set_project_fields (name : option string) (budget spent : option Z)
    (start_date : option date) (status : option string) (progress_percent : option Z)
    (p : Project.row) : result Project.row :=
  let* name := not_null name in
  ok (Project.mk (Project.id p) name (Project.location p) (Project.units p) status
                 budget spent start_date progress_percent (Project.created_at p)).

(** UPDATE projects SET name=$1, budget=$2, spent=$3, start_date=$4,
    status=$5, progress_percent=$6 WHERE id=$7 RETURNING * *)
Definition UPDATE_projects (name : param string) (budget spent : param Q)
    (start_date : param date) (status : param string) (progress_percent : param Z)
    (id : id_param) : statement (list Project.row) :=
  Statement (Update Projects) (on_tables (fun t =>
    let* name := bound name in
    let* budget := bound budget in
    let* spent := bound spent in
    let* start_date := bound start_date in
    let* status := bound status in
    let* progress_percent := bound progress_percent in
    let* id := bound_id id in
    let* budget := decimal 15 budget in
    let* spent := decimal 15 spent in
    let selected := fun p => Project.id p =? id in
    let set := set_project_fields name budget spent start_date status progress_percent in
    let* l := update_where selected set (projects t) in
    let* out := returning selected set (projects t) in
    ok (out, with_projects l t))).

(** DELETE FROM projects WHERE id=$1 *)
Definition DELETE_FROM_projects (id : id_param) : statement unit :=
  Statement (Delete Projects) (on_tables (fun t =>
    let* id := bound_id id in
    ok (tt, with_projects (delete_where (fun p => Project.id p =? id) (projects t)) t))).

(** SELECT * FROM inventory ORDER BY created_at DESC *)
Definition SELECT_inventory (visit : scan Inventory.row) : statement (list Inventory.row) :=
  Statement (Select InventoryItems) (on_tables (fun t =>
    ok (order_by_desc (fun a b => Inventory.created_at a <=? Inventory.created_at b)
                      (visit (inventory t)), t))).

(** INSERT INTO inventory (name, category, quantity, unit_price, min_stock)
    VALUES ($1, $2, $3, $4, $5) RETURNING * *)
Definition INSERT_INTO_inventory (e : env) (name category : param string)
    (quantity : param Z) (unit_price : param Q) (min_stock : param Z)
  : statement (list Inventory.row) :=
  Statement (Insert InventoryItems) (on_tables (fun t =>
    let* name := bound name in
    let* category := bound category in
    let* quantity := bound quantity in
    let* unit_price := bound unit_price in
    let* min_stock := bound min_stock in
    let* unit_price := decimal 10 unit_price in
    let* name := not_null name in
    let r := Inventory.mk (nextval e) name category quantity unit_price min_stock
                          (current_timestamp e) in
    let* l := insert_row Inventory.id r (inventory t) in
    ok ([r], with_inventory l t))).

Definition set_inventory_fields (name : option string) (category : option string)
    (quantity unit_price min_stock : option Z) (i : Inventory.row) : result Inventory.row :=
  let* name := not_null name in
  ok (Inventory.mk (Inventory.id i) name category quantity unit_price min_stock
                   (Inventory.created_at i)).

(** UPDATE inventory SET name=$1, category=$2, quantity=$3, unit_price=$4,
    min_stock=$5 WHERE id=$6 RETURNING * *)
Definition UPDATE_inventory (name category : param string) (quantity : param Z)
    (unit_price : param Q) (min_stock : param Z) (id : id_param)
  : statement (list Inventory.row) :=
  Statement (Update InventoryItems) (on_tables (fun t =>
    let* name := bound name in
    let* category := bound category in
    let* quantity := bound quantity in
    let* unit_price := bound unit_price in
    let* min_stock := bound min_stock in
    let* id := bound_id id in
    let* unit_price := decimal 10 unit_price in
    let selected := fun i => Inventory.id i =? id in
    let set := set_inventory_fields name category quantity unit_price min_stock in
    let* l := update_where selected set (inventory t) in
    let* out := returning selected set (inventory t) in
    ok (out, with_inventory l t))).

(** DELETE FROM inventory WHERE id=$1 *)
Definition DELETE_FROM_inventory (id : id_param) : statement unit :=
  Statement (Delete InventoryItems) (on_tables (fun t =>
    let* id := bound_id id in
    ok (tt, with_inventory (delete_where (fun i => Inventory.id i =? id) (inventory t)) t))).

(** ** Statements of the analytics route *)

(** SELECT COUNT( * ) FROM a table *)
Definition SELECT_COUNT {A} (r : relation) (table : tables -> list A) : statement Z :=
  Statement (Select r) (on_tables (fun t => ok (Z.of_nat (List.length (table t)), t))).

(** SUM skips NULLs and is NULL over no value. *)
Definition sum_column (l : list (option Z)) : option Z :=
  fold_left (fun acc v => match acc, v with
                          | Some a, Some x => Some (a + x)
                          | None, Some x => Some x
                          | _, None => acc
                          end) l None.

(** SELECT COALESCE(SUM(column), 0) as total FROM a table *)
Definition SELECT_COALESCE_SUM {A} (r : relation) (table : tables -> list A)
    (column : A -> option Z) : statement Z :=
  Statement (Select r) (on_tables (fun t =>
    ok (coalesce (sum_column (map column (table t))) 0, t))).

(** ** The routes

    A route is the body of its [async (req, res) => ...] handler: it answers
    with the response it hands to [res], or throws. *)
Definition route : Type := query response.

Definition row0 {A} (wrap : A -> any_row) (result_rows : list A) : json :=
  first_row (option_map wrap (nth_error result_rows 0)).

(** app.get('/api/health') *)
Definition get_health : route := pure (res_json health).

(** app.get('/api/projects') *)
Definition get_projects (visit : scan Project.row) : route :=
  try_catch
    (result <- pool_query (SELECT_projects visit) ;;
     pure (res_json (rows (map project_row result))))
    (fun err => pure (res_status_500 err)).

(** app.post('/api/projects') *)
Definition post_projects (e : env) (body : ProjectBody.t) : route :=
  try_catch
    (result <- pool_query (INSERT_INTO_projects e (ProjectBody.name body)
                             (ProjectBody.budget body) (ProjectBody.start_date body)
                             (ProjectBody.status body) (ProjectBody.location body)) ;;
     pure (res_json (row0 project_row result)))
    (fun err => pure (res_status_500 err)).

(** app.put('/api/projects/:id') *)
Definition put_projects (id : id_param) (body : ProjectBody.t) : route :=
  try_catch
    (result <- pool_query (UPDATE_projects (ProjectBody.name body)
                             (ProjectBody.budget body) (ProjectBody.spent body)
                             (ProjectBody.start_date body) (ProjectBody.status body)
                             (ProjectBody.progress_percent body) id) ;;
     pure (res_json (row0 project_row result)))
    (fun err => pure (res_status_500 err)).

(** app.delete('/api/projects/:id') *)
Definition delete_projects (id : id_param) : route :=
  try_catch
    (_ <- pool_query (DELETE_FROM_projects id) ;;
     pure (res_json (message "Project deleted successfully")))
    (fun err => pure (res_status_500 err)).

(** app.get('/api/workers') *)
Definition get_workers (visit : scan Worker.row) : route :=
  try_catch
    (result <- pool_query (SELECT_workers visit) ;;
     pure (res_json (rows (map worker_row result))))
    (fun err => pure (res_status_500 err)).

(** app.post('/api/workers') *)
Definition post_workers (e : env) (body : WorkerBody.t) : route :=
  try_catch
    (result <- pool_query (INSERT_INTO_workers e (WorkerBody.name body)
                             (WorkerBody.role body) (WorkerBody.hourly_rate body)
                             (WorkerBody.contact body)) ;;
     pure (res_json (row0 worker_row result)))
    (fun err => pure (res_status_500 err)).

(** app.put('/api/workers/:id') *)
Definition put_workers (id : id_param) (body : WorkerBody.t) : route :=
  try_catch
    (result <- pool_query (UPDATE_workers (WorkerBody.name body) (WorkerBody.role body)
                             (WorkerBody.hourly_rate body) (WorkerBody.contact body) id) ;;
     pure (res_json (row0 worker_row result)))
    (fun err => pure (res_status_500 err)).

(** app.delete('/api/workers/:id') *)
Definition delete_workers (id : id_param) : route :=
  try_catch
    (_ <- pool_query (DELETE_FROM_workers id) ;;
     pure (res_json (message "Worker deleted successfully")))
    (fun err => pure (res_status_500 err)).

(** app.get('/api/workers/:id/payments') *)
Definition get_worker_payments (visit : scan WorkerPayment.row) (id : id_param) : route :=
  try_catch
    (result <- pool_query (SELECT_worker_payments visit id) ;;
     pure (res_json (rows (map worker_payment_row result))))
    (fun err => pure (res_status_500 err)).

(** app.post('/api/workers/:id/payments') *)
Definition post_worker_payments (e : env) (id : id_param) (body : PaymentBody.t) : route :=
  try_catch
    ((* Start transaction *)
     _ <- pool_query BEGIN ;;
     (* Add payment record *)
     paymentResult <- pool_query (INSERT_INTO_worker_payments e id
                                    (PaymentBody.amount body)
                                    (PaymentBody.payment_date body)
                                    (PaymentBody.description body)) ;;
     (* Update worker's total paid and last payment date *)
     _ <- pool_query (UPDATE_workers_total_paid (PaymentBody.amount body)
                        (PaymentBody.payment_date body) id) ;;
     _ <- pool_query COMMIT ;;
     pure (res_json (row0 worker_payment_row paymentResult)))
    (fun err =>
     _ <- pool_query ROLLBACK ;;
     pure (res_status_500 err)).

(** app.get('/api/vendors') *)
Definition get_vendors (visit : scan Vendor.row) : route :=
  try_catch
    (result <- pool_query (SELECT_vendors visit) ;;
     pure (res_json (rows (map vendor_row result))))
    (fun err => pure (res_status_500 err)).

(** app.post('/api/vendors') *)
Definition post_vendors (e : env) (body : VendorBody.t) : route :=
  try_catch
    (result <- pool_query (INSERT_INTO_vendors e (VendorBody.name body)
                             (VendorBody.category body) (VendorBody.contact body)
                             (VendorBody.rating body)) ;;
     pure (res_json (row0 vendor_row result)))
    (fun err => pure (res_status_500 err)).

(** app.put('/api/vendors/:id') *)
Definition put_vendors (id : id_param) (body : VendorBody.t) : route :=
  try_catch
    (result <- pool_query (UPDATE_vendors (VendorBody.name body) (VendorBody.category body)
                             (VendorBody.contact body) (VendorBody.rating body) id) ;;
     pure (res_json (row0 vendor_row result)))
    (fun err => pure (res_status_500 err)).

(** app.delete('/api/vendors/:id') *)
Definition delete_vendors (id : id_param) : route :=
  try_catch
    (_ <- pool_query (DELETE_FROM_vendors id) ;;
     pure (res_json (message "Vendor deleted successfully")))
    (fun err => pure (res_status_500 err)).

(** app.get('/api/vendors/:id/payments') *)
Definition get_vendor_payments (visit : scan VendorPayment.row) (id : id_param) : route :=
  try_catch
    (result <- pool_query (SELECT_vendor_payments visit id) ;;
     pure (res_json (rows (map vendor_payment_row result))))
    (fun err => pure (res_status_500 err)).

(** app.post('/api/vendors/:id/payments') *)
Definition post_vendor_payments (e : env) (id : id_param) (body : PaymentBody.t) : route :=
  try_catch
    ((* Start transaction *)
     _ <- pool_query BEGIN ;;
     (* Add payment record *)
     paymentResult <- pool_query (INSERT_INTO_vendor_payments e id
                                    (PaymentBody.amount body)
                                    (PaymentBody.payment_date body)
                                    (PaymentBody.description body)) ;;
     (* Update vendor's total paid and last payment date *)
     _ <- pool_query (UPDATE_vendors_total_paid (PaymentBody.amount body)
                        (PaymentBody.payment_date body) id) ;;
     _ <- pool_query COMMIT ;;
     pure (res_json (row0 vendor_payment_row paymentResult)))
    (fun err =>
     _ <- pool_query ROLLBACK ;;
     pure (res_status_500 err)).

(** app.get('/api/inventory') *)
Definition get_inventory (visit : scan Inventory.row) : route :=
  try_catch
    (result <- pool_query (SELECT_inventory visit) ;;
     pure (res_json (rows (map inventory_row result))))
    (fun err => pure (res_status_500 err)).

(** app.post('/api/inventory') *)
Definition post_inventory (e : env) (body : InventoryBody.t) : route :=
  try_catch
    (result <- pool_query (INSERT_INTO_inventory e (InventoryBody.name body)
                             (InventoryBody.category body) (InventoryBody.quantity body)
                             (InventoryBody.unit_price body) (InventoryBody.min_stock body)) ;;
     pure (res_json (row0 inventory_row result)))
    (fun err => pure (res_status_500 err)).

(** app.put('/api/inventory/:id') *)
Definition put_inventory (id : id_param) (body : InventoryBody.t) : route :=
  try_catch
    (result <- pool_query (UPDATE_inventory (InventoryBody.name body)
                             (InventoryBody.category body) (InventoryBody.quantity body)
                             (InventoryBody.unit_price body) (InventoryBody.min_stock body)
                             id) ;;
     pure (res_json (row0 inventory_row result)))
    (fun err => pure (res_status_500 err)).

(** app.delete('/api/inventory/:id') *)
Definition delete_inventory (id : id_param) : route :=
  try_catch
    (_ <- pool_query (DELETE_FROM_inventory id) ;;
     pure (res_json (message "Inventory item deleted successfully")))
    (fun err => pure (res_status_500 err)).

(** app.get('/api/analytics') *)
Definition get_analytics : route :=
  try_catch
    (projectsCount <- pool_query (SELECT_COUNT Projects projects) ;;
     workersCount <- pool_query (SELECT_COUNT Workers workers) ;;
     vendorsCount <- pool_query (SELECT_COUNT Vendors vendors) ;;
     inventoryCount <- pool_query (SELECT_COUNT InventoryItems inventory) ;;
     totalBudget <- pool_query (SELECT_COALESCE_SUM Projects projects Project.budget) ;;
     totalSpent <- pool_query (SELECT_COALESCE_SUM Projects projects Project.spent) ;;
     totalWorkerPayments <-
       pool_query (SELECT_COALESCE_SUM Workers workers Worker.total_paid) ;;
     totalVendorPayments <-
       pool_query (SELECT_COALESCE_SUM Vendors vendors Vendor.total_paid) ;;
     pure (res_json (analytics_report
             (mkAnalytics (parseInt projectsCount) (parseInt workersCount)
                          (parseInt vendorsCount) (parseInt inventoryCount)
                          (parseFloat totalBudget) (parseFloat totalSpent)
                          (parseFloat totalWorkerPayments)
                          (parseFloat totalVendorPayments)))))
    (fun err => pure (res_status_500 err)).

(** ** The application: every route the server registers

    A [request] is a request as its handler receives it: the path matched
    the route and [express.json] parsed the body.  [app] is the handler. *)

Inductive request :=
| GET_health
| GET_projects (visit : scan Project.row)
| POST_projects (e : env) (body : ProjectBody.t)
| PUT_projects (id : id_param) (body : ProjectBody.t)
| DELETE_projects (id : id_param)
| GET_workers (visit : scan Worker.row)
| POST_workers (e : env) (body : WorkerBody.t)
| PUT_workers (id : id_param) (body : WorkerBody.t)
| DELETE_workers (id : id_param)
| GET_worker_payments (visit : scan WorkerPayment.row) (id : id_param)
| POST_worker_payments (e : env) (id : id_param) (body : PaymentBody.t)
| GET_vendors (visit : scan Vendor.row)
| POST_vendors (e : env) (body : VendorBody.t)
| PUT_vendors (id : id_param) (body : VendorBody.t)
| DELETE_vendors (id : id_param)
| GET_vendor_payments (visit : scan VendorPayment.row) (id : id_param)
| POST_vendor_payments (e : env) (id : id_param) (body : PaymentBody.t)
| GET_inventory (visit : scan Inventory.row)
| POST_inventory (e : env) (body : InventoryBody.t)
| PUT_inventory (id : id_param) (body : InventoryBody.t)
| DELETE_inventory (id : id_param)
| GET_analytics.

Definition app (r : request) : route :=
  match r with
  | GET_health => get_health
  | GET_projects visit => get_projects visit
  | POST_projects e body => post_projects e body
  | PUT_projects id body => put_projects id body
  | DELETE_projects id => delete_projects id
  | GET_workers visit => get_workers visit
  | POST_workers e body => post_workers e body
  | PUT_workers id body => put_workers id body
  | DELETE_workers id => delete_workers id
  | GET_worker_payments visit id => get_worker_payments visit id
  | POST_worker_payments e id body => post_worker_payments e id body
  | GET_vendors visit => get_vendors visit
  | POST_vendors e body => post_vendors e body
  | PUT_vendors id body => put_vendors id body
  | DELETE_vendors id => delete_vendors id
  | GET_vendor_payments visit id => get_vendor_payments visit id
  | POST_vendor_payments e id body => post_vendor_payments e id body
  | GET_inventory visit => get_inventory visit
  | POST_inventory e body => post_inventory e body
  | PUT_inventory id body => put_inventory id body
  | DELETE_inventory id => delete_inventory id
  | GET_analytics => get_analytics
  end.

(** ** The payment core, by payee kind

    The two payment routes, the two listing routes and the two payee
    deletions, selected by the kind of payee; and what can be observed of a
    payee and of its ledger whatever its kind. *)

Inductive kind := a_worker | a_vendor.

Definition recordPayment (k : kind) : env -> id_param -> PaymentBody.t -> route :=
  match k with
  | a_worker => post_worker_payments
  | a_vendor => post_vendor_payments
  end.


(** A ledger entry: a row of worker_payments or of vendor_payments, with
    [worker_id] or [vendor_id] read as [payee_id]. *)
Record entry := mkEntry {
  entry_id : Z;
  payee_id : option Z;
  amount : Z;
  payment_date : date;
  description : option string;
  created_at : timestamp
}.

Definition entry_of_worker_payment (p : WorkerPayment.row) : entry :=
  mkEntry (WorkerPayment.id p) (WorkerPayment.worker_id p) (WorkerPayment.amount p)
          (WorkerPayment.payment_date p) (WorkerPayment.description p)
          (WorkerPayment.created_at p).

Definition entry_of_vendor_payment (p : VendorPayment.row) : entry :=
  mkEntry (VendorPayment.id p) (VendorPayment.vendor_id p) (VendorPayment.amount p)
          (VendorPayment.payment_date p) (VendorPayment.description p)
          (VendorPayment.created_at p).

Definition ledger (k : kind) (t : tables) : list entry :=
  match k with
  | a_worker => map entry_of_worker_payment (worker_payments t)
  | a_vendor => map entry_of_vendor_payment (vendor_payments t)
  end.

Definition owned_by (n : Z) (en : entry) : bool :=
  match payee_id en with
  | Some m => m =? n
  | None => false
  end.

Definition entries_of (k : kind) (n : Z) (t : tables) : list entry :=
  filter (owned_by n) (ledger k t).

Definition sum_amounts (l : list entry) : Z :=
  fold_right (fun en acc => amount en + acc) 0 l.

(** The aggregate a payee row carries. *)
Record account := mkAccount {
  payee : Z;
  total_paid : option Z;
  last_payment_date : option date
}.

Definition account_of_worker (w : Worker.row) : account :=
  mkAccount (Worker.id w) (Worker.total_paid w) (Worker.last_payment_date w).

Definition account_of_vendor (v : Vendor.row) : account :=
  mkAccount (Vendor.id v) (Vendor.total_paid v) (Vendor.last_payment_date v).

Definition accounts (k : kind) (t : tables) : list account :=
  match k with
  | a_worker => map account_of_worker (workers t)
  | a_vendor => map account_of_vendor (vendors t)
  end.

Definition account_of (k : kind) (n : Z) (t : tables) : option account :=
  find (fun a => payee a =? n) (accounts k t).

Definition payee_exists (k : kind) (n : Z) (t : tables) : bool :=
  existsb (fun a => payee a =? n) (accounts k t).

(** The fields of a payee row other than the aggregate. *)
Definition worker_details (w : Worker.row)
  : Z * string * option string * option Z * option string * timestamp :=
  (Worker.id w, Worker.name w, Worker.role w, Worker.hourly_rate w, Worker.contact w,
   Worker.created_at w).

Definition vendor_details (v : Vendor.row)
  : Z * string * option string * option string * option Z * timestamp :=
  (Vendor.id v, Vendor.name v, Vendor.category v, Vendor.contact v, Vendor.rating v,
   Vendor.created_at v).

(** The ledger entry a response carries, if it carries one. *)
Definition created_entry (r : response) : option entry :=
  match body r with
  | first_row (Some (worker_payment_row p)) => Some (entry_of_worker_payment p)
  | first_row (Some (vendor_payment_row p)) => Some (entry_of_vendor_payment p)
  | _ => None
  end.

(** No transaction is open: the state a session is in between requests. *)
Definition idle (s : session) : Prop := saved (backend s) = None.

Definition contents (s : session) : tables := data (backend s).

(** What a route leaves behind and answers. *)
Definition after (r : route) (s : session) : session := snd (r s).
Definition answer (r : route) (s : session) : result response := fst (r s).

(** The statements a route sent. *)
Definition sent (r : route) (s : session) : list sql :=
  skipn (List.length (issued s)) (issued (after r s)).

Definition ledger_relation (k : kind) : relation :=
  match k with
  | a_worker => WorkerPayments
  | a_vendor => VendorPayments
  end.

Definition payee_relation (k : kind) : relation :=
  match k with
  | a_worker => Workers
  | a_vendor => Vendors
  end.

(** What a statement does to the tables, outside any transaction state. *)
Definition effect {A} (q : statement A) (t : tables) : result (A * tables) :=
  let* r := run q (mkStore t None) in
  ok (fst r, data (snd r)).

Definition on_tables_only {A} (q : statement A) : Prop :=
  forall st, run q st = on_tables (effect q) st.

(** The two steps of a payment route, as changes of the tables: the INSERT
    into the kind's ledger table, and the UPDATE of the kind's payee
    table. *)
Definition insert_step (k : kind) (e : env) (id : id_param) (b : PaymentBody.t)
    (t : tables) : result tables :=
  match k with
  | a_worker =>
      let* r := effect (INSERT_INTO_worker_payments e id (PaymentBody.amount b)
                          (PaymentBody.payment_date b) (PaymentBody.description b)) t in
      ok (snd r)
  | a_vendor =>
      let* r := effect (INSERT_INTO_vendor_payments e id (PaymentBody.amount b)
                          (PaymentBody.payment_date b) (PaymentBody.description b)) t in
      ok (snd r)
  end.

Definition update_step (k : kind) (id : id_param) (b : PaymentBody.t)
    (t : tables) : result tables :=
  match k with
  | a_worker =>
      let* r := effect (UPDATE_workers_total_paid (PaymentBody.amount b)
                          (PaymentBody.payment_date b) id) t in
      ok (snd r)
  | a_vendor =>
      let* r := effect (UPDATE_vendors_total_paid (PaymentBody.amount b)
                          (PaymentBody.payment_date b) id) t in
      ok (snd r)
  end.

(** The shape the two payment routes share: BEGIN, a first statement, a
    second statement, COMMIT and the answer; ROLLBACK and status 500 on a
    throw. *)
Definition transaction {A} (q1 : statement A) (q2 : statement unit)
    (finish : A -> response) : route :=
  try_catch
    (_ <- pool_query BEGIN ;;
     x <- pool_query q1 ;;
     _ <- pool_query q2 ;;
     _ <- pool_query COMMIT ;;
     pure (finish x))
    (fun err => _ <- pool_query ROLLBACK ;; pure (res_status_500 err)).

(** ** One coordinator for both kinds

    Spec section 9 asks for the coordinator to be written once, over the
    payee kind.  [view] is what the two kinds have in common, the accounts
    and the ledger; [coordinator] is the payment transaction on a view. *)
Record view := mkView { v_accounts : list account; v_ledger : list entry }.

Definition observe (k : kind) (t : tables) : view :=
  mkView (accounts k t) (ledger k t).

Definition append (e : env) (id : id_param) (b : PaymentBody.t) (v : view)
  : result (entry * view) :=
  let* id := bound_id id in
  let* amount := bound (PaymentBody.amount b) in
  let* payment_date := bound (PaymentBody.payment_date b) in
  let* description := bound (PaymentBody.description b) in
  let* amount := decimal 10 amount in
  let* amount := not_null amount in
  let* payment_date := not_null payment_date in
  let en := mkEntry (nextval e) (Some id) amount payment_date description
                    (current_timestamp e) in
  let* l := insert_row entry_id en (v_ledger v) in
  let* _ := foreign_key payee (v_accounts v) (payee_id en) in
  ok (en, mkView (v_accounts v) l).

Definition credit (amount : option Q) (payment_date : option date) (a : account)
  : result account :=
  let* total := add_to_total (total_paid a) amount in
  ok (mkAccount (payee a) total payment_date).

Definition applyPayment (id : id_param) (b : PaymentBody.t) (v : view) : result view :=
  let* amount := bound (PaymentBody.amount b) in
  let* payment_date := bound (PaymentBody.payment_date b) in
  let* id := bound_id id in
  let* l := update_where (fun a => payee a =? id) (credit amount payment_date)
                         (v_accounts v) in
  ok (mkView l (v_ledger v)).

(** What a payment route's response says: its status, the entry it
    carries, the failure it reports. *)
Definition outline (r : response) : Z * option entry * option pg_error :=
  (status r, created_entry r,
   match body r with
   | error err => Some err
   | _ => None
   end).

Definition coordinator (e : env) (id : id_param) (b : PaymentBody.t) (v : view)
  : (Z * option entry * option pg_error) * view :=
  match append e id b v with
  | inl err => ((500, None, Some err), v)
  | inr (en, v1) =>
      match applyPayment id b v1 with
      | inl err => ((500, None, Some err), v)
      | inr v2 => ((200, Some en, None), v2)
      end
  end.

Definition map_result {A B} (f : A -> B) (r : result A) : result B :=
  match r with
  | inl err => inl err
  | inr a => inr (f a)
  end.

(** ** Vocabulary of the properties *)

(** The statements of a payment route, by whether it reached the UPDATE and
    whether it committed. *)
Definition statements_of (k : kind) (committed reached_update : bool) : list sql :=
  Begin :: Insert (ledger_relation k)
    :: (if reached_update then [Update (payee_relation k)] else [])
    ++ [if committed then Commit else Rollback].

(** Whether the INSERT of a payment route goes through, so that the route
    reaches its UPDATE. *)
Definition reaches_update (e : env) (id : id_param) (b : PaymentBody.t) (v : view) : bool :=
  match append e id b v with
  | inl _ => false
  | inr _ => true
  end.

(** The account of payee [n] received [a] on date [d]; every other account
    is as it was. *)
Definition credited (n : Z) (a : Q) (d : date) (before after : account) : Prop :=
  if payee before =? n then
    payee after = payee before /\
    add_to_total (total_paid before) (Some a) = inr (total_paid after) /\
    last_payment_date after = Some d
  else after = before.

Definition succeeded (r : result response) : bool :=
  match r with
  | inr resp => status resp =? 200
  | inl _ => false
  end.

(** A failure reported to the client as its own (4xx), as against one
    reported as the server's (5xx). *)
Definition client_error (r : response) : Prop := 400 <= status r < 500.

(** Payments recorded one after the other for payee [n], each answered
    before the next begins and no other request in flight; the flag tells
    whether every one of them succeeded. *)
Fixpoint record_all (k : kind) (n : Z) (calls : list (env * PaymentBody.t)) (s : session)
  : bool * session :=
  match calls with
  | [] => (true, s)
  | (e, b) :: rest =>
      let first := recordPayment k e (Id n) b s in
      let others := record_all k n rest (snd first) in
      (succeeded (fst first) && fst others, snd others)
  end.

(** total_paid of payee [n], NULL or no row read as 0. *)
Definition balance (k : kind) (n : Z) (t : tables) : Z :=
  match account_of k n t with
  | Some a => coalesce (total_paid a) 0
  | None => 0
  end.

Definition consistent (k : kind) (n : Z) (t : tables) : Prop :=
  balance k n t = sum_amounts (entries_of k n t).

Definition amount_is (P : Q -> Prop) (b : PaymentBody.t) : Prop :=
  match PaymentBody.amount b with
  | Value a => P a
  | _ => True
  end.

(** An amount with at most two fractional digits. *)
Definition whole_hundredths (a : Q) : Prop :=
  (Decimal.of_hundredths (Decimal.to_hundredths a) == a)%Q.

Definition non_negative (a : Q) : Prop := (0 <= a)%Q.

(** The listing routes, by kind; a [scans] holds the store's scan of each
    ledger table. *)
Record scans := mkScans {
  scan_worker_payments : scan WorkerPayment.row;
  scan_vendor_payments : scan VendorPayment.row
}.

Definition are_scans (v : scans) : Prop :=
  is_scan (scan_worker_payments v) /\ is_scan (scan_vendor_payments v).

Definition listPayments (k : kind) (v : scans) : id_param -> route :=
  match k with
  | a_worker => get_worker_payments (scan_worker_payments v)
  | a_vendor => get_vendor_payments (scan_vendor_payments v)
  end.

Definition entry_of_row (r : any_row) : list entry :=
  match r with
  | worker_payment_row p => [entry_of_worker_payment p]
  | vendor_payment_row p => [entry_of_vendor_payment p]
  | _ => []
  end.

(** The ledger entries a response lists. *)
Definition listed (r : response) : list entry :=
  match body r with
  | rows l => flat_map entry_of_row l
  | _ => []
  end.

Definition by_date_desc (l : list entry) : Prop :=
  StronglySorted (fun x y => date_leb (payment_date y) (payment_date x) = true) l.

(** Among entries of one date, the later inserted comes first. *)
Definition newest_first_on_ties (l : list entry) : Prop :=
  StronglySorted (fun x y => payment_date x = payment_date y -> entry_id y < entry_id x) l.

(** The identity scan: rows are met in insertion order. *)
Definition in_insertion_order : scans := mkScans (fun l => l) (fun l => l).

(** The reversed scan: rows are met latest insertion first. *)
Definition in_reverse_order : scans := mkScans (@rev _) (@rev _).

(** The two ledger tables. *)
Definition ledgers (t : tables) : list WorkerPayment.row * list VendorPayment.row :=
  (worker_payments t, vendor_payments t).

(** ** Sample data *)

Definition ada : Worker.row :=
  Worker.mk 1 "Ada" (Some "Mason"%string) (Some 250000) (Some "ada@site"%string) (Some 0) None 10.

Definition brickyard : Vendor.row :=
  Vendor.mk 1 "Brickyard" (Some "Materials"%string) (Some "sales@brickyard"%string) (Some 5) (Some 0) None 10.

Definition site : session :=
  mkSession (mkStore (mkTables [] [ada] [] [brickyard] [] []) None) [].

Definition empty_site : session := mkSession (mkStore initDB None) [].

Definition at_ (seq : Z) (now : timestamp) : env := mkEnv seq now.

Definition pay (a : Q) (d : date) (memo : string) : PaymentBody.t :=
  PaymentBody.mk (Value a) (Value d) (Value memo).

(** A worker one hundredth short of the largest DECIMAL(15,2) total. *)
Definition at_the_limit : session :=
  mkSession
    (mkStore (mkTables []
                [Worker.mk 1 "Ada" None None None (Some 999999999999999) None 10]
                [] [] [] [])
             None) [].

(** Two payments of one date, recorded one after the other. *)
Definition same_day : session :=
  mkSession
    (mkStore (mkTables []
                [Worker.mk 1 "Ada" None None None (Some 30000) (Some (mkDate 2024 2 10)) 10]
                [WorkerPayment.mk 1 (Some 1) 10000 (mkDate 2024 2 10) (Some "first"%string) 100;
                 WorkerPayment.mk 2 (Some 1) 20000 (mkDate 2024 2 10) (Some "second"%string) 200]
                [] [] [])
             None) [].

(** ** Vocabulary of the further properties *)

(** PRIMARY KEY: no two rows of a table share an id. *)
Definition keys_unique (t : tables) : Prop :=
  NoDup (map Project.id (projects t)) /\
  NoDup (map Worker.id (workers t)) /\
  NoDup (map WorkerPayment.id (worker_payments t)) /\
  NoDup (map Vendor.id (vendors t)) /\
  NoDup (map VendorPayment.id (vendor_payments t)) /\
  NoDup (map Inventory.id (inventory t)).

(** REFERENCES: every child row passes the check of its foreign key. *)
Definition resolved {P C} (key : P -> Z) (ref : C -> option Z)
    (parent : list P) (child : list C) : Prop :=
  Forall (fun c => foreign_key key parent (ref c) = ok tt) child.

Definition references_resolved (t : tables) : Prop :=
  resolved Worker.id WorkerPayment.worker_id (workers t) (worker_payments t) /\
  resolved Vendor.id VendorPayment.vendor_id (vendors t) (vendor_payments t).

(** Requests served one after the other: each is answered before the
    next begins, so that no two are in flight together. *)
Fixpoint serve (reqs : list request) (s : session) : session :=
  match reqs with
  | [] => s
  | req :: rest => serve rest (after (app req) s)
  end.

(** The tables a statement leaves: its own when it succeeds, the tables as
    they were when it fails. *)
Definition statement_tables {A} (q : statement A) (t : tables) : tables :=
  match effect q t with
  | inl _ => t
  | inr (_, t') => t'
  end.

(** The tables a payment route leaves: those of its two steps, or the
    tables as they were. *)
Definition payment_tables (k : kind) (e : env) (id : id_param) (b : PaymentBody.t)
    (t : tables) : tables :=
  match insert_step k e id b t with
  | inl _ => t
  | inr t1 =>
      match update_step k id b t1 with
      | inl _ => t
      | inr t2 => t2
      end
  end.

(** The tables a request leaves, by route. *)
Definition tables_after (req : request) (t : tables) : tables :=
  match req with
  | POST_projects e b =>
      statement_tables (INSERT_INTO_projects e (ProjectBody.name b) (ProjectBody.budget b)
                          (ProjectBody.start_date b) (ProjectBody.status b)
                          (ProjectBody.location b)) t
  | PUT_projects id b =>
      statement_tables (UPDATE_projects (ProjectBody.name b) (ProjectBody.budget b)
                          (ProjectBody.spent b) (ProjectBody.start_date b)
                          (ProjectBody.status b) (ProjectBody.progress_percent b) id) t
  | DELETE_projects id => statement_tables (DELETE_FROM_projects id) t
  | POST_workers e b =>
      statement_tables (INSERT_INTO_workers e (WorkerBody.name b) (WorkerBody.role b)
                          (WorkerBody.hourly_rate b) (WorkerBody.contact b)) t
  | PUT_workers id b =>
      statement_tables (UPDATE_workers (WorkerBody.name b) (WorkerBody.role b)
                          (WorkerBody.hourly_rate b) (WorkerBody.contact b) id) t
  | DELETE_workers id => statement_tables (DELETE_FROM_workers id) t
  | POST_worker_payments e id b => payment_tables a_worker e id b t
  | POST_vendors e b =>
      statement_tables (INSERT_INTO_vendors e (VendorBody.name b) (VendorBody.category b)
                          (VendorBody.contact b) (VendorBody.rating b)) t
  | PUT_vendors id b =>
      statement_tables (UPDATE_vendors (VendorBody.name b) (VendorBody.category b)
                          (VendorBody.contact b) (VendorBody.rating b) id) t
  | DELETE_vendors id => statement_tables (DELETE_FROM_vendors id) t
  | POST_vendor_payments e id b => payment_tables a_vendor e id b t
  | POST_inventory e b =>
      statement_tables (INSERT_INTO_inventory e (InventoryBody.name b)
                          (InventoryBody.category b) (InventoryBody.quantity b)
                          (InventoryBody.unit_price b) (InventoryBody.min_stock b)) t
  | PUT_inventory id b =>
      statement_tables (UPDATE_inventory (InventoryBody.name b) (InventoryBody.category b)
                          (InventoryBody.quantity b) (InventoryBody.unit_price b)
                          (InventoryBody.min_stock b) id) t
  | DELETE_inventory id => statement_tables (DELETE_FROM_inventory id) t
  | _ => t
  end.

(** The tables whose rows a route's statements insert, update or delete,
    the ON DELETE CASCADE included. *)
Definition writes (req : request) : list relation :=
  match req with
  | POST_projects _ _ | PUT_projects _ _ | DELETE_projects _ => [Projects]
  | POST_workers _ _ | PUT_workers _ _ => [Workers]
  | DELETE_workers _ | POST_worker_payments _ _ _ => [Workers; WorkerPayments]
  | POST_vendors _ _ | PUT_vendors _ _ => [Vendors]
  | DELETE_vendors _ | POST_vendor_payments _ _ _ => [Vendors; VendorPayments]
  | POST_inventory _ _ | PUT_inventory _ _ | DELETE_inventory _ => [InventoryItems]
  | _ => []
  end.

Definition same_table (r : relation) (t t' : tables) : Prop :=
  match r with
  | Projects => projects t' = projects t
  | Workers => workers t' = workers t
  | WorkerPayments => worker_payments t' = worker_payments t
  | Vendors => vendors t' = vendors t
  | VendorPayments => vendor_payments t' = vendor_payments t
  | InventoryItems => inventory t' = inventory t
  end.

(** The column value a request field is stored as. *)
Definition value_of {A} (p : param A) : option A :=
  match p with
  | Value a => Some a
  | _ => None
  end.

Definition stored_decimal (p : param Q) : option Z :=
  option_map Decimal.to_hundredths (value_of p).

(** Whether a table holds a row of a given id. *)
Definition row_exists (r : relation) (n : Z) (t : tables) : bool :=
  match r with
  | Projects => existsb (fun x => Project.id x =? n) (projects t)
  | Workers => existsb (fun x => Worker.id x =? n) (workers t)
  | WorkerPayments => existsb (fun x => WorkerPayment.id x =? n) (worker_payments t)
  | Vendors => existsb (fun x => Vendor.id x =? n) (vendors t)
  | VendorPayments => existsb (fun x => VendorPayment.id x =? n) (vendor_payments t)
  | InventoryItems => existsb (fun x => Inventory.id x =? n) (inventory t)
  end.

(** The [:id] of a route that has one. *)
Definition path_id (req : request) : option id_param :=
  match req with
  | PUT_projects id _ | DELETE_projects id
  | PUT_workers id _ | DELETE_workers id
  | GET_worker_payments _ id | POST_worker_payments _ id _
  | PUT_vendors id _ | DELETE_vendors id
  | GET_vendor_payments _ id | POST_vendor_payments _ id _
  | PUT_inventory id _ | DELETE_inventory id => Some id
  | _ => None
  end.

(** The table a PUT route edits, and the table a DELETE route deletes
    from. *)
Definition edited (req : request) : option relation :=
  match req with
  | PUT_projects _ _ => Some Projects
  | PUT_workers _ _ => Some Workers
  | PUT_vendors _ _ => Some Vendors
  | PUT_inventory _ _ => Some InventoryItems
  | _ => None
  end.

Definition deleted (req : request) : option relation :=
  match req with
  | DELETE_projects _ => Some Projects
  | DELETE_workers _ => Some Workers
  | DELETE_vendors _ => Some Vendors
  | DELETE_inventory _ => Some InventoryItems
  | _ => None
  end.

(** A store with a row in each of the four edited tables. *)
Definition tower : Project.row :=
  Project.mk 1 "Tower" (Some "Lekki"%string) None (Some "Planning"%string)
             (Some 500000000) (Some 12000000) None (Some 40) 10.

Definition cement : Inventory.row :=
  Inventory.mk 1 "Cement" (Some "Materials"%string) (Some 40) (Some 550000) (Some 5) 10.

Definition yard : session :=
  mkSession (mkStore (mkTables [tower] [ada] [] [brickyard] [] [cement]) None) [].

Definition rename (name : string) : ProjectBody.t :=
  ProjectBody.mk (Value name) Null Null Null Null Null Null.

(** The rows of a table as a list route answers them, and the column the
    four list routes order by. *)
Definition table_rows (r : relation) (t : tables) : list any_row :=
  match r with
  | Projects => map project_row (projects t)
  | Workers => map worker_row (workers t)
  | WorkerPayments => map worker_payment_row (worker_payments t)
  | Vendors => map vendor_row (vendors t)
  | VendorPayments => map vendor_payment_row (vendor_payments t)
  | InventoryItems => map inventory_row (inventory t)
  end.

Definition created (r : any_row) : timestamp :=
  match r with
  | project_row x => Project.created_at x
  | worker_row x => Worker.created_at x
  | worker_payment_row x => WorkerPayment.created_at x
  | vendor_row x => Vendor.created_at x
  | vendor_payment_row x => VendorPayment.created_at x
  | inventory_row x => Inventory.created_at x
  end.

Definition listing (req : request) : option relation :=
  match req with
  | GET_projects _ => Some Projects
  | GET_workers _ => Some Workers
  | GET_vendors _ => Some Vendors
  | GET_inventory _ => Some InventoryItems
  | _ => None
  end.

(** The store meets every row of the table once, in an order of its own. *)
Definition scanned (req : request) : Prop :=
  match req with
  | GET_projects visit => is_scan visit
  | GET_workers visit => is_scan visit
  | GET_worker_payments visit _ => is_scan visit
  | GET_vendors visit => is_scan visit
  | GET_vendor_payments visit _ => is_scan visit
  | GET_inventory visit => is_scan visit
  | _ => True
  end.

Definition newest_first (l : list any_row) : Prop :=
  StronglySorted (fun a b => created b <= created a) l.

(** The books balance: every payee's total_paid, NULL read as 0, is the
    sum of the amounts of its ledger entries. *)
Definition balanced (accs : list account) (led : list entry) : Prop :=
  forall n,
    existsb (fun a => payee a =? n) accs = true ->
    match find (fun a => payee a =? n) accs with
    | Some a => coalesce (total_paid a) 0
    | None => 0
    end = sum_amounts (filter (owned_by n) led).

Definition books_balance (t : tables) : Prop :=
  forall k n, payee_exists k n t = true -> consistent k n t.

(** Every ledger entry with an owner is owned by one of the accounts. *)
Definition owned (accs : list account) (led : list entry) : Prop :=
  Forall (fun en => match payee_id en with
                    | Some m => existsb (fun a => payee a =? m) accs = true
                    | None => True
                    end) led.

Definition payment_of (req : request) : option PaymentBody.t :=
  match req with
  | POST_worker_payments _ _ b | POST_vendor_payments _ _ b => Some b
  | _ => None
  end.

(** The amount of a payment request has at most two fractional digits. *)
Definition in_hundredths (req : request) : Prop :=
  match payment_of req with
  | Some b => amount_is whole_hundredths b
  | None => True
  end.


(** The sum of a column with NULL read as 0. *)
Definition total (column : list (option Z)) : Z :=
  fold_right (fun v acc => coalesce v 0 + acc) 0 column.

(** Every ledger entry has an owner among the accounts. *)
Definition all_owned (accs : list account) (led : list entry) : Prop :=
  Forall (fun en => exists m, payee_id en = Some m /\
                              existsb (fun a => payee a =? m) accs = true) led.

Definition ledgers_owned (t : tables) : Prop :=
  forall k, all_owned (accounts k t) (ledger k t).

(** The fields of a request that are stored in a DECIMAL(p,2) column, with
    the precision p of the column. *)
Definition decimals (req : request) : list (Z * param Q) :=
  match req with
  | POST_projects _ b => [(15, ProjectBody.budget b)]
  | PUT_projects _ b => [(15, ProjectBody.budget b); (15, ProjectBody.spent b)]
  | POST_workers _ b | PUT_workers _ b => [(10, WorkerBody.hourly_rate b)]
  | POST_inventory _ b | PUT_inventory _ b => [(10, InventoryBody.unit_price b)]
  | POST_worker_payments _ _ b | POST_vendor_payments _ _ b => [(10, PaymentBody.amount b)]
  | _ => []
  end.

(** ** The column types of the schema

    The statements above take an integer parameter as a [Z] and a text
    parameter as a [string].  The store keeps an INTEGER in 32 bits and a
    VARCHAR(n) in at most n characters: it refuses an integer beyond the
    32 bits, among them an [:id] and a value of a SERIAL sequence, and it
    refuses a longer text, or cuts it when only spaces lie beyond n.
    [fits_columns] says that none of this applies to a request; what is
    proved of the values a request stores, and of the answer to an integer
    [:id], assumes it. *)
Definition int4 (n : Z) : Prop := -2147483648 <= n <= 2147483647.

(** The length in bytes, which is at least the length in characters. *)
Definition varchar (n : nat) (s : string) : Prop := (String.length s <= n)%nat.

Definition holds {A} (P : A -> Prop) (p : param A) : Prop :=
  match p with
  | Value a => P a
  | _ => True
  end.

Definition id_fits (req : request) : Prop :=
  match path_id req with
  | Some (Id n) => int4 n
  | _ => True
  end.

Definition sequence_fits (req : request) : Prop :=
  match req with
  | POST_projects e _ | POST_workers e _ | POST_vendors e _ | POST_inventory e _
  | POST_worker_payments e _ _ | POST_vendor_payments e _ _ => int4 (nextval e)
  | _ => True
  end.

(** The INTEGER columns a request writes: progress_percent, rating,
    quantity and min_stock. *)
Definition integers_fit (req : request) : Prop :=
  match req with
  | PUT_projects _ b => holds int4 (ProjectBody.progress_percent b)
  | POST_vendors _ b | PUT_vendors _ b => holds int4 (VendorBody.rating b)
  | POST_inventory _ b | PUT_inventory _ b =>
      holds int4 (InventoryBody.quantity b) /\ holds int4 (InventoryBody.min_stock b)
  | _ => True
  end.

(** The VARCHAR columns a request writes, with their lengths in [initDB]. *)
Definition texts_fit (req : request) : Prop :=
  match req with
  | POST_projects _ b =>
      holds (varchar 255) (ProjectBody.name b) /\ holds (varchar 50) (ProjectBody.status b) /\
      holds (varchar 255) (ProjectBody.location b)
  | PUT_projects _ b =>
      holds (varchar 255) (ProjectBody.name b) /\ holds (varchar 50) (ProjectBody.status b)
  | POST_workers _ b | PUT_workers _ b =>
      holds (varchar 255) (WorkerBody.name b) /\ holds (varchar 100) (WorkerBody.role b) /\
      holds (varchar 255) (WorkerBody.contact b)
  | POST_vendors _ b | PUT_vendors _ b =>
      holds (varchar 255) (VendorBody.name b) /\ holds (varchar 100) (VendorBody.category b) /\
      holds (varchar 255) (VendorBody.contact b)
  | POST_inventory _ b | PUT_inventory _ b =>
      holds (varchar 255) (InventoryBody.name b) /\
      holds (varchar 100) (InventoryBody.category b)
  | _ => True
  end.

Definition fits_columns (req : request) : Prop :=
  id_fits req /\ sequence_fits req /\ integers_fit req /\ texts_fit req.

(** ** Overlapping requests

    A handler runs up to its next [await pool.query(...)]; while the store
    works on the statement the server goes on with the other requests in
    flight.  [pool.query] takes a connection of the pool that is free,
    sends the statement on it and releases it; after a statement that
    failed it releases it with the error, which closes the connection, and
    the store rolls back the transaction that was open on it.

    A [script] is a handler cut at its queries.  [overlap] runs the
    scripts of the requests in flight, one query at a time in the order of
    a schedule, every query on the connection released last, which is the
    connection [session] stands for (or a new one, after a failure closed
    it).  A request served with no other request in flight is the
    schedule that names it alone: [transaction_script_alone] below. *)
Inductive script :=
| Answered (r : result response)
| Await {A : Type} (q : statement A) (k : result A -> script).

(** The end of a connection: an open transaction is rolled back. *)
Definition closed (st : store) : store :=
  match saved st with
  | None => st
  | Some t => mkStore t None
  end.

Definition dispatch {A} (q : statement A) (s : session) : result A * session :=
  match pool_query q s with
  | (inl err, s') => (inl err, mkSession (closed (backend s')) (issued s'))
  | (inr a, s') => (inr a, s')
  end.

Definition step (p : script) (s : session) : script * session :=
  match p with
  | Answered r => (Answered r, s)
  | Await q k => (k (fst (dispatch q s)), snd (dispatch q s))
  end.

Fixpoint put_nth {A} (i : nat) (a : A) (l : list A) : list A :=
  match l, i with
  | [], _ => []
  | _ :: l', O => a :: l'
  | b :: l', S j => b :: put_nth j a l'
  end.

(** [schedule] names, query by query, the request in flight that sends
    the next one. *)
Fixpoint overlap (schedule : list nat) (in_flight : list script) (s : session)
  : list script * session :=
  match schedule with
  | [] => (in_flight, s)
  | i :: rest =>
      match nth_error in_flight i with
      | None => overlap rest in_flight s
      | Some p => overlap rest (put_nth i (fst (step p s)) in_flight) (snd (step p s))
      end
  end.

Definition answered (p : script) : option (result response) :=
  match p with
  | Answered r => Some r
  | Await _ _ => None
  end.

(** The handler of the two payment routes cut at its five queries: BEGIN,
    the INSERT, the UPDATE, COMMIT and the answer, or from any failure the
    catch block, ROLLBACK and status 500. *)
Definition transaction_script {A} (q1 : statement A) (q2 : statement unit)
    (finish : A -> response) : script :=
  let caught err :=
    Await ROLLBACK (fun r =>
      match r with
      | inl thrown => Answered (inl thrown)
      | inr _ => Answered (inr (res_status_500 err))
      end) in
  Await BEGIN (fun r0 =>
    match r0 with
    | inl err => caught err
    | inr _ =>
        Await q1 (fun r1 =>
          match r1 with
          | inl err => caught err
          | inr x =>
              Await q2 (fun r2 =>
                match r2 with
                | inl err => caught err
                | inr _ =>
                    Await COMMIT (fun r3 =>
                      match r3 with
                      | inl err => caught err
                      | inr _ => Answered (inr (finish x))
                      end)
                end)
          end)
    end).

(** app.post('/api/workers/:id/payments') and
    app.post('/api/vendors/:id/payments'), cut at their queries *)
Definition recordPayment_script (k : kind) (e : env) (id : id_param) (b : PaymentBody.t)
  : script :=
  match k with
  | a_worker =>
      transaction_script
        (INSERT_INTO_worker_payments e id (PaymentBody.amount b)
           (PaymentBody.payment_date b) (PaymentBody.description b))
        (UPDATE_workers_total_paid (PaymentBody.amount b) (PaymentBody.payment_date b) id)
        (fun paymentResult => res_json (row0 worker_payment_row paymentResult))
  | a_vendor =>
      transaction_script
        (INSERT_INTO_vendor_payments e id (PaymentBody.amount b)
           (PaymentBody.payment_date b) (PaymentBody.description b))
        (UPDATE_vendors_total_paid (PaymentBody.amount b) (PaymentBody.payment_date b) id)
        (fun paymentResult => res_json (row0 vendor_payment_row paymentResult))
  end.

(** Two workers and two vendors, the second of each one hundredth short
    of the largest DECIMAL(15,2) total, and no payment yet. *)
Definition two_payees : session :=
  mkSession
    (mkStore (mkTables []
                [ada; Worker.mk 2 "Bayo" None None None (Some 999999999999999) None 20]
                []
                [brickyard; Vendor.mk 2 "Quarry" None None None (Some 999999999999999) None 20]
                [] [])
             None) [].

(** Three payments in flight: 10.00 to payee 1, 0.01 to payee 2, whose
    total it would take beyond DECIMAL(15,2), and 5.00 to payee 9, which
    does not exist. *)
Definition pays_1 (k : kind) : script :=
  recordPayment_script k (at_ 1 100) (Id 1) (pay 10 (mkDate 2024 3 1) "wages").

Definition pays_2 (k : kind) : script :=
  recordPayment_script k (at_ 2 200) (Id 2) (pay 0.01 (mkDate 2024 3 1) "bonus").

Definition pays_9 (k : kind) : script :=
  recordPayment_script k (at_ 2 200) (Id 9) (pay 5 (mkDate 2024 3 1) "bonus").

(** * Properties

    ** Statements and transactions *)

Lemma effect_on_tables {A} (r : sql) (f : tables -> result (A * tables)) t :
  effect (Statement r (on_tables f)) t = f t.
Proof.
  unfold effect, on_tables. simpl. destruct (f t) as [err|[a t']]; reflexivity.
Qed.

Lemma on_tables_effect {A} (r : sql) (f : tables -> result (A * tables)) :
  on_tables_only (Statement r (on_tables f)).
Proof.
  intros [t sv]. unfold effect, on_tables. simpl.
  destruct (f t) as [err|[a t']]; reflexivity.
Qed.

Lemma transaction_outcome {A} (q1 : statement A) (q2 : statement unit) finish s :
  on_tables_only q1 -> on_tables_only q2 -> idle s ->
  transaction q1 q2 finish s =
    match effect q1 (contents s) with
    | inl err =>
        (inr (res_status_500 err),
         mkSession (mkStore (contents s) None) (issued s ++ [Begin; text q1; Rollback]))
    | inr (x, t1) =>
        match effect q2 t1 with
        | inl err =>
            (inr (res_status_500 err),
             mkSession (mkStore (contents s) None)
                       (issued s ++ [Begin; text q1; text q2; Rollback]))
        | inr (_, t2) =>
            (inr (finish x),
             mkSession (mkStore t2 None) (issued s ++ [Begin; text q1; text q2; Commit]))
        end
    end.
Proof.
  intros run_q1 run_q2.
  destruct s as [[t sv] log]. unfold idle, contents. simpl. intros ->.
  unfold transaction, try_catch, bind, pool_query. simpl.
  rewrite run_q1. unfold on_tables at 1. simpl.
  destruct (effect q1 t) as [err|[x t1]]; simpl.
  - now rewrite <- !app_assoc.
  - rewrite run_q2. unfold on_tables. simpl.
    destruct (effect q2 t1) as [err|[[] t2]]; simpl; now rewrite <- !app_assoc.
Qed.

(** ** Tables seen through a view of their rows *)

Section Through.
Context {A B : Type} (f : A -> B).

Lemma existsb_through (p : A -> bool) (q : B -> bool) l :
  (forall a, q (f a) = p a) -> existsb q (map f l) = existsb p l.
Proof.
  intros H. induction l as [|a l IH]; simpl; [reflexivity|].
  now rewrite H, IH.
Qed.

Lemma insert_row_through (keyA : A -> Z) (keyB : B -> Z) r l :
  (forall a, keyB (f a) = keyA a) ->
  insert_row keyB (f r) (map f l) = map_result (map f) (insert_row keyA r l).
Proof.
  intros H. unfold insert_row.
  rewrite (existsb_through (fun r' => keyA r' =? keyA r)).
  - destruct (existsb _ l); simpl; [reflexivity|].
    unfold ok. now rewrite map_app.
  - intros a. now rewrite !H.
Qed.

Lemma foreign_key_through (keyA : A -> Z) (keyB : B -> Z) l ref :
  (forall a, keyB (f a) = keyA a) ->
  foreign_key keyB (map f l) ref = foreign_key keyA l ref.
Proof.
  intros H. unfold foreign_key, references. destruct ref as [n|]; [|reflexivity].
  now rewrite (existsb_through (fun p => keyA p =? n)) by (intros a; now rewrite H).
Qed.

Lemma traverse_through (g : A -> result A) (h : B -> result B) l :
  (forall a, map_result f (g a) = h (f a)) ->
  map_result (map f) (traverse g l) = traverse h (map f l).
Proof.
  intros H. induction l as [|a l IH]; simpl; [reflexivity|].
  rewrite <- H, <- IH.
  destruct (g a) as [err|a']; simpl; [reflexivity|].
  destruct (traverse g l) as [err|l']; reflexivity.
Qed.

Lemma update_where_through (p : A -> bool) (q : B -> bool)
    (g : A -> result A) (h : B -> result B) l :
  (forall a, q (f a) = p a) ->
  (forall a, map_result f (g a) = h (f a)) ->
  map_result (map f) (update_where p g l) = update_where q h (map f l).
Proof.
  intros Hq Hh. unfold update_where. apply traverse_through.
  intros a. rewrite Hq. destruct (p a); [apply Hh|reflexivity].
Qed.
End Through.

Lemma set_worker_aggregate_through amount payment_date w :
  map_result account_of_worker (set_worker_aggregate amount payment_date w)
  = credit amount payment_date (account_of_worker w).
Proof.
  unfold set_worker_aggregate, credit. simpl.
  destruct (add_to_total (Worker.total_paid w) amount); reflexivity.
Qed.

Lemma set_vendor_aggregate_through amount payment_date v :
  map_result account_of_vendor (set_vendor_aggregate amount payment_date v)
  = credit amount payment_date (account_of_vendor v).
Proof.
  unfold set_vendor_aggregate, credit. simpl.
  destruct (add_to_total (Vendor.total_paid v) amount); reflexivity.
Qed.

(** ** The two statements of a payment route refine [append] and [applyPayment] *)

Ltac insert_refines e id am pd ds entry_of pk account_of fk :=
  rewrite effect_on_tables; unfold append, insert_row, observe; simpl;
  destruct id as [|?n]; simpl; [reflexivity|];
  destruct am as [| |?a], pd as [| |?d], ds as [| |?x]; simpl; try reflexivity;
  try (match goal with
       | |- context [Decimal.coerce 10 ?a] =>
           destruct (Decimal.coerce 10 a); simpl; try reflexivity
       end);
  match goal with
  | |- context [existsb (fun p => payee p =? ?n)] =>
      rewrite (existsb_through entry_of (fun r' => pk r' =? nextval e)) by reflexivity;
      rewrite (existsb_through account_of (fun w => fk w =? n)) by reflexivity
  end;
  repeat match goal with
         | |- context [existsb ?p ?l] => destruct (existsb p l); simpl; try reflexivity
         end;
  unfold observe, outline; simpl; now rewrite map_app.

Lemma INSERT_INTO_worker_payments_refines e id b t :
  map_result
    (fun r => (outline (res_json (row0 worker_payment_row (fst r))),
               observe a_worker (snd r)))
    (effect (INSERT_INTO_worker_payments e id (PaymentBody.amount b)
               (PaymentBody.payment_date b) (PaymentBody.description b)) t)
  = map_result (fun r => ((200, Some (fst r), None), snd r))
               (append e id b (observe a_worker t)).
Proof.
  destruct b as [am pd ds]. unfold INSERT_INTO_worker_payments.
  insert_refines e id am pd ds entry_of_worker_payment WorkerPayment.id account_of_worker Worker.id.
Qed.

Lemma INSERT_INTO_vendor_payments_refines e id b t :
  map_result
    (fun r => (outline (res_json (row0 vendor_payment_row (fst r))),
               observe a_vendor (snd r)))
    (effect (INSERT_INTO_vendor_payments e id (PaymentBody.amount b)
               (PaymentBody.payment_date b) (PaymentBody.description b)) t)
  = map_result (fun r => ((200, Some (fst r), None), snd r))
               (append e id b (observe a_vendor t)).
Proof.
  destruct b as [am pd ds]. unfold INSERT_INTO_vendor_payments.
  insert_refines e id am pd ds entry_of_vendor_payment VendorPayment.id account_of_vendor Vendor.id.
Qed.

Lemma UPDATE_workers_total_paid_refines id b t :
  map_result (fun r => observe a_worker (snd r))
    (effect (UPDATE_workers_total_paid (PaymentBody.amount b)
               (PaymentBody.payment_date b) id) t)
  = applyPayment id b (observe a_worker t).
Proof.
  destruct b as [am pd ds]. unfold UPDATE_workers_total_paid, applyPayment, observe.
  rewrite effect_on_tables. simpl.
  destruct (bound am) as [?|amount]; simpl; [reflexivity|].
  destruct (bound pd) as [?|payment_date]; simpl; [reflexivity|].
  destruct id as [|n]; simpl; [reflexivity|].
  rewrite <- (update_where_through account_of_worker (fun w => Worker.id w =? n) _
                (set_worker_aggregate amount payment_date))
    by (reflexivity || apply set_worker_aggregate_through).
  destruct (update_where _ _ (workers t)); reflexivity.
Qed.

Lemma UPDATE_vendors_total_paid_refines id b t :
  map_result (fun r => observe a_vendor (snd r))
    (effect (UPDATE_vendors_total_paid (PaymentBody.amount b)
               (PaymentBody.payment_date b) id) t)
  = applyPayment id b (observe a_vendor t).
Proof.
  destruct b as [am pd ds]. unfold UPDATE_vendors_total_paid, applyPayment, observe.
  rewrite effect_on_tables. simpl.
  destruct (bound am) as [?|amount]; simpl; [reflexivity|].
  destruct (bound pd) as [?|payment_date]; simpl; [reflexivity|].
  destruct id as [|n]; simpl; [reflexivity|].
  rewrite <- (update_where_through account_of_vendor (fun w => Vendor.id w =? n) _
                (set_vendor_aggregate amount payment_date))
    by (reflexivity || apply set_vendor_aggregate_through).
  destruct (update_where _ _ (vendors t)); reflexivity.
Qed.

Ltac route_refines Hs Hi Hu :=
  rewrite transaction_outcome by (try apply on_tables_effect; exact Hs);
  unfold coordinator, reaches_update;
  match type of Hi with
  | map_result _ ?ins = map_result _ ?app =>
      destruct ins as [?err|[?out ?t1]]; destruct app as [?err|[?en ?v1]];
      simpl in Hi; try discriminate Hi; inversion Hi; subst
  end;
  [ do 2 eexists; split; [reflexivity|]; split; [reflexivity|]; split; [reflexivity|];
    right; split; [reflexivity|]; split; reflexivity
  | match goal with
    | |- context [effect _ ?t1] =>
        specialize (Hu t1);
        match type of Hu with
        | map_result _ ?upd = ?app =>
            destruct upd as [?err|[?u ?t2]]; destruct app as [?err|?v2];
            simpl in Hu; try discriminate Hu; inversion Hu; subst
        end
    end;
    [ do 2 eexists; split; [reflexivity|]; split; [reflexivity|]; split; [reflexivity|];
      right; split; [reflexivity|]; split; reflexivity
    | do 2 eexists; split; [reflexivity|]; split; [reflexivity|]; split;
      [ unfold contents; simpl; f_equal; assumption
      | left; split; reflexivity ] ] ].

Lemma recordPayment_refines k e id b s :
  idle s ->
  exists r s',
    recordPayment k e id b s = (inr r, s') /\
    idle s' /\
    (outline r, observe k (contents s')) = coordinator e id b (observe k (contents s)) /\
    ((status r = 200 /\ issued s' = issued s ++ statements_of k true true)
     \/ (status r = 500 /\ contents s' = contents s /\
         issued s' = issued s
                     ++ statements_of k false (reaches_update e id b (observe k (contents s))))).
Proof.
  intros Hs.
  destruct k; simpl.
  - change (post_worker_payments e id b) with
      (transaction (INSERT_INTO_worker_payments e id (PaymentBody.amount b)
                      (PaymentBody.payment_date b) (PaymentBody.description b))
                   (UPDATE_workers_total_paid (PaymentBody.amount b)
                      (PaymentBody.payment_date b) id)
                   (fun paymentResult => res_json (row0 worker_payment_row paymentResult))).
    pose proof (INSERT_INTO_worker_payments_refines e id b (contents s)) as Hi.
    pose proof (UPDATE_workers_total_paid_refines id b) as Hu.
    route_refines Hs Hi Hu.
  - change (post_vendor_payments e id b) with
      (transaction (INSERT_INTO_vendor_payments e id (PaymentBody.amount b)
                      (PaymentBody.payment_date b) (PaymentBody.description b))
                   (UPDATE_vendors_total_paid (PaymentBody.amount b)
                      (PaymentBody.payment_date b) id)
                   (fun paymentResult => res_json (row0 vendor_payment_row paymentResult))).
    pose proof (INSERT_INTO_vendor_payments_refines e id b (contents s)) as Hi.
    pose proof (UPDATE_vendors_total_paid_refines id b) as Hu.
    route_refines Hs Hi Hu.
Qed.

(** ** What the coordinator does to a view *)

Lemma traverse_Forall2 {A B} (f : A -> result B) l l' :
  traverse f l = inr l' -> Forall2 (fun a b => f a = inr b) l l'.
Proof.
  revert l'. induction l as [|a l IH]; simpl; intros l' H.
  - inversion H. constructor.
  - destruct (f a) as [?|b] eqn:Hb; simpl in H; [discriminate|].
    destruct (traverse f l) as [?|bs]; simpl in H; [discriminate|].
    inversion H; subst. constructor; auto.
Qed.

Lemma update_where_Forall2 {A} (sel : A -> bool) (set : A -> result A) l l' :
  update_where sel set l = inr l' ->
  Forall2 (fun a b => if sel a then set a = inr b else b = a) l l'.
Proof.
  intros H. apply traverse_Forall2 in H.
  induction H; constructor; auto.
  destruct (sel x); [assumption|unfold ok in *; congruence].
Qed.

Lemma credit_credited n a d l l' :
  update_where (fun x => payee x =? n) (credit (Some a) (Some d)) l = inr l' ->
  Forall2 (credited n a d) l l'.
Proof.
  intros H. apply update_where_Forall2 in H.
  induction H as [|x y l l' Hxy _ IH]; constructor; auto.
  unfold credited. destruct (payee x =? n); [|assumption].
  unfold credit in Hxy.
  destruct (add_to_total (total_paid x) (Some a)) as [?|tot]; simpl in Hxy; [discriminate|].
  inversion Hxy; subst. simpl. auto.
Qed.

Lemma coordinator_cases e id b v :
  (exists n a d c l,
      id = Id n /\ PaymentBody.amount b = Value a /\ PaymentBody.payment_date b = Value d /\
      Decimal.coerce 10 a = Some c /\
      existsb (fun x => payee x =? n) (v_accounts v) = true /\
      update_where (fun x => payee x =? n) (credit (Some a) (Some d)) (v_accounts v) = inr l /\
      let en := mkEntry (nextval e) (Some n) c d
                  (match PaymentBody.description b with Value x => Some x | _ => None end)
                  (current_timestamp e) in
      coordinator e id b v = ((200, Some en, None), mkView l (v_ledger v ++ [en])))
  \/ (exists err, coordinator e id b v = ((500, None, Some err), v)).
Proof.
  destruct b as [am pd ds]. unfold coordinator, append, applyPayment, insert_row. simpl.
  destruct id as [|n]; simpl; [right; eauto|].
  destruct am as [| |a], pd as [| |d], ds as [| |x]; simpl; try (right; eauto; fail).
  all: try (destruct (Decimal.coerce 10 a) as [c|] eqn:Hc; simpl; try (right; eauto; fail)).
  all: destruct (existsb _ (v_ledger v)) eqn:Hpk; simpl; try (right; eauto; fail).
  all: destruct (existsb _ (v_accounts v)) eqn:Hfk; simpl; try (right; eauto; fail).
  all: destruct (update_where _ _ (v_accounts v)) as [err|l] eqn:Hup; simpl;
    try (right; eauto; fail).
  all: left; exists n, a, d, c, l; repeat split; auto.
Qed.

Lemma outline_failure r err :
  outline r = (500, None, Some err) -> r = res_status_500 err.
Proof.
  destruct r as [st bd]. unfold outline, res_status_500. simpl.
  intros H. inversion H; subst. destruct bd; try discriminate. congruence.
Qed.

Lemma recordPayment_outcome k e id b s :
  idle s ->
  exists r s',
    recordPayment k e id b s = (inr r, s') /\ idle s' /\
    ((exists n a d c,
         id = Id n /\ PaymentBody.amount b = Value a /\
         PaymentBody.payment_date b = Value d /\
         Decimal.coerce 10 a = Some c /\
         payee_exists k n (contents s) = true /\
         let en := mkEntry (nextval e) (Some n) c d
                     (match PaymentBody.description b with Value x => Some x | _ => None end)
                     (current_timestamp e) in
         status r = 200 /\ created_entry r = Some en /\
         ledger k (contents s') = ledger k (contents s) ++ [en] /\
         Forall2 (credited n a d) (accounts k (contents s)) (accounts k (contents s')) /\
         issued s' = issued s ++ statements_of k true true)
     \/ (exists err,
           r = res_status_500 err /\ contents s' = contents s /\
           issued s' = issued s
                       ++ statements_of k false (reaches_update e id b (observe k (contents s))))).
Proof.
  intros Hs.
  destruct (recordPayment_refines k e id b s Hs) as (r & s' & Hrun & Hidle & Hco & Hlog).
  exists r, s'. split; [assumption|]. split; [assumption|].
  pose proof (f_equal fst Hco) as Hout. pose proof (f_equal snd Hco) as Hview.
  simpl in Hout, Hview. clear Hco.
  destruct (coordinator_cases e id b (observe k (contents s)))
    as [(n & a & d & c & l & Hid & Ham & Hpd & Hc & Hfk & Hup & Hok)|(err & Herr)].
  - left. exists n, a, d, c. cbv zeta in Hok. rewrite Hok in Hout, Hview.
    simpl in Hout, Hview. unfold outline in Hout.
    injection Hout as Hst Hen _. injection Hview as Hacc Hled.
    cbv zeta. repeat match goal with |- _ /\ _ => split end; try assumption.
    + rewrite Hacc. apply credit_credited. exact Hup.
    + destruct Hlog as [[_ Hlog]|[Hst' _]]; [assumption|congruence].
  - right. rewrite Herr in Hout. simpl in Hout.
    destruct Hlog as [[Hst' _]|(_ & Hsame & Hlog)].
    + unfold outline in Hout. congruence.
    + exists err. split; [|split; assumption].
      now apply outline_failure.
Qed.

(** ** The payment routes as transactions *)

Lemma post_worker_payments_transaction e id b :
  post_worker_payments e id b =
  transaction (INSERT_INTO_worker_payments e id (PaymentBody.amount b)
                 (PaymentBody.payment_date b) (PaymentBody.description b))
              (UPDATE_workers_total_paid (PaymentBody.amount b)
                 (PaymentBody.payment_date b) id)
              (fun paymentResult => res_json (row0 worker_payment_row paymentResult)).
Proof. reflexivity. Qed.

Lemma post_vendor_payments_transaction e id b :
  post_vendor_payments e id b =
  transaction (INSERT_INTO_vendor_payments e id (PaymentBody.amount b)
                 (PaymentBody.payment_date b) (PaymentBody.description b))
              (UPDATE_vendors_total_paid (PaymentBody.amount b)
                 (PaymentBody.payment_date b) id)
              (fun paymentResult => res_json (row0 vendor_payment_row paymentResult)).
Proof. reflexivity. Qed.

(** Served alone, a payment route, for a worker or a vendor, lands its
    two steps together or not at all, and leaves no transaction open.
    When the INSERT into the ledger table fails, or when it succeeds and
    the UPDATE of the payee's aggregate then fails, the route answers
    status 500 and the tables are what they were before the call: no
    ledger entry of the attempt stays.  When both succeed the tables are
    those the two steps produce: the ledger gained the entry the response
    carries, and the account of its payee was credited with the amount
    and the date of the body.  (Not so for requests in flight together:
    [overlapping_payment_keeps_its_entry_without_the_update].) *)
Theorem recordPayment_alone_is_all_or_nothing k e id b s :
  idle s ->
  let s' := after (recordPayment k e id b) s in
  idle s' /\
  match insert_step k e id b (contents s) with
  | inl err =>
      answer (recordPayment k e id b) s = inr (res_status_500 err) /\
      contents s' = contents s
  | inr t1 =>
      match update_step k id b t1 with
      | inl err =>
          answer (recordPayment k e id b) s = inr (res_status_500 err) /\
          contents s' = contents s
      | inr t2 =>
          contents s' = t2 /\
          exists r en n a d,
            answer (recordPayment k e id b) s = inr r /\ status r = 200 /\
            id = Id n /\ PaymentBody.amount b = Value a /\
            PaymentBody.payment_date b = Value d /\
            created_entry r = Some en /\ payee_id en = Some n /\
            ledger k t2 = ledger k (contents s) ++ [en] /\
            payee_exists k n (contents s) = true /\
            Forall2 (credited n a d) (accounts k (contents s)) (accounts k t2)
      end
  end.
Proof.
  intros Hs s'. pose proof (recordPayment_outcome k e id b s Hs) as Hout.
  split.
  { destruct Hout as (r & s1 & Hrun & Hidle & _). subst s'. unfold after. now rewrite Hrun. }
  subst s'. unfold after, answer, insert_step, update_step.
  destruct k; simpl recordPayment in *;
    [rewrite post_worker_payments_transaction in *
    |rewrite post_vendor_payments_transaction in *].
  all: rewrite transaction_outcome in * by (try apply on_tables_effect; exact Hs).
  all: match goal with
       | |- context [and_then (effect ?q1 ?t) _] =>
           destruct (effect q1 t) as [err|[x t1]]; simpl; [split; reflexivity|]
       end.
  all: match goal with
       | |- context [and_then (effect ?q2 ?t) _] =>
           destruct (effect q2 t) as [err|[u t2]]; simpl; [split; reflexivity|]
       end.
  all: split; [reflexivity|].
  all: destruct Hout as (r & s' & Hrun & _ & Hcases).
  all: inversion Hrun; subst.
  all: destruct Hcases
         as [(n & a & d & c & Hid & Ham & Hpd & _ & Hfk & Hok)|(err & Hr & _)];
       [|discriminate Hr].
  all: cbv zeta in Hok; destruct Hok as (Hst & Hen & Hled & Hacc & _).
  all: eexists _, _, n, a, d; repeat split; try eassumption; reflexivity.
Qed.

Lemma recordPayment_alone_is_all_or_nothing_witness :
  idle at_the_limit /\
  answer (recordPayment a_worker (at_ 1 100) (Id 1) (pay 0.01 (mkDate 2024 1 1) "bonus"))
         at_the_limit
  = inr (res_status_500 numeric_value_out_of_range) /\
  contents (after (recordPayment a_worker (at_ 1 100) (Id 1)
                     (pay 0.01 (mkDate 2024 1 1) "bonus")) at_the_limit)
  = contents at_the_limit.
Proof.
  split; [reflexivity|].
  exact (proj2 (recordPayment_alone_is_all_or_nothing a_worker (at_ 1 100) (Id 1)
                  (pay 0.01 (mkDate 2024 1 1) "bonus") at_the_limit eq_refl)).
Defined.

(** ** Accounts after a payment *)

Lemma credited_find n a d l l' :
  Forall2 (credited n a d) l l' ->
  existsb (fun x => payee x =? n) l = true ->
  exists acc acc',
    find (fun x => payee x =? n) l = Some acc /\
    find (fun x => payee x =? n) l' = Some acc' /\
    add_to_total (total_paid acc) (Some a) = inr (total_paid acc') /\
    last_payment_date acc' = Some d.
Proof.
  induction 1 as [|x y l l' Hxy _ IH]; simpl; [discriminate|].
  unfold credited in Hxy.
  destruct (payee x =? n) eqn:Hx.
  - intros _. destruct Hxy as (Hp & Ht & Hd). exists x, y.
    rewrite Hp, Hx. auto.
  - simpl. intros Hex. subst y. rewrite Hx. auto.
Qed.

Lemma recordPayment_success k e id b s :
  idle s ->
  succeeded (answer (recordPayment k e id b) s) = true ->
  let s' := after (recordPayment k e id b) s in
  idle s' /\
  exists n a d c acc acc',
    id = Id n /\ PaymentBody.amount b = Value a /\ PaymentBody.payment_date b = Value d /\
    Decimal.coerce 10 a = Some c /\
    ledger k (contents s') =
      ledger k (contents s)
      ++ [mkEntry (nextval e) (Some n) c d
            (match PaymentBody.description b with Value x => Some x | _ => None end)
            (current_timestamp e)] /\
    account_of k n (contents s) = Some acc /\
    account_of k n (contents s') = Some acc' /\
    add_to_total (total_paid acc) (Some a) = inr (total_paid acc') /\
    last_payment_date acc' = Some d.
Proof.
  intros Hs. unfold after, answer.
  destruct (recordPayment_outcome k e id b s Hs)
    as (r & s' & Hrun & Hidle & [(n & a & d & c & Hid & Ham & Hpd & Hc & Hfk & Hok)|(err & Hr & _)]);
    rewrite Hrun; simpl.
  - intros _. split; [assumption|]. cbv zeta in Hok.
    destruct Hok as (_ & _ & Hled & Hacc & _).
    destruct (credited_find _ _ _ _ _ Hacc Hfk) as (acc & acc' & H1 & H2 & H3 & H4).
    exists n, a, d, c, acc, acc'. repeat split; assumption.
  - subst r. simpl. discriminate.
Qed.



(** C4, as the code has it.  A payment for an id that names no payee of
    the kind fails with status 500 and the store's error message, the same
    shape as every other failure of the route; the tables are left as they
    were, so the number of entries of every payee of either kind is
    unchanged. *)
Theorem missing_payee_fails_with_status_500 k e n b s :
  idle s ->
  payee_exists k n (contents s) = false ->
  let s' := after (recordPayment k e (Id n) b) s in
  exists err,
    answer (recordPayment k e (Id n) b) s = inr (res_status_500 err) /\
    contents s' = contents s /\
    forall k' m,
      List.length (entries_of k' m (contents s')) = List.length (entries_of k' m (contents s)).
Proof.
  intros Hs Hmissing. unfold after, answer.
  destruct (recordPayment_outcome k e (Id n) b s Hs)
    as (r & s' & Hrun & _ & [(n' & a & d & c & Hid & _ & _ & _ & Hfk & _)|(err & Hr & Hsame & _)]);
    rewrite Hrun; simpl.
  - injection Hid as <-. congruence.
  - exists err. subst r. split; [reflexivity|]. split; [assumption|].
    intros k' m. now rewrite Hsame.
Qed.

Lemma missing_payee_fails_with_status_500_witness :
  exists err,
    answer (recordPayment a_vendor (at_ 1 100) (Id 7) (pay 500 (mkDate 2024 2 10) "advance"))
           site
    = inr (res_status_500 err).
Proof.
  destruct (missing_payee_fails_with_status_500 a_vendor (at_ 1 100) 7
              (pay 500 (mkDate 2024 2 10) "advance") site eq_refl eq_refl)
    as (err & Hanswer & _).
  exists err. exact Hanswer.
Defined.

(** A payment for worker 7, who does not exist, is answered with status
    500 and the foreign-key message: not a failure reported as the
    client's. *)
Lemma missing_payee_is_a_server_error :
  payee_exists a_worker 7 (contents site) = false /\
  answer (recordPayment a_worker (at_ 1 100) (Id 7) (pay 500 (mkDate 2024 2 10) "advance"))
         site
  = inr (res_status_500 foreign_key_violation) /\
  ~ (exists r,
        answer (recordPayment a_worker (at_ 1 100) (Id 7)
                  (pay 500 (mkDate 2024 2 10) "advance")) site = inr r /\
        client_error r).
Proof.
  split; [reflexivity|]. split; [reflexivity|].
  intros (r & Hr & Hclient). vm_compute in Hr. injection Hr as <-.
  unfold client_error in Hclient. simpl in Hclient. lia.
Qed.

(** ** No validation before storage *)

Lemma append_refuses e id b v :
  id = BadId \/
  PaymentBody.amount b = Null \/ PaymentBody.amount b = Rejected \/
  PaymentBody.payment_date b = Null \/ PaymentBody.payment_date b = Rejected ->
  reaches_update e id b v = false.
Proof.
  destruct b as [am pd ds]. unfold reaches_update, append, decimal. simpl.
  intros H.
  destruct id, am as [| |a], pd, ds; simpl; try reflexivity;
    try (destruct (Decimal.coerce 10 a); reflexivity);
    exfalso; destruct H as [H|[H|[H|[H|H]]]]; discriminate.
Qed.

(** C5, as the code has it.  A payment route checks nothing before it
    reaches the store: every call sends BEGIN and the INSERT.  When the id
    is not an integer, or the amount or the date is missing or is not a
    value of its type, it is the store that refuses the INSERT: the route
    answers status 500, sends ROLLBACK, and leaves the tables unchanged. *)
Theorem recordPayment_validates_nothing_before_storage k e id b s :
  idle s ->
  let s' := after (recordPayment k e id b) s in
  (exists rest, issued s' = issued s ++ Begin :: Insert (ledger_relation k) :: rest) /\
  (id = BadId \/
   PaymentBody.amount b = Null \/ PaymentBody.amount b = Rejected \/
   PaymentBody.payment_date b = Null \/ PaymentBody.payment_date b = Rejected ->
   exists err,
     answer (recordPayment k e id b) s = inr (res_status_500 err) /\
     contents s' = contents s /\
     issued s' = issued s ++ [Begin; Insert (ledger_relation k); Rollback]).
Proof.
  intros Hs. unfold after, answer.
  destruct (recordPayment_outcome k e id b s Hs)
    as (r & s' & Hrun & _ & [(n & a & d & c & Hid & Ham & Hpd & _ & _ & Hok)|(err & Hr & Hsame & Hlog)]);
    rewrite Hrun; simpl.
  - cbv zeta in Hok. destruct Hok as (_ & _ & _ & _ & Hlog). split.
    + eexists. rewrite Hlog. reflexivity.
    + intros [ -> | [H | [H | [H | H] ] ] ]; congruence.
  - split.
    + eexists. rewrite Hlog. reflexivity.
    + intros Hbad. exists err. subst r. split; [reflexivity|]. split; [assumption|].
      rewrite Hlog, (append_refuses e id b _ Hbad). reflexivity.
Qed.

Lemma recordPayment_validates_nothing_before_storage_witness :
  exists err,
    answer (recordPayment a_worker (at_ 1 100) BadId
              (PaymentBody.mk (Value 500%Q) Rejected Null)) site
    = inr (res_status_500 err) /\
    issued (after (recordPayment a_worker (at_ 1 100) BadId
                     (PaymentBody.mk (Value 500%Q) Rejected Null)) site)
    = issued site ++ [Begin; Insert WorkerPayments; Rollback].
Proof.
  destruct (proj2 (recordPayment_validates_nothing_before_storage a_worker (at_ 1 100) BadId
                     (PaymentBody.mk (Value 500%Q) Rejected Null) site eq_refl)
                  (or_introl eq_refl))
    as (err & Hanswer & _ & Hlog).
  exists err. split; assumption.
Defined.

(** A payment of -5 is not refused: the route commits, sends its four
    statements and lowers the total. *)
Lemma non_positive_amount_is_recorded :
  succeeded (answer (recordPayment a_worker (at_ 1 100) (Id 1)
                       (pay (-5) (mkDate 2024 2 10) "refund")) site) = true /\
  sent (recordPayment a_worker (at_ 1 100) (Id 1) (pay (-5) (mkDate 2024 2 10) "refund")) site
  = [Begin; Insert WorkerPayments; Update Workers; Commit] /\
  balance a_worker 1
    (contents (after (recordPayment a_worker (at_ 1 100) (Id 1)
                        (pay (-5) (mkDate 2024 2 10) "refund")) site)) = -500 /\
  ~ (exists r,
        answer (recordPayment a_worker (at_ 1 100) (Id 1)
                  (pay (-5) (mkDate 2024 2 10) "refund")) site = inr r /\
        client_error r /\
        sent (recordPayment a_worker (at_ 1 100) (Id 1)
                (pay (-5) (mkDate 2024 2 10) "refund")) site = []).
Proof.
  split; [reflexivity|]. split; [reflexivity|]. split; [reflexivity|].
  intros (r & _ & _ & Hsent). vm_compute in Hsent. discriminate.
Qed.

(** ** Rounding to hundredths *)

Lemma Qfloor_shift z q : Qfloor (inject_Z z + q) = z + Qfloor q.
Proof.
  destruct q as [n d]. unfold Qfloor, Qplus, inject_Z. simpl.
  rewrite Z.mul_1_r. now rewrite Z.div_add_l by discriminate.
Qed.

Lemma round_half_away_comp x y : (x == y)%Q -> Decimal.round_half_away x = Decimal.round_half_away y.
Proof.
  intros H. unfold Decimal.round_half_away. rewrite (Qleb_comp 0%Q 0%Q (Qeq_refl 0%Q) x y H).
  destruct (Qle_bool 0 y).
  - apply Qfloor_comp. now rewrite H.
  - f_equal. apply Qfloor_comp. now rewrite H.
Qed.

Lemma round_half_away_whole z : Decimal.round_half_away (inject_Z z) = z.
Proof.
  unfold Decimal.round_half_away.
  destruct (Qle_bool 0 (inject_Z z)).
  - rewrite Qfloor_shift. change (Qfloor (1 # 2)) with 0. lia.
  - change (- inject_Z z)%Q with (inject_Z (- z)).
    rewrite Qfloor_shift. change (Qfloor (1 # 2)) with 0. lia.
Qed.

Lemma round_half_away_shift z y :
  0 <= z -> (0 <= y)%Q ->
  Decimal.round_half_away (inject_Z z + y) = z + Decimal.round_half_away y.
Proof.
  intros Hz Hy. unfold Decimal.round_half_away.
  assert (H : (0 <= inject_Z z + y)%Q).
  { rewrite <- (Qplus_0_l 0). apply Qplus_le_compat; [|assumption].
    change 0%Q with (inject_Z 0). now rewrite <- Zle_Qle. }
  apply Qle_bool_iff in H. rewrite H.
  apply Qle_bool_iff in Hy. rewrite Hy.
  rewrite <- Qfloor_shift. apply Qfloor_comp. ring.
Qed.

Lemma hundredths_sum T a :
  ((Decimal.of_hundredths T + a) * 100 == inject_Z T + a * 100)%Q.
Proof. unfold Decimal.of_hundredths. field. Qed.

Lemma to_hundredths_of_hundredths z : Decimal.to_hundredths (Decimal.of_hundredths z) = z.
Proof.
  unfold Decimal.to_hundredths.
  rewrite (round_half_away_comp _ (inject_Z z)); [apply round_half_away_whole|].
  unfold Decimal.of_hundredths. field.
Qed.

Lemma to_hundredths_sum_non_negative T a :
  0 <= T -> non_negative a ->
  Decimal.to_hundredths (Decimal.of_hundredths T + a) = T + Decimal.to_hundredths a.
Proof.
  intros HT Ha. unfold Decimal.to_hundredths.
  rewrite (round_half_away_comp _ _ (hundredths_sum T a)).
  apply round_half_away_shift; [assumption|].
  unfold non_negative in Ha. rewrite <- (Qmult_0_l 100).
  apply Qmult_le_compat_r; [assumption|discriminate].
Qed.

Lemma to_hundredths_sum_whole T a :
  whole_hundredths a ->
  Decimal.to_hundredths (Decimal.of_hundredths T + a) = T + Decimal.to_hundredths a.
Proof.
  intros Ha. unfold whole_hundredths in Ha.
  set (c := Decimal.to_hundredths a) in *.
  unfold Decimal.to_hundredths at 1.
  rewrite (round_half_away_comp _ (inject_Z (T + c))); [apply round_half_away_whole|].
  rewrite <- Ha. unfold Decimal.of_hundredths. rewrite inject_Z_plus. field.
Qed.

Lemma to_hundredths_non_negative a : non_negative a -> 0 <= Decimal.to_hundredths a.
Proof.
  intros Ha. unfold Decimal.to_hundredths, Decimal.round_half_away.
  assert (H : (0 <= a * 100)%Q).
  { unfold non_negative in Ha. rewrite <- (Qmult_0_l 100).
    apply Qmult_le_compat_r; [assumption|discriminate]. }
  pose proof H as Hb. apply Qle_bool_iff in Hb. rewrite Hb.
  change 0 with (Qfloor (inject_Z 0)) at 1. apply Qfloor_resp_le.
  rewrite <- (Qplus_0_r (inject_Z 0)). apply Qplus_le_compat; [exact H|discriminate].
Qed.

(** ** The running total and the ledger *)

Lemma add_to_total_inv tp a tot :
  add_to_total tp (Some a) = inr tot ->
  tot = Some (Decimal.to_hundredths (Decimal.of_hundredths (coalesce tp 0) + a)).
Proof.
  unfold add_to_total, decimal, Decimal.coerce.
  destruct (Decimal.fits 15 _); simpl; [|discriminate].
  intros H. now inversion H.
Qed.

Lemma coerce_inv p a c : Decimal.coerce p a = Some c -> c = Decimal.to_hundredths a.
Proof.
  unfold Decimal.coerce. destruct (Decimal.fits p _); [|discriminate].
  intros H. now inversion H.
Qed.

Lemma sum_amounts_app l en : sum_amounts (l ++ [en]) = sum_amounts l + amount en.
Proof.
  induction l as [|x l IH]; simpl; [lia|]. rewrite IH. lia.
Qed.

(** A successful payment of [a] to payee [n] moves the balance from [T] to
    the rounding of [T + a], and the ledger sum by the rounding of [a]. *)
Lemma recordPayment_balance k n e b s :
  idle s ->
  succeeded (answer (recordPayment k e (Id n) b) s) = true ->
  let s' := after (recordPayment k e (Id n) b) s in
  idle s' /\
  exists a,
    PaymentBody.amount b = Value a /\
    balance k n (contents s') =
      Decimal.to_hundredths (Decimal.of_hundredths (balance k n (contents s)) + a) /\
    sum_amounts (entries_of k n (contents s')) =
      sum_amounts (entries_of k n (contents s)) + Decimal.to_hundredths a.
Proof.
  intros Hs Hok.
  destruct (recordPayment_success k e (Id n) b s Hs Hok)
    as (Hs' & n' & a & d & c & acc & acc' & Hid & Ham & _ & Hc & Hled & Hacc & Hacc' & Htot & _).
  injection Hid as <-. cbv zeta. split; [assumption|].
  exists a. split; [assumption|]. split.
  - unfold balance. rewrite Hacc, Hacc'.
    apply add_to_total_inv in Htot. now rewrite Htot.
  - unfold entries_of. rewrite Hled, filter_app. simpl.
    unfold owned_by at 2. simpl. rewrite Z.eqb_refl.
    rewrite sum_amounts_app. simpl. now rewrite (coerce_inv _ _ _ Hc).
Qed.

Lemma record_all_consistent k n calls :
  forall s,
    idle s ->
    consistent k n (contents s) ->
    (0 <= balance k n (contents s) /\ Forall (fun c => amount_is non_negative (snd c)) calls)
    \/ Forall (fun c => amount_is whole_hundredths (snd c)) calls ->
    fst (record_all k n calls s) = true ->
    consistent k n (contents (snd (record_all k n calls s))).
Proof.
  induction calls as [|[e b] calls IH]; intros s Hs Hcons Hamounts Hall; [exact Hcons|].
  simpl in Hall |- *. apply andb_prop in Hall. destruct Hall as [Hfirst Hrest].
  destruct (recordPayment_balance k n e b s Hs Hfirst) as (Hs' & a & Ham & Hbal & Hsum).
  unfold after in *.
  apply IH; try assumption.
  - unfold consistent in *. rewrite Hbal, Hsum, <- Hcons.
    destruct Hamounts as [[Hpos Hnn]|Hwhole].
    + apply to_hundredths_sum_non_negative; [assumption|].
      apply Forall_inv in Hnn. unfold amount_is in Hnn. simpl in Hnn. now rewrite Ham in Hnn.
    + apply to_hundredths_sum_whole.
      apply Forall_inv in Hwhole. unfold amount_is in Hwhole. simpl in Hwhole.
      now rewrite Ham in Hwhole.
  - destruct Hamounts as [[Hpos Hnn]|Hwhole]; [left|right].
    + split; [|now apply Forall_inv_tail in Hnn].
      rewrite Hbal.
      assert (Ha : non_negative a).
      { apply Forall_inv in Hnn. unfold amount_is in Hnn. simpl in Hnn. now rewrite Ham in Hnn. }
      rewrite to_hundredths_sum_non_negative by assumption.
      pose proof (to_hundredths_non_negative a Ha). lia.
    + now apply Forall_inv_tail in Hwhole.
Qed.

(** C2, as the code has it.  Start from a payee whose total_paid (NULL
    read as 0) equals the sum of its ledger entries, and record any
    sequence of payments to it that all succeed, one after the other:
    each call is answered before the next begins, and no other request is
    in flight.  If every amount is non-negative and the starting total is
    non-negative, or if every amount has at most two fractional digits,
    total_paid again equals the exact sum of the payee's ledger entries. *)
Theorem total_paid_is_the_ledger_sum k n calls s :
  idle s ->
  consistent k n (contents s) ->
  (0 <= balance k n (contents s) /\ Forall (fun c => amount_is non_negative (snd c)) calls)
  \/ Forall (fun c => amount_is whole_hundredths (snd c)) calls ->
  fst (record_all k n calls s) = true ->
  balance k n (contents (snd (record_all k n calls s)))
  = sum_amounts (entries_of k n (contents (snd (record_all k n calls s)))).
Proof.
  intros Hs Hcons Hamounts Hall. now apply record_all_consistent.
Qed.

Lemma total_paid_is_the_ledger_sum_witness :
  (balance a_worker 1
     (contents (snd (record_all a_worker 1
                       [(at_ 1 100, pay 500 (mkDate 2024 2 10) "advance");
                        (at_ 2 200, pay 250.5 (mkDate 2024 2 15) "balance")] site)))
   = sum_amounts
       (entries_of a_worker 1
          (contents (snd (record_all a_worker 1
                            [(at_ 1 100, pay 500 (mkDate 2024 2 10) "advance");
                             (at_ 2 200, pay 250.5 (mkDate 2024 2 15) "balance")] site))))
   /\ balance a_worker 1
        (contents (snd (record_all a_worker 1
                          [(at_ 1 100, pay 500 (mkDate 2024 2 10) "advance");
                           (at_ 2 200, pay 250.5 (mkDate 2024 2 15) "balance")] site)))
      = 75050)
  /\
  (balance a_vendor 1
     (contents (snd (record_all a_vendor 1
                       [(at_ 1 100, pay 500 (mkDate 2024 2 10) "bricks");
                        (at_ 2 200, pay 250.5 (mkDate 2024 2 15) "sand")] site)))
   = sum_amounts
       (entries_of a_vendor 1
          (contents (snd (record_all a_vendor 1
                            [(at_ 1 100, pay 500 (mkDate 2024 2 10) "bricks");
                             (at_ 2 200, pay 250.5 (mkDate 2024 2 15) "sand")] site))))
   /\ balance a_vendor 1
        (contents (snd (record_all a_vendor 1
                          [(at_ 1 100, pay 500 (mkDate 2024 2 10) "bricks");
                           (at_ 2 200, pay 250.5 (mkDate 2024 2 15) "sand")] site)))
      = 75050).
Proof.
  split; (split; [|reflexivity]).
  - apply (total_paid_is_the_ledger_sum a_worker 1
             [(at_ 1 100, pay 500 (mkDate 2024 2 10) "advance");
              (at_ 2 200, pay 250.5 (mkDate 2024 2 15) "balance")] site).
    + reflexivity.
    + reflexivity.
    + right. repeat constructor.
    + reflexivity.
  - apply (total_paid_is_the_ledger_sum a_vendor 1
             [(at_ 1 100, pay 500 (mkDate 2024 2 10) "bricks");
              (at_ 2 200, pay 250.5 (mkDate 2024 2 15) "sand")] site).
    + reflexivity.
    + reflexivity.
    + right. repeat constructor.
    + reflexivity.
Defined.

(** After payments of 1.00 and -0.005 the ledger holds 1.00 and -0.01,
    the rounding of each amount, while total_paid holds the rounding of
    0.995, which is 1.00. *)
Lemma half_hundredth_refund_breaks_the_sum :
  idle site /\
  consistent a_worker 1 (contents site) /\
  fst (record_all a_worker 1
         [(at_ 1 100, pay 1 (mkDate 2024 1 1) "fee");
          (at_ 2 200, pay (-0.005) (mkDate 2024 1 2) "refund")] site) = true /\
  balance a_worker 1
    (contents (snd (record_all a_worker 1
                      [(at_ 1 100, pay 1 (mkDate 2024 1 1) "fee");
                       (at_ 2 200, pay (-0.005) (mkDate 2024 1 2) "refund")] site))) = 100 /\
  sum_amounts
    (entries_of a_worker 1
       (contents (snd (record_all a_worker 1
                         [(at_ 1 100, pay 1 (mkDate 2024 1 1) "fee");
                          (at_ 2 200, pay (-0.005) (mkDate 2024 1 2) "refund")] site)))) = 99 /\
  ~ consistent a_worker 1
      (contents (snd (record_all a_worker 1
                        [(at_ 1 100, pay 1 (mkDate 2024 1 1) "fee");
                         (at_ 2 200, pay (-0.005) (mkDate 2024 1 2) "refund")] site))).
Proof. repeat split. intros H. vm_compute in H. discriminate H. Qed.

(** ** ORDER BY ... DESC *)

Section OrderBy.
Context {A : Type} (leb : A -> A -> bool).
Hypothesis leb_total : forall x y, leb x y = false -> leb y x = true.
Hypothesis leb_trans : forall x y z, leb x y = true -> leb y z = true -> leb x z = true.

Lemma insert_desc_permutation x l : Permutation (insert_desc leb x l) (x :: l).
Proof.
  induction l as [|y l IH]; simpl; [reflexivity|].
  destruct (leb y x); [reflexivity|].
  rewrite IH. apply perm_swap.
Qed.

Lemma order_by_desc_permutation l : Permutation (order_by_desc leb l) l.
Proof.
  induction l as [|x l IH]; simpl; [reflexivity|].
  rewrite insert_desc_permutation. now constructor.
Qed.

Lemma insert_desc_sorted x l :
  StronglySorted (fun a b => leb b a = true) l ->
  StronglySorted (fun a b => leb b a = true) (insert_desc leb x l).
Proof.
  induction 1 as [|y l Hl IH Hy]; simpl.
  - repeat constructor.
  - destruct (leb y x) eqn:Hyx.
    + constructor; [now constructor|].
      constructor; [exact Hyx|].
      rewrite Forall_forall in Hy |- *. intros z Hz.
      eapply leb_trans; [apply Hy, Hz|exact Hyx].
    + constructor; [assumption|].
      rewrite Forall_forall in Hy |- *. intros z Hz.
      apply (Permutation_in _ (insert_desc_permutation x l)) in Hz.
      destruct Hz as [<-|Hz]; [now apply leb_total|now apply Hy].
Qed.

Lemma order_by_desc_sorted l :
  StronglySorted (fun a b => leb b a = true) (order_by_desc leb l).
Proof.
  induction l as [|x l IH]; simpl; [constructor|now apply insert_desc_sorted].
Qed.
End OrderBy.

Lemma date_leb_total x y : date_leb x y = false -> date_leb y x = true.
Proof.
  unfold date_leb, date_compare.
  destruct (Z.compare_spec (year x) (year y)), (Z.compare_spec (year y) (year x));
    try discriminate; try reflexivity; try lia.
  destruct (Z.compare_spec (month x) (month y)), (Z.compare_spec (month y) (month x));
    try discriminate; try reflexivity; try lia.
  destruct (Z.compare_spec (day x) (day y)), (Z.compare_spec (day y) (day x));
    try discriminate; try reflexivity; try lia.
Qed.

Lemma date_leb_trans x y z : date_leb x y = true -> date_leb y z = true -> date_leb x z = true.
Proof.
  unfold date_leb, date_compare.
  destruct (Z.compare_spec (year x) (year y)), (Z.compare_spec (year y) (year z)),
           (Z.compare_spec (year x) (year z));
    try discriminate; try reflexivity; try lia.
  all: destruct (Z.compare_spec (month x) (month y)), (Z.compare_spec (month y) (month z)),
                (Z.compare_spec (month x) (month z));
    try discriminate; try reflexivity; try lia.
  all: destruct (Z.compare_spec (day x) (day y)), (Z.compare_spec (day y) (day z)),
                (Z.compare_spec (day x) (day z));
    try discriminate; try reflexivity; try lia.
Qed.

Lemma filter_permutation {A} (p : A -> bool) l l' :
  Permutation l l' -> Permutation (filter p l) (filter p l').
Proof.
  induction 1 as [|x l l' _ IH|x y l|l l' l'' _ IH1 _ IH2]; simpl.
  - constructor.
  - destruct (p x); [now constructor|assumption].
  - destruct (p x), (p y); try reflexivity. apply perm_swap.
  - now transitivity (filter p l').
Qed.

Lemma StronglySorted_map {A B} (f : A -> B) (R : B -> B -> Prop) l :
  StronglySorted (fun x y => R (f x) (f y)) l -> StronglySorted R (map f l).
Proof.
  induction 1 as [|x l _ IH Hx]; simpl; constructor; [assumption|].
  rewrite Forall_forall in Hx |- *. intros y Hy.
  apply in_map_iff in Hy. destruct Hy as (z & <- & Hz). now apply Hx.
Qed.

Lemma listed_worker_payments l :
  listed (res_json (rows (map worker_payment_row l))) = map entry_of_worker_payment l.
Proof. unfold listed. simpl. induction l; simpl; congruence. Qed.

Lemma listed_vendor_payments l :
  listed (res_json (rows (map vendor_payment_row l))) = map entry_of_vendor_payment l.
Proof. unfold listed. simpl. induction l; simpl; congruence. Qed.

Lemma filter_through {A B} (f : A -> B) (p : A -> bool) (q : B -> bool) l :
  (forall a, q (f a) = p a) -> filter q (map f l) = map f (filter p l).
Proof.
  intros H. induction l as [|a l IH]; simpl; [reflexivity|].
  rewrite H. destruct (p a); simpl; now rewrite IH.
Qed.

Lemma listPayments_outcome k v n s :
  are_scans v ->
  exists r,
    answer (listPayments k v (Id n)) s = inr r /\
    status r = 200 /\
    by_date_desc (listed r) /\
    Permutation (listed r) (entries_of k n (contents s)) /\
    (entries_of k n (contents s) = [] -> body r = rows []) /\
    contents (after (listPayments k v (Id n)) s) = contents s.
Proof.
  intros [Hw Hv]. destruct s as [[t sv] log].
  destruct k; simpl listPayments; eexists; (split; [reflexivity|]); (split; [reflexivity|]).
  - rewrite listed_worker_payments.
    unfold entries_of, ledger, contents. simpl.
    rewrite (filter_through entry_of_worker_payment
               (fun p => match WorkerPayment.worker_id p with
                         | Some m => m =? n
                         | None => false
                         end)) by reflexivity.
    assert (Hperm : Permutation
              (order_by_desc
                 (fun a b => date_leb (WorkerPayment.payment_date a)
                                      (WorkerPayment.payment_date b))
                 (filter (fun p => match WorkerPayment.worker_id p with
                                   | Some m => m =? n
                                   | None => false
                                   end)
                         (scan_worker_payments v (worker_payments t))))
              (filter (fun p => match WorkerPayment.worker_id p with
                                | Some m => m =? n
                                | None => false
                                end)
                      (worker_payments t))).
    { rewrite order_by_desc_permutation. apply filter_permutation, Hw. }
    split; [|split; [|split]].
    + apply StronglySorted_map.
      apply (order_by_desc_sorted
               (fun a b => date_leb (WorkerPayment.payment_date a)
                                    (WorkerPayment.payment_date b))).
      * intros x y. apply date_leb_total.
      * intros x y z. apply date_leb_trans.
    + apply Permutation_map. exact Hperm.
    + intros Hnone. apply map_eq_nil in Hnone. rewrite Hnone in Hperm.
      apply Permutation_sym, Permutation_nil in Hperm. now rewrite Hperm.
    + reflexivity.
  - rewrite listed_vendor_payments.
    unfold entries_of, ledger, contents. simpl.
    rewrite (filter_through entry_of_vendor_payment
               (fun p => match VendorPayment.vendor_id p with
                         | Some m => m =? n
                         | None => false
                         end)) by reflexivity.
    assert (Hperm : Permutation
              (order_by_desc
                 (fun a b => date_leb (VendorPayment.payment_date a)
                                      (VendorPayment.payment_date b))
                 (filter (fun p => match VendorPayment.vendor_id p with
                                   | Some m => m =? n
                                   | None => false
                                   end)
                         (scan_vendor_payments v (vendor_payments t))))
              (filter (fun p => match VendorPayment.vendor_id p with
                                | Some m => m =? n
                                | None => false
                                end)
                      (vendor_payments t))).
    { rewrite order_by_desc_permutation. apply filter_permutation, Hv. }
    split; [|split; [|split]].
    + apply StronglySorted_map.
      apply (order_by_desc_sorted
               (fun a b => date_leb (VendorPayment.payment_date a)
                                    (VendorPayment.payment_date b))).
      * intros x y. apply date_leb_total.
      * intros x y z. apply date_leb_trans.
    + apply Permutation_map. exact Hperm.
    + intros Hnone. apply map_eq_nil in Hnone. rewrite Hnone in Hperm.
      apply Permutation_sym, Permutation_nil in Hperm. now rewrite Hperm.
    + reflexivity.
Qed.

Lemma in_insertion_order_are_scans : are_scans in_insertion_order.
Proof. split; intros l; apply Permutation_refl. Qed.

Lemma int4_1 : int4 1.
Proof. unfold int4. lia. Qed.

Ltac fits :=
  unfold fits_columns, id_fits, sequence_fits, integers_fit, texts_fit, holds, int4, varchar;
  simpl; repeat split; solve [exact I | lia].

(** C6, as the code has it.  Listing the payments of a payee, for an id
    within INTEGER, answers status 200 with exactly that payee's entries,
    ordered by payment date descending, and with an empty list when the
    payee has none; the tables are not changed.  The order among entries
    of one date is whatever order the store met them in. *)
Theorem listPayments_by_date_desc k v n s :
  are_scans v ->
  int4 n ->
  exists r,
    answer (listPayments k v (Id n)) s = inr r /\
    status r = 200 /\
    by_date_desc (listed r) /\
    Permutation (listed r) (entries_of k n (contents s)) /\
    (entries_of k n (contents s) = [] -> body r = rows []) /\
    contents (after (listPayments k v (Id n)) s) = contents s.
Proof. intros Hv _. now apply listPayments_outcome. Qed.

Lemma listPayments_by_date_desc_witness :
  (exists r,
      answer (listPayments a_worker in_insertion_order (Id 1)) same_day = inr r /\
      status r = 200 /\
      by_date_desc (listed r) /\
      map entry_id (listed r) = [1; 2]) /\
  (exists r,
      answer (listPayments a_vendor in_insertion_order (Id 1)) same_day = inr r /\
      status r = 200 /\
      listed r = []).
Proof.
  split.
  - destruct (listPayments_by_date_desc a_worker in_insertion_order 1 same_day
                (conj (fun l => Permutation_refl l) (fun l => Permutation_refl l)) int4_1)
      as (r & Hanswer & Hstatus & Hsorted & _).
    exists r. repeat split; try assumption.
    injection Hanswer as <-. reflexivity.
  - destruct (listPayments_by_date_desc a_vendor in_insertion_order 1 same_day
                (conj (fun l => Permutation_refl l) (fun l => Permutation_refl l)) int4_1)
      as (r & Hanswer & Hstatus & _ & Hperm & _).
    exists r. repeat split; try assumption.
    apply Permutation_sym, Permutation_nil in Hperm. exact Hperm.
Defined.

(** Two payments of one date, met in insertion order, are listed in
    insertion order: the older one first. *)
Lemma same_day_payments_are_listed_oldest_first :
  are_scans in_insertion_order /\
  exists r,
    answer (listPayments a_worker in_insertion_order (Id 1)) same_day = inr r /\
    map entry_id (listed r) = [1; 2] /\
    map payment_date (listed r) = [mkDate 2024 2 10; mkDate 2024 2 10] /\
    map created_at (listed r) = [100; 200] /\
    ~ newest_first_on_ties (listed r).
Proof.
  split; [apply in_insertion_order_are_scans|].
  eexists. split; [reflexivity|]. repeat split.
  intros Hsorted. vm_compute in Hsorted.
  inversion Hsorted as [|x l _ Hfirst]; subst.
  inversion Hfirst as [|y l' Hlt _]; subst.
  specialize (Hlt eq_refl). discriminate Hlt.
Qed.

(** Met in the reverse order, the same two payments are listed the newer
    one first: the order among entries of one date is the scan's. *)
Example same_day_payments_can_be_listed_newest_first :
  are_scans in_reverse_order /\
  exists r,
    answer (listPayments a_worker in_reverse_order (Id 1)) same_day = inr r /\
    map entry_id (listed r) = [2; 1].
Proof.
  split.
  - split; intros l; apply Permutation_sym, Permutation_rev.
  - eexists. split; reflexivity.
Qed.

(** ** Deleting a payee *)

Lemma filter_none {A} (p : A -> bool) l :
  (forall x, In x l -> p x = false) -> filter p l = [].
Proof.
  induction l as [|x l IH]; simpl; intros H; [reflexivity|].
  rewrite (H x) by now left. apply IH. intros y Hy. apply H. now right.
Qed.

Lemma existsb_filter_same {A} (p : A -> bool) l :
  existsb p (filter p l) = existsb p l.
Proof.
  induction l as [|x l IH]; simpl; [reflexivity|].
  destruct (p x) eqn:Hx; simpl; [now rewrite Hx|assumption].
Qed.

Lemma existsb_delete_where {A} (p : A -> bool) l :
  existsb p (delete_where p l) = false.
Proof.
  unfold delete_where. induction l as [|x l IH]; simpl; [reflexivity|].
  destruct (p x) eqn:Hx; simpl; [assumption|now rewrite Hx].
Qed.




(** ** What a payment route touches *)

Ltac innermost x k :=
  lazymatch x with
  | context [match ?y with _ => _ end] => innermost y k
  | _ => k x
  end.

Ltac step H :=
  match type of H with
  | context [match ?x with _ => _ end] =>
      innermost x ltac:(fun y => destruct y eqn:?; simpl in H; try discriminate H)
  end.

Ltac run_statement H :=
  rewrite effect_on_tables in H;
  unfold insert_row, foreign_key, decimal, bound, bound_id, not_null, and_then, ok, raise in H;
  simpl in H; repeat step H.

Lemma INSERT_INTO_worker_payments_inv e id am pd ds t out t1 :
  effect (INSERT_INTO_worker_payments e id am pd ds) t = inr (out, t1) ->
  exists n row,
    id = Id n /\ WorkerPayment.worker_id row = Some n /\
    t1 = with_worker_payments (worker_payments t ++ [row]) t.
Proof.
  unfold INSERT_INTO_worker_payments. intros H. run_statement H.
  all: inversion H; subst; do 2 eexists; repeat split; reflexivity.
Qed.

Lemma INSERT_INTO_vendor_payments_inv e id am pd ds t out t1 :
  effect (INSERT_INTO_vendor_payments e id am pd ds) t = inr (out, t1) ->
  exists n row,
    id = Id n /\ VendorPayment.vendor_id row = Some n /\
    t1 = with_vendor_payments (vendor_payments t ++ [row]) t.
Proof.
  unfold INSERT_INTO_vendor_payments. intros H. run_statement H.
  all: inversion H; subst; do 2 eexists; repeat split; reflexivity.
Qed.

Lemma UPDATE_workers_total_paid_inv am pd n t u t2 :
  effect (UPDATE_workers_total_paid am pd (Id n)) t = inr (u, t2) ->
  exists amount payment_date ws,
    update_where (fun w => Worker.id w =? n) (set_worker_aggregate amount payment_date)
                 (workers t) = inr ws /\
    t2 = with_workers ws t.
Proof.
  unfold UPDATE_workers_total_paid. intros H. run_statement H.
  all: inversion H; subst; do 3 eexists; split; [eassumption|reflexivity].
Qed.

Lemma UPDATE_vendors_total_paid_inv am pd n t u t2 :
  effect (UPDATE_vendors_total_paid am pd (Id n)) t = inr (u, t2) ->
  exists amount payment_date vs,
    update_where (fun v => Vendor.id v =? n) (set_vendor_aggregate amount payment_date)
                 (vendors t) = inr vs /\
    t2 = with_vendors vs t.
Proof.
  unfold UPDATE_vendors_total_paid. intros H. run_statement H.
  all: inversion H; subst; do 3 eexists; split; [eassumption|reflexivity].
Qed.

Lemma set_worker_aggregate_details amount payment_date n l l' :
  update_where (fun w => Worker.id w =? n) (set_worker_aggregate amount payment_date) l
  = inr l' ->
  Forall2 (fun w w' => worker_details w' = worker_details w /\ (Worker.id w <> n -> w' = w))
          l l'.
Proof.
  intros H. apply update_where_Forall2 in H.
  induction H as [|w w' l l' Hw _ IH]; constructor; [|assumption].
  destruct (Worker.id w =? n) eqn:Hid.
  - unfold set_worker_aggregate in Hw.
    destruct (add_to_total _ _); simpl in Hw; [discriminate|].
    inversion Hw; subst. split; [reflexivity|].
    apply Z.eqb_eq in Hid. congruence.
  - subst w'. auto.
Qed.

Lemma set_vendor_aggregate_details amount payment_date n l l' :
  update_where (fun v => Vendor.id v =? n) (set_vendor_aggregate amount payment_date) l
  = inr l' ->
  Forall2 (fun v v' => vendor_details v' = vendor_details v /\ (Vendor.id v <> n -> v' = v))
          l l'.
Proof.
  intros H. apply update_where_Forall2 in H.
  induction H as [|w w' l l' Hw _ IH]; constructor; [|assumption].
  destruct (Vendor.id w =? n) eqn:Hid.
  - unfold set_vendor_aggregate in Hw.
    destruct (add_to_total _ _); simpl in Hw; [discriminate|].
    inversion Hw; subst. split; [reflexivity|].
    apply Z.eqb_eq in Hid. congruence.
  - subst w'. auto.
Qed.

Lemma post_worker_payments_frame e id b s :
  idle s ->
  succeeded (answer (post_worker_payments e id b) s) = true ->
  let t := contents s in
  let t' := contents (after (post_worker_payments e id b) s) in
  exists n row,
    id = Id n /\ WorkerPayment.worker_id row = Some n /\
    worker_payments t' = worker_payments t ++ [row] /\
    Forall2 (fun w w' => worker_details w' = worker_details w /\ (Worker.id w <> n -> w' = w))
            (workers t) (workers t') /\
    vendors t' = vendors t /\ vendor_payments t' = vendor_payments t /\
    projects t' = projects t /\ inventory t' = inventory t.
Proof.
  intros Hs. unfold after, answer.
  rewrite post_worker_payments_transaction.
  rewrite transaction_outcome by (try apply on_tables_effect; exact Hs).
  destruct (effect (INSERT_INTO_worker_payments _ _ _ _ _) _) as [err|[out t1]] eqn:Hins;
    simpl; [discriminate|].
  apply INSERT_INTO_worker_payments_inv in Hins.
  destruct Hins as (n & row & -> & Hrow & ->).
  destruct (effect (UPDATE_workers_total_paid _ _ _) _) as [err|[u t2]] eqn:Hupd;
    simpl; [discriminate|].
  apply UPDATE_workers_total_paid_inv in Hupd.
  destruct Hupd as (amount & payment_date & ws & Hws & ->).
  intros _. exists n, row. simpl in *. repeat split; try assumption.
  now apply set_worker_aggregate_details in Hws.
Qed.

Lemma post_vendor_payments_frame e id b s :
  idle s ->
  succeeded (answer (post_vendor_payments e id b) s) = true ->
  let t := contents s in
  let t' := contents (after (post_vendor_payments e id b) s) in
  exists n row,
    id = Id n /\ VendorPayment.vendor_id row = Some n /\
    vendor_payments t' = vendor_payments t ++ [row] /\
    Forall2 (fun v v' => vendor_details v' = vendor_details v /\ (Vendor.id v <> n -> v' = v))
            (vendors t) (vendors t') /\
    workers t' = workers t /\ worker_payments t' = worker_payments t /\
    projects t' = projects t /\ inventory t' = inventory t.
Proof.
  intros Hs. unfold after, answer.
  rewrite post_vendor_payments_transaction.
  rewrite transaction_outcome by (try apply on_tables_effect; exact Hs).
  destruct (effect (INSERT_INTO_vendor_payments _ _ _ _ _) _) as [err|[out t1]] eqn:Hins;
    simpl; [discriminate|].
  apply INSERT_INTO_vendor_payments_inv in Hins.
  destruct Hins as (n & row & -> & Hrow & ->).
  destruct (effect (UPDATE_vendors_total_paid _ _ _) _) as [err|[u t2]] eqn:Hupd;
    simpl; [discriminate|].
  apply UPDATE_vendors_total_paid_inv in Hupd.
  destruct Hupd as (amount & payment_date & vs & Hvs & ->).
  intros _. exists n, row. simpl in *. repeat split; try assumption.
  now apply set_vendor_aggregate_details in Hvs.
Qed.

(** Served alone, a successful payment to payee [n] appends one row, owned
    by [n], to the ledger table of its kind and keeps every row that was
    there;
    in the payee table every row keeps its id, name, role or category,
    contact, hourly_rate or rating and created_at, and every row of
    another payee is unchanged; the tables of the other kind, projects and
    inventory are unchanged.  (Not so for requests in flight together:
    [a_payment_answered_200_can_leave_no_entry].) *)
Theorem recordPayment_alone_changes_only_its_payee e id b s :
  idle s ->
  (succeeded (answer (post_worker_payments e id b) s) = true ->
   let t := contents s in
   let t' := contents (after (post_worker_payments e id b) s) in
   exists n row,
     id = Id n /\ WorkerPayment.worker_id row = Some n /\
     worker_payments t' = worker_payments t ++ [row] /\
     Forall2 (fun w w' => worker_details w' = worker_details w /\ (Worker.id w <> n -> w' = w))
             (workers t) (workers t') /\
     vendors t' = vendors t /\ vendor_payments t' = vendor_payments t /\
     projects t' = projects t /\ inventory t' = inventory t)
  /\
  (succeeded (answer (post_vendor_payments e id b) s) = true ->
   let t := contents s in
   let t' := contents (after (post_vendor_payments e id b) s) in
   exists n row,
     id = Id n /\ VendorPayment.vendor_id row = Some n /\
     vendor_payments t' = vendor_payments t ++ [row] /\
     Forall2 (fun v v' => vendor_details v' = vendor_details v /\ (Vendor.id v <> n -> v' = v))
             (vendors t) (vendors t') /\
     workers t' = workers t /\ worker_payments t' = worker_payments t /\
     projects t' = projects t /\ inventory t' = inventory t).
Proof.
  intros Hs. split.
  - now apply post_worker_payments_frame.
  - now apply post_vendor_payments_frame.
Qed.

Lemma recordPayment_alone_changes_only_its_payee_witness :
  vendors (contents (after (post_worker_payments (at_ 1 100) (Id 1)
                              (pay 500 (mkDate 2024 2 10) "advance")) site))
  = vendors (contents site) /\
  workers (contents (after (post_vendor_payments (at_ 1 100) (Id 1)
                              (pay 500 (mkDate 2024 2 10) "bricks")) site))
  = workers (contents site).
Proof.
  destruct (proj1 (recordPayment_alone_changes_only_its_payee (at_ 1 100) (Id 1)
                     (pay 500 (mkDate 2024 2 10) "advance") site eq_refl) eq_refl)
    as (n & row & _ & _ & _ & _ & Hvendors & _).
  destruct (proj2 (recordPayment_alone_changes_only_its_payee (at_ 1 100) (Id 1)
                     (pay 500 (mkDate 2024 2 10) "bricks") site eq_refl) eq_refl)
    as (m & row' & _ & _ & _ & _ & Hworkers & _).
  split; assumption.
Defined.

(** ** Requests in flight together *)

Lemma closed_idle st : saved st = None -> closed st = st.
Proof. unfold closed. now intros ->. Qed.

(** Served with no other request in flight, and with no transaction open
    when it begins, the script of a payment route does what the route
    does: the same answer, the same tables, the same statements. *)
Lemma transaction_script_alone {A} (q1 : statement A) (q2 : statement unit) finish s :
  on_tables_only q1 -> on_tables_only q2 -> idle s ->
  overlap [0; 0; 0; 0]%nat [transaction_script q1 q2 finish] s
  = ([Answered (fst (transaction q1 q2 finish s))], snd (transaction q1 q2 finish s)).
Proof.
  intros H1 H2 Hs. rewrite (transaction_outcome q1 q2 finish s H1 H2 Hs).
  destruct s as [[t sv] log]. unfold idle, contents in *. simpl in Hs. subst sv.
  unfold overlap, transaction_script, step, dispatch, pool_query. simpl.
  rewrite !H1. unfold on_tables. simpl.
  destruct (effect q1 t) as [err|[x t1]]; simpl.
  - rewrite <- !app_assoc. reflexivity.
  - rewrite !H2. unfold on_tables. simpl.
    destruct (effect q2 t1) as [err|[u t2]]; simpl; rewrite <- !app_assoc; reflexivity.
Qed.

Lemma recordPayment_script_alone k e id b s :
  idle s ->
  overlap [0; 0; 0; 0]%nat [recordPayment_script k e id b] s
  = ([Answered (answer (recordPayment k e id b) s)], after (recordPayment k e id b) s).
Proof.
  intros Hs. unfold answer, after.
  destruct k; simpl recordPayment;
    [rewrite post_worker_payments_transaction|rewrite post_vendor_payments_transaction];
    apply transaction_script_alone; try apply on_tables_effect; exact Hs.
Qed.

(** C1.  The payment routes are not all-or-nothing once requests overlap.
    Each of BEGIN, INSERT, UPDATE, COMMIT and ROLLBACK goes through
    [pool.query], so the COMMIT of one request ends the transaction the
    statements of another request are running in.  Two payments in flight
    together, for a worker or for a vendor: the first is answered 200; its
    COMMIT also commits the INSERT of the second, whose UPDATE then runs
    on its own and is refused (the total would pass DECIMAL(15,2)).  The
    second request is answered 500, its ROLLBACK finds nothing to undo,
    and its ledger entry stays while the total of its payee is what it
    was. *)
Theorem overlapping_payment_keeps_its_entry_without_the_update k :
  let run := overlap [0; 0; 1; 0; 1; 0; 1; 1]%nat [pays_1 k; pays_2 k] two_payees in
  option_map answered (nth_error (fst run) 1)
  = Some (Some (inr (res_status_500 numeric_value_out_of_range))) /\
  entries_of k 2 (contents (snd run))
  = [mkEntry 2 (Some 2) 1 (mkDate 2024 3 1) (Some "bonus"%string) 200] /\
  entries_of k 2 (contents two_payees) = [] /\
  account_of k 2 (contents (snd run)) = account_of k 2 (contents two_payees) /\
  idle (snd run) /\
  issued (snd run)
  = [Begin; Insert (ledger_relation k); Begin; Update (payee_relation k);
     Insert (ledger_relation k); Commit; Update (payee_relation k); Rollback].
Proof. destruct k; vm_compute; repeat split; reflexivity. Qed.

(** C10.  A payment answered 200 need not have appended anything once
    requests overlap.  A payment to payee 1 has sent BEGIN, INSERT and
    UPDATE when a payment to a payee that does not exist is refused by the
    FOREIGN KEY on the same connection: the failure closes the connection
    and the transaction with the first payment's row and total is rolled
    back.  The COMMIT of the first payment then finds no transaction, and
    the route answers 200 with the entry: the tables are what they were
    before the two requests, with no entry and no change to the payee. *)
Theorem a_payment_answered_200_can_leave_no_entry k :
  let run := overlap [0; 0; 0; 1; 1; 0; 1]%nat [pays_1 k; pays_9 k] two_payees in
  (exists r,
      option_map answered (nth_error (fst run) 0) = Some (Some (inr r)) /\
      status r = 200 /\
      created_entry r
      = Some (mkEntry 1 (Some 1) 1000 (mkDate 2024 3 1) (Some "wages"%string) 100)) /\
  option_map answered (nth_error (fst run) 1)
  = Some (Some (inr (res_status_500 foreign_key_violation))) /\
  contents (snd run) = contents two_payees /\
  entries_of k 1 (contents (snd run)) = [] /\
  idle (snd run).
Proof.
  destruct k; vm_compute; (split; [eexists; repeat split; reflexivity|]);
    repeat split; reflexivity.
Qed.

(** ** Every route and the ledger tables *)

Lemma single_statement_outcome {A} (q : statement A) (finish : A -> response) s :
  on_tables_only q ->
  try_catch (x <- pool_query q ;; pure (finish x)) (fun err => pure (res_status_500 err)) s
  = match effect q (contents s) with
    | inl err => (inr (res_status_500 err), mkSession (backend s) (issued s ++ [text q]))
    | inr (x, t') =>
        (inr (finish x), mkSession (mkStore t' (saved (backend s))) (issued s ++ [text q]))
    end.
Proof.
  intros Hq. destruct s as [[t sv] log]. unfold try_catch, bind, pool_query, contents. simpl.
  rewrite Hq. unfold on_tables. simpl.
  destruct (effect q t) as [err|[x t']]; reflexivity.
Qed.

Lemma filter_all {A} (p : A -> bool) l :
  (forall x, In x l -> p x = true) -> filter p l = l.
Proof.
  induction l as [|x l IH]; simpl; intros H; [reflexivity|].
  rewrite (H x) by now left. f_equal. apply IH. intros y Hy. apply H. now right.
Qed.

Lemma cascade_worker_payments n ws wps :
  delete_where
    (fun p => references Worker.id (filter (fun w => Worker.id w =? n) ws)
                         (WorkerPayment.worker_id p)) wps
  = if existsb (fun w => Worker.id w =? n) ws
    then filter (fun p => negb (owned_by n (entry_of_worker_payment p))) wps
    else wps.
Proof.
  unfold delete_where.
  destruct (existsb _ ws) eqn:Hex.
  - apply filter_ext. intros p. unfold references, owned_by. simpl.
    destruct (WorkerPayment.worker_id p) as [m|]; [|reflexivity].
    destruct (m =? n) eqn:Hm.
    + apply Z.eqb_eq in Hm. subst m. now rewrite existsb_filter_same, Hex.
    + f_equal. apply not_true_is_false. intros H. apply existsb_exists in H.
      destruct H as (w & Hw & Hwm). apply filter_In in Hw. destruct Hw as [_ Hwn].
      apply Z.eqb_eq in Hwm, Hwn. apply Z.eqb_neq in Hm. congruence.
  - apply filter_all. intros p _. unfold references.
    destruct (WorkerPayment.worker_id p) as [m|]; [|reflexivity].
    apply negb_true_iff, not_true_is_false. intros H. apply existsb_exists in H.
    destruct H as (w & Hw & _). apply filter_In in Hw. destruct Hw as [Hw Hwn].
    assert (existsb (fun w => Worker.id w =? n) ws = true)
      by (apply existsb_exists; eauto).
    congruence.
Qed.

Lemma cascade_vendor_payments n vs vps :
  delete_where
    (fun p => references Vendor.id (filter (fun v => Vendor.id v =? n) vs)
                         (VendorPayment.vendor_id p)) vps
  = if existsb (fun v => Vendor.id v =? n) vs
    then filter (fun p => negb (owned_by n (entry_of_vendor_payment p))) vps
    else vps.
Proof.
  unfold delete_where.
  destruct (existsb _ vs) eqn:Hex.
  - apply filter_ext. intros p. unfold references, owned_by. simpl.
    destruct (VendorPayment.vendor_id p) as [m|]; [|reflexivity].
    destruct (m =? n) eqn:Hm.
    + apply Z.eqb_eq in Hm. subst m. now rewrite existsb_filter_same, Hex.
    + f_equal. apply not_true_is_false. intros H. apply existsb_exists in H.
      destruct H as (w & Hw & Hwm). apply filter_In in Hw. destruct Hw as [_ Hwn].
      apply Z.eqb_eq in Hwm, Hwn. apply Z.eqb_neq in Hm. congruence.
  - apply filter_all. intros p _. unfold references.
    destruct (VendorPayment.vendor_id p) as [m|]; [|reflexivity].
    apply negb_true_iff, not_true_is_false. intros H. apply existsb_exists in H.
    destruct H as (w & Hw & _). apply filter_In in Hw. destruct Hw as [Hw Hwn].
    assert (existsb (fun v => Vendor.id v =? n) vs = true)
      by (apply existsb_exists; eauto).
    congruence.
Qed.

Ltac unfold_statements H :=
  unfold SELECT_projects, INSERT_INTO_projects, UPDATE_projects, DELETE_FROM_projects,
         SELECT_workers, INSERT_INTO_workers, UPDATE_workers,
         SELECT_vendors, INSERT_INTO_vendors, UPDATE_vendors,
         SELECT_inventory, INSERT_INTO_inventory, UPDATE_inventory, DELETE_FROM_inventory,
         SELECT_worker_payments, SELECT_vendor_payments in H.

Ltac ledgers_untouched :=
  rewrite single_statement_outcome by apply on_tables_effect;
  match goal with
  | |- context [effect ?q ?t] =>
      let H := fresh "H" in
      destruct (effect q t) as [?err|[?x ?t']] eqn:H; simpl;
      [ reflexivity
      | unfold_statements H; rewrite effect_on_tables in H;
        unfold insert_row, decimal, bound, bound_id, not_null, and_then, ok, raise,
               set_project_fields, set_worker_fields, set_vendor_fields,
               set_inventory_fields in H;
        simpl in H; repeat step H; inversion H; subst; reflexivity ]
  end.

Lemma other_routes_keep_the_ledgers req s :
  match req with
  | POST_worker_payments _ _ _ | POST_vendor_payments _ _ _
  | DELETE_workers _ | DELETE_vendors _ => True
  | _ => ledgers (contents (after (app req) s)) = ledgers (contents s)
  end.
Proof.
  destruct req; try exact I; unfold after, app, contents, ledgers.
  - reflexivity.
  - unfold get_projects. ledgers_untouched.
  - unfold post_projects. ledgers_untouched.
  - unfold put_projects. ledgers_untouched.
  - unfold delete_projects. ledgers_untouched.
  - unfold get_workers. ledgers_untouched.
  - unfold post_workers. ledgers_untouched.
  - unfold put_workers. ledgers_untouched.
  - unfold get_worker_payments. ledgers_untouched.
  - unfold get_vendors. ledgers_untouched.
  - unfold post_vendors. ledgers_untouched.
  - unfold put_vendors. ledgers_untouched.
  - unfold get_vendor_payments. ledgers_untouched.
  - unfold get_inventory. ledgers_untouched.
  - unfold post_inventory. ledgers_untouched.
  - unfold put_inventory. ledgers_untouched.
  - unfold delete_inventory. ledgers_untouched.
  - destruct s as [[t sv] log]. reflexivity.
Qed.

Lemma recordPayment_failure k e id b s :
  idle s ->
  succeeded (answer (recordPayment k e id b) s) = false ->
  contents (after (recordPayment k e id b) s) = contents s.
Proof.
  intros Hs. unfold after, answer.
  destruct (recordPayment_outcome k e id b s Hs)
    as (r & s' & Hrun & _ & [(n & a & d & c & _ & _ & _ & _ & _ & Hok)|(err & _ & Hsame & _)]);
    rewrite Hrun; simpl.
  - cbv zeta in Hok. destruct Hok as (Hst & _). rewrite Hst. discriminate.
  - intros _. exact Hsame.
Qed.

(** C8.  No route rewrites a ledger row.  After any request, each ledger
    table is what it was, or what it was with one row appended by the
    payment route of its kind, or what it was without the rows owned by the
    payee that the deletion route of its kind removed. *)
Theorem ledger_rows_are_only_inserted_or_cascaded req s :
  idle s ->
  let t := contents s in
  let t' := contents (after (app req) s) in
  (worker_payments t' = worker_payments t
   \/ (exists e id b row,
         req = POST_worker_payments e id b /\
         worker_payments t' = worker_payments t ++ [row])
   \/ (exists n,
         req = DELETE_workers (Id n) /\
         worker_payments t'
         = filter (fun p => negb (owned_by n (entry_of_worker_payment p)))
                  (worker_payments t)))
  /\
  (vendor_payments t' = vendor_payments t
   \/ (exists e id b row,
         req = POST_vendor_payments e id b /\
         vendor_payments t' = vendor_payments t ++ [row])
   \/ (exists n,
         req = DELETE_vendors (Id n) /\
         vendor_payments t'
         = filter (fun p => negb (owned_by n (entry_of_vendor_payment p)))
                  (vendor_payments t))).
Proof.
  intros Hs t t'. subst t t'.
  pose proof (other_routes_keep_the_ledgers req s) as Hother.
  destruct req as [ | visit | e b | id b | id | visit | e b | id b | id | visit id | e id b
                  | visit | e b | id b | id | visit id | e id b | visit | e b | id b | id | ];
    try (cbv beta iota in Hother; split; left;
         [exact (f_equal fst Hother)|exact (f_equal snd Hother)]).
  - (* DELETE /api/workers/:id *)
    destruct s as [[t sv] log]. destruct id as [|n]; unfold after, contents; simpl.
    + split; left; reflexivity.
    + rewrite cascade_worker_payments.
      split; [|left; reflexivity].
      destruct (existsb _ (workers t)); [|left; reflexivity].
      right. right. exists n. split; reflexivity.
  - (* POST /api/workers/:id/payments *)
    simpl app.
    destruct (succeeded (answer (post_worker_payments e id b) s)) eqn:Hok.
    + destruct (post_worker_payments_frame e id b s Hs Hok)
        as (n & row & _ & _ & Hw & _ & _ & Hv & _).
      split; [|left; exact Hv].
      right. left. exists e, id, b, row. split; [reflexivity|exact Hw].
    + pose proof (recordPayment_failure a_worker e id b s Hs Hok) as Hsame.
      simpl recordPayment in Hsame. rewrite Hsame. split; left; reflexivity.
  - (* DELETE /api/vendors/:id *)
    destruct s as [[t sv] log]. destruct id as [|n]; unfold after, contents; simpl.
    + split; left; reflexivity.
    + rewrite cascade_vendor_payments.
      split; [left; reflexivity|].
      destruct (existsb _ (vendors t)); [|left; reflexivity].
      right. right. exists n. split; reflexivity.
  - (* POST /api/vendors/:id/payments *)
    simpl app.
    destruct (succeeded (answer (post_vendor_payments e id b) s)) eqn:Hok.
    + destruct (post_vendor_payments_frame e id b s Hs Hok)
        as (n & row & _ & _ & Hv & _ & _ & Hw & _).
      split; [left; exact Hw|].
      right. left. exists e, id, b, row. split; [reflexivity|exact Hv].
    + pose proof (recordPayment_failure a_vendor e id b s Hs Hok) as Hsame.
      simpl recordPayment in Hsame. rewrite Hsame. split; left; reflexivity.
Qed.

Lemma ledger_rows_are_only_inserted_or_cascaded_witness :
  worker_payments (contents (after (app (DELETE_workers (Id 1))) same_day)) = [] /\
  vendor_payments (contents (after (app (DELETE_workers (Id 1))) same_day))
  = vendor_payments (contents same_day).
Proof.
  destruct (ledger_rows_are_only_inserted_or_cascaded (DELETE_workers (Id 1)) same_day
              eq_refl) as [_ Hv].
  split; [reflexivity|].
  destruct Hv as [Hv|[(e & id & b & row & Hreq & _)|(n & Hreq & _)]];
    [exact Hv|discriminate Hreq|discriminate Hreq].
Defined.

(** ** The two payment routes are one coordinator *)

Lemma sent_app (r : route) s l : issued (after r s) = issued s ++ l -> sent r s = l.
Proof.
  intros H. unfold sent. rewrite H.
  rewrite skipn_app, skipn_all, Nat.sub_diag. reflexivity.
Qed.

Lemma recordPayment_observed k e id b s :
  idle s ->
  exists r committed,
    answer (recordPayment k e id b) s = inr r /\
    (outline r, observe k (contents (after (recordPayment k e id b) s)))
    = coordinator e id b (observe k (contents s)) /\
    committed = (status r =? 200) /\
    sent (recordPayment k e id b) s
    = statements_of k committed
        (committed || reaches_update e id b (observe k (contents s))).
Proof.
  intros Hs. unfold answer.
  destruct (recordPayment_refines k e id b s Hs) as (r & s' & Hrun & _ & Hco & Hlog).
  exists r, (status r =? 200). split; [now rewrite Hrun|].
  split; [unfold after; now rewrite Hrun|]. split; [reflexivity|].
  apply sent_app. unfold after. rewrite Hrun. simpl.
  destruct Hlog as [[Hst Hlog]|(Hst & _ & Hlog)]; rewrite Hst, Hlog; reflexivity.
Qed.

(** C9.  The worker and the vendor payment routes are the same function up
    to the renaming of workers/worker_payments into vendors/vendor_payments:
    run on sessions whose accounts and ledgers of the respective kinds
    agree, with the same id, body and environment, they answer with the
    same status, entry and failure, leave accounts and ledgers that agree
    again, and send the same statements on their respective tables; both
    are [coordinator] on the view of their kind. *)
Theorem worker_and_vendor_payments_are_one_coordinator e id b sw sv :
  idle sw -> idle sv ->
  observe a_worker (contents sw) = observe a_vendor (contents sv) ->
  exists rw rv committed reached,
    answer (post_worker_payments e id b) sw = inr rw /\
    answer (post_vendor_payments e id b) sv = inr rv /\
    outline rw = outline rv /\
    observe a_worker (contents (after (post_worker_payments e id b) sw))
    = observe a_vendor (contents (after (post_vendor_payments e id b) sv)) /\
    (outline rw, observe a_worker (contents (after (post_worker_payments e id b) sw)))
    = coordinator e id b (observe a_worker (contents sw)) /\
    sent (post_worker_payments e id b) sw = statements_of a_worker committed reached /\
    sent (post_vendor_payments e id b) sv = statements_of a_vendor committed reached.
Proof.
  intros Hw Hv Hsame.
  destruct (recordPayment_observed a_worker e id b sw Hw) as (rw & cw & Haw & Hcw & Hw1 & Hw2).
  destruct (recordPayment_observed a_vendor e id b sv Hv) as (rv & cv & Hav & Hcv & Hv1 & Hv2).
  simpl recordPayment in *.
  rewrite <- Hsame in Hcv, Hv2.
  assert (Heq : (outline rw, observe a_worker (contents (after (post_worker_payments e id b) sw)))
                = (outline rv, observe a_vendor (contents (after (post_vendor_payments e id b) sv))))
    by congruence.
  pose proof (f_equal fst Heq) as Hout. pose proof (f_equal snd Heq) as Hobs.
  simpl in Hout, Hobs.
  assert (Hc : cw = cv).
  { subst cw cv. now rewrite (f_equal (fun o => fst (fst o)) Hout : status rw = status rv). }
  exists rw, rv, cw, (cw || reaches_update e id b (observe a_worker (contents sw))).
  repeat split; try assumption. now rewrite Hc.
Qed.

Lemma worker_and_vendor_payments_are_one_coordinator_witness :
  exists rw rv,
    answer (post_worker_payments (at_ 1 100) (Id 1) (pay 500 (mkDate 2024 2 10) "advance"))
           site = inr rw /\
    answer (post_vendor_payments (at_ 1 100) (Id 1) (pay 500 (mkDate 2024 2 10) "advance"))
           site = inr rv /\
    outline rw = outline rv.
Proof.
  destruct (worker_and_vendor_payments_are_one_coordinator (at_ 1 100) (Id 1)
              (pay 500 (mkDate 2024 2 10) "advance") site site eq_refl eq_refl eq_refl)
    as (rw & rv & _ & _ & Hw & Hv & Hout & _).
  exists rw, rv. repeat split; assumption.
Defined.

(** ** Sessions between requests *)

Ltac answers_and_stays_idle Hs :=
  rewrite single_statement_outcome by apply on_tables_effect;
  match goal with
  | |- context [effect ?q ?t] =>
      destruct (effect q t) as [?err|[?x ?t']]; simpl; (split; [exact Hs|eexists; reflexivity])
  end.

(** Every route answers, and leaves no transaction open. *)
Lemma app_answers_and_stays_idle req s :
  idle s ->
  idle (after (app req) s) /\ exists r, answer (app req) s = inr r.
Proof.
  intros Hs.
  destruct req as [ | visit | e b | id b | id | visit | e b | id b | id | visit id | e id b
                  | visit | e b | id b | id | visit id | e id b | visit | e b | id b | id | ];
    unfold after, answer, app, idle in *.
  - split; [exact Hs|eexists; reflexivity].
  - unfold get_projects. answers_and_stays_idle Hs.
  - unfold post_projects. answers_and_stays_idle Hs.
  - unfold put_projects. answers_and_stays_idle Hs.
  - unfold delete_projects. answers_and_stays_idle Hs.
  - unfold get_workers. answers_and_stays_idle Hs.
  - unfold post_workers. answers_and_stays_idle Hs.
  - unfold put_workers. answers_and_stays_idle Hs.
  - unfold delete_workers. answers_and_stays_idle Hs.
  - unfold get_worker_payments. answers_and_stays_idle Hs.
  - destruct (recordPayment_outcome a_worker e id b s Hs) as (r & s' & Hrun & Hidle & _).
    simpl in Hrun. rewrite Hrun. split; [exact Hidle|eexists; reflexivity].
  - unfold get_vendors. answers_and_stays_idle Hs.
  - unfold post_vendors. answers_and_stays_idle Hs.
  - unfold put_vendors. answers_and_stays_idle Hs.
  - unfold delete_vendors. answers_and_stays_idle Hs.
  - unfold get_vendor_payments. answers_and_stays_idle Hs.
  - destruct (recordPayment_outcome a_vendor e id b s Hs) as (r & s' & Hrun & Hidle & _).
    simpl in Hrun. rewrite Hrun. split; [exact Hidle|eexists; reflexivity].
  - unfold get_inventory. answers_and_stays_idle Hs.
  - unfold post_inventory. answers_and_stays_idle Hs.
  - unfold put_inventory. answers_and_stays_idle Hs.
  - unfold delete_inventory. answers_and_stays_idle Hs.
  - destruct s as [[t sv] log]. split; [exact Hs|eexists; reflexivity].
Qed.

(** ** A payee at creation *)

Lemma find_app_fresh {A} (p : A -> bool) l x :
  existsb p l = false -> p x = true -> find p (l ++ [x]) = Some x.
Proof.
  induction l as [|y l IH]; simpl; intros Hl Hx; [now rewrite Hx|].
  apply orb_false_iff in Hl. destruct Hl as [Hy Hl]. rewrite Hy. now apply IH.
Qed.

(** POST /api/workers and POST /api/vendors create a payee whose total is 0;
    it agrees with the ledger as long as no entry already carries the new
    id. *)
Lemma new_payee_is_consistent e s :
  (forall b,
      succeeded (answer (post_workers e b) s) = true ->
      entries_of a_worker (nextval e) (contents s) = [] ->
      balance a_worker (nextval e) (contents (after (post_workers e b) s)) = 0 /\
      consistent a_worker (nextval e) (contents (after (post_workers e b) s)))
  /\
  (forall b,
      succeeded (answer (post_vendors e b) s) = true ->
      entries_of a_vendor (nextval e) (contents s) = [] ->
      balance a_vendor (nextval e) (contents (after (post_vendors e b) s)) = 0 /\
      consistent a_vendor (nextval e) (contents (after (post_vendors e b) s))).
Proof.
  destruct s as [[t sv] log].
  split; intros b; unfold after, answer, consistent, balance, account_of, entries_of, contents.
  - unfold post_workers. rewrite single_statement_outcome by apply on_tables_effect.
    destruct (effect _ _) as [err|[x t']] eqn:H; simpl; [discriminate|].
    intros _ Hnone.
    unfold INSERT_INTO_workers in H. rewrite effect_on_tables in H.
    unfold insert_row, decimal, bound, not_null, and_then, ok, raise in H.
    simpl in H. repeat step H. all: inversion H; subst; unfold contents in *; simpl in *.
    all: rewrite map_app; simpl.
    all: rewrite find_app_fresh;
      [ simpl; rewrite Hnone; split; reflexivity
      | rewrite (existsb_through account_of_worker (fun w => Worker.id w =? nextval e))
          by reflexivity; assumption
      | simpl; apply Z.eqb_refl ].
  - unfold post_vendors. rewrite single_statement_outcome by apply on_tables_effect.
    destruct (effect _ _) as [err|[x t']] eqn:H; simpl; [discriminate|].
    intros _ Hnone.
    unfold INSERT_INTO_vendors in H. rewrite effect_on_tables in H.
    unfold insert_row, decimal, bound, not_null, and_then, ok, raise in H.
    simpl in H. repeat step H. all: inversion H; subst; unfold contents in *; simpl in *.
    all: rewrite map_app; simpl.
    all: rewrite find_app_fresh;
      [ simpl; rewrite Hnone; split; reflexivity
      | rewrite (existsb_through account_of_vendor (fun w => Vendor.id w =? nextval e))
          by reflexivity; assumption
      | simpl; apply Z.eqb_refl ].
Qed.

(** ** The scenario of spec section 8.6 *)

Example two_payments_to_a_new_worker :
  let body := WorkerBody.mk (Value "Wale"%string) (Value "Mason"%string) (Value 2500%Q) Null in
  let s0 := after (post_workers (at_ 1 10) body) empty_site in
  let s1 := after (recordPayment a_worker (at_ 1 100) (Id 1)
                     (pay 500 (mkDate 2024 2 10) "advance")) s0 in
  let s2 := after (recordPayment a_worker (at_ 2 200) (Id 1)
                     (pay 250.5 (mkDate 2024 2 15) "balance")) s1 in
  account_of a_worker 1 (contents s0) = Some (mkAccount 1 (Some 0) None) /\
  account_of a_worker 1 (contents s1)
  = Some (mkAccount 1 (Some 50000) (Some (mkDate 2024 2 10))) /\
  account_of a_worker 1 (contents s2)
  = Some (mkAccount 1 (Some 75050) (Some (mkDate 2024 2 15))) /\
  map amount (ledger a_worker (contents s2)) = [50000; 25050].
Proof. repeat split. Qed.

(** * Further properties

    ** Keys of a table under INSERT, UPDATE and DELETE *)

Lemma existsb_key_In {A} (key : A -> Z) n l :
  existsb (fun r => key r =? n) l = true <-> In n (map key l).
Proof.
  rewrite existsb_exists, in_map_iff. split.
  - intros (r & Hr & Hk). apply Z.eqb_eq in Hk. eauto.
  - intros (r & Hk & Hr). exists r. split; [assumption|]. now apply Z.eqb_eq.
Qed.

Lemma insert_row_inv {A} (key : A -> Z) r l l' :
  insert_row key r l = inr l' ->
  l' = l ++ [r] /\ existsb (fun r' => key r' =? key r) l = false.
Proof.
  unfold insert_row. destruct (existsb _ l) eqn:H; [discriminate|].
  intros E. inversion E. auto.
Qed.

Lemma insert_row_keys_unique {A} (key : A -> Z) r l l' :
  insert_row key r l = inr l' -> NoDup (map key l) -> NoDup (map key l').
Proof.
  intros H Hl. apply insert_row_inv in H. destruct H as [-> Hnew].
  rewrite map_app. simpl.
  apply NoDup_rev in Hl. rewrite <- (rev_involutive (map key l ++ [key r])).
  apply NoDup_rev. rewrite rev_app_distr. simpl. constructor; [|assumption].
  rewrite <- in_rev. intros Hin. apply existsb_key_In in Hin. congruence.
Qed.

Lemma update_where_keys {A} (key : A -> Z) sel set (l l' : list A) :
  (forall a b, set a = inr b -> key b = key a) ->
  update_where sel set l = inr l' -> map key l' = map key l.
Proof.
  intros Hset H. apply update_where_Forall2 in H.
  induction H as [|a b l l' Hab _ IH]; simpl; [reflexivity|].
  f_equal; [|assumption].
  destruct (sel a); [now apply Hset|now subst].
Qed.

Lemma delete_where_keys_unique {A} (key : A -> Z) sel (l : list A) :
  NoDup (map key l) -> NoDup (map key (delete_where sel l)).
Proof.
  unfold delete_where. induction l as [|a l IH]; simpl; intros H; [constructor|].
  inversion H as [|x xs Hnotin Hrest]; subst.
  destruct (negb (sel a)); simpl; [|now apply IH].
  constructor; [|now apply IH].
  intros Hin. apply Hnotin. apply in_map_iff in Hin. destruct Hin as (b & Hb & Hin).
  apply filter_In in Hin. apply in_map_iff. exists b. tauto.
Qed.

Lemma set_worker_fields_id name role rate contact w w' :
  set_worker_fields name role rate contact w = inr w' -> Worker.id w' = Worker.id w.
Proof. unfold set_worker_fields. destruct name; simpl; [|discriminate]. intros H. now inversion H. Qed.

Lemma set_vendor_fields_id name category contact rating v v' :
  set_vendor_fields name category contact rating v = inr v' -> Vendor.id v' = Vendor.id v.
Proof. unfold set_vendor_fields. destruct name; simpl; [|discriminate]. intros H. now inversion H. Qed.

Lemma set_project_fields_id name budget spent start status progress p p' :
  set_project_fields name budget spent start status progress p = inr p' ->
  Project.id p' = Project.id p.
Proof. unfold set_project_fields. destruct name; simpl; [|discriminate]. intros H. now inversion H. Qed.

Lemma set_inventory_fields_id name category quantity price stock i i' :
  set_inventory_fields name category quantity price stock i = inr i' ->
  Inventory.id i' = Inventory.id i.
Proof. unfold set_inventory_fields. destruct name; simpl; [|discriminate]. intros H. now inversion H. Qed.

Lemma set_worker_aggregate_id amount payment_date w w' :
  set_worker_aggregate amount payment_date w = inr w' -> Worker.id w' = Worker.id w.
Proof.
  unfold set_worker_aggregate. destruct (add_to_total _ _); simpl; [discriminate|].
  intros H. now inversion H.
Qed.

Lemma set_vendor_aggregate_id amount payment_date v v' :
  set_vendor_aggregate amount payment_date v = inr v' -> Vendor.id v' = Vendor.id v.
Proof.
  unfold set_vendor_aggregate. destruct (add_to_total _ _); simpl; [discriminate|].
  intros H. now inversion H.
Qed.

(** ** What each route does to the tables *)

(** The tables a route leaves, from the statements it sends. *)
Ltac statement_shape H :=
  rewrite effect_on_tables in H;
  unfold decimal, bound, bound_id, not_null, and_then, ok, raise in H;
  simpl in H; repeat step H; inversion H; subst; clear H.

Lemma single_statement_tables {A} (q : statement A) (finish : A -> response) s :
  on_tables_only q ->
  contents (after (try_catch (x <- pool_query q ;; pure (finish x))
                             (fun err => pure (res_status_500 err))) s)
  = statement_tables q (contents s).
Proof.
  intros Hq. unfold after, statement_tables.
  rewrite single_statement_outcome by assumption.
  destruct (effect q (contents s)) as [err|[x t']]; reflexivity.
Qed.

Lemma select_tables {A} (r : sql) (f : tables -> list A) t :
  statement_tables (Statement r (on_tables (fun t => ok (f t, t)))) t = t.
Proof. unfold statement_tables. now rewrite effect_on_tables. Qed.

Lemma recordPayment_tables k e id b s :
  idle s ->
  contents (after (recordPayment k e id b) s) = payment_tables k e id b (contents s).
Proof.
  intros Hs. unfold after, payment_tables, insert_step, update_step.
  destruct k; simpl recordPayment;
    [rewrite post_worker_payments_transaction|rewrite post_vendor_payments_transaction];
    rewrite transaction_outcome by (try apply on_tables_effect; exact Hs).
  all: match goal with
       | |- context [and_then (effect ?q1 ?t) _] =>
           destruct (effect q1 t) as [err|[x t1]]; simpl; [reflexivity|]
       end.
  all: match goal with
       | |- context [and_then (effect ?q2 ?t) _] =>
           destruct (effect q2 t) as [err|[u t2]]; reflexivity
       end.
Qed.

(** After any request the tables are those of [tables_after]. *)
Lemma app_tables req s :
  idle s -> contents (after (app req) s) = tables_after req (contents s).
Proof.
  intros Hs.
  destruct req as [ | visit | e b | id b | id | visit | e b | id b | id | visit id | e id b
                  | visit | e b | id b | id | visit id | e id b | visit | e b | id b | id | ];
    simpl app; simpl tables_after;
    try (apply (recordPayment_tables a_worker); exact Hs);
    try (apply (recordPayment_tables a_vendor); exact Hs);
    try (apply single_statement_tables; apply on_tables_effect; fail).
  all: first
    [ reflexivity
    | etransitivity; [apply single_statement_tables; apply on_tables_effect|];
      first [ apply select_tables
            | unfold statement_tables, SELECT_worker_payments, SELECT_vendor_payments;
              rewrite effect_on_tables; destruct id; reflexivity ]
    | destruct s as [[t sv] log]; reflexivity ].
Qed.

Lemma worker_payment_tables e id b t :
  payment_tables a_worker e id b t = t \/
  exists n row l ws amount payment_date,
    id = Id n /\ WorkerPayment.worker_id row = Some n /\
    WorkerPayment.id row = nextval e /\
    insert_row WorkerPayment.id row (worker_payments t) = inr l /\
    existsb (fun w => Worker.id w =? n) (workers t) = true /\
    update_where (fun w => Worker.id w =? n) (set_worker_aggregate amount payment_date)
                 (workers t) = inr ws /\
    payment_tables a_worker e id b t = with_workers ws (with_worker_payments l t).
Proof.
  unfold payment_tables, insert_step, update_step.
  destruct (effect (INSERT_INTO_worker_payments _ _ _ _ _) t) as [err|[out t1]] eqn:Hins;
    simpl; [now left|].
  destruct (effect (UPDATE_workers_total_paid _ _ _) t1) as [err|[u t2]] eqn:Hupd;
    simpl; [now left|].
  right. unfold INSERT_INTO_worker_payments in Hins. unfold UPDATE_workers_total_paid in Hupd.
  rewrite effect_on_tables in Hins. rewrite effect_on_tables in Hupd.
  unfold decimal, bound, bound_id, not_null, foreign_key, references, and_then, ok, raise
    in Hins, Hupd.
  simpl in Hins. repeat step Hins. all: inversion Hins; subst; clear Hins.
  all: simpl in Hupd; repeat step Hupd; inversion Hupd; subst; clear Hupd.
  all: match goal with
       | Hr : insert_row _ (WorkerPayment.mk ?i (Some ?n) ?c ?d ?ds ?ts) _ = inr ?l,
         Hu : update_where _ (set_worker_aggregate ?am ?pd) _ = inr ?ws |- _ =>
           exists n, (WorkerPayment.mk i (Some n) c d ds ts), l, ws, am, pd
       end; repeat split; assumption.
Qed.

Lemma vendor_payment_tables e id b t :
  payment_tables a_vendor e id b t = t \/
  exists n row l vs amount payment_date,
    id = Id n /\ VendorPayment.vendor_id row = Some n /\
    VendorPayment.id row = nextval e /\
    insert_row VendorPayment.id row (vendor_payments t) = inr l /\
    existsb (fun v => Vendor.id v =? n) (vendors t) = true /\
    update_where (fun v => Vendor.id v =? n) (set_vendor_aggregate amount payment_date)
                 (vendors t) = inr vs /\
    payment_tables a_vendor e id b t = with_vendors vs (with_vendor_payments l t).
Proof.
  unfold payment_tables, insert_step, update_step.
  destruct (effect (INSERT_INTO_vendor_payments _ _ _ _ _) t) as [err|[out t1]] eqn:Hins;
    simpl; [now left|].
  destruct (effect (UPDATE_vendors_total_paid _ _ _) t1) as [err|[u t2]] eqn:Hupd;
    simpl; [now left|].
  right. unfold INSERT_INTO_vendor_payments in Hins. unfold UPDATE_vendors_total_paid in Hupd.
  rewrite effect_on_tables in Hins. rewrite effect_on_tables in Hupd.
  unfold decimal, bound, bound_id, not_null, foreign_key, references, and_then, ok, raise
    in Hins, Hupd.
  simpl in Hins. repeat step Hins. all: inversion Hins; subst; clear Hins.
  all: simpl in Hupd; repeat step Hupd; inversion Hupd; subst; clear Hupd.
  all: match goal with
       | Hr : insert_row _ (VendorPayment.mk ?i (Some ?n) ?c ?d ?ds ?ts) _ = inr ?l,
         Hu : update_where _ (set_vendor_aggregate ?am ?pd) _ = inr ?ws |- _ =>
           exists n, (VendorPayment.mk i (Some n) c d ds ts), l, ws, am, pd
       end; repeat split; assumption.
Qed.

(** ** Primary keys stay unique *)

Ltac keys_after_statement :=
  unfold statement_tables;
  match goal with
  | |- context [effect ?q ?t] =>
      let H := fresh "H" in
      destruct (effect q t) as [?err|[?x ?t']] eqn:H;
      [ assumption
      | unfold INSERT_INTO_projects, UPDATE_projects, DELETE_FROM_projects,
               INSERT_INTO_workers, UPDATE_workers, DELETE_FROM_workers,
               INSERT_INTO_vendors, UPDATE_vendors, DELETE_FROM_vendors,
               INSERT_INTO_inventory, UPDATE_inventory, DELETE_FROM_inventory in H;
        statement_shape H ]
  end.

Lemma tables_after_keys_unique req t :
  keys_unique t -> keys_unique (tables_after req t).
Proof.
  intros Hk.
  destruct req as [ | visit | e b | id b | id | visit | e b | id b | id | visit id | e id b
                  | visit | e b | id b | id | visit id | e id b | visit | e b | id b | id | ];
    simpl tables_after; try assumption.
  all: try (destruct (worker_payment_tables e id b t)
              as [->|(n & row & l & ws & am & pd & _ & _ & _ & Hl & _ & Hws & ->)];
            [assumption|]).
  all: try (destruct (vendor_payment_tables e id b t)
              as [->|(n & row & l & ws & am & pd & _ & _ & _ & Hl & _ & Hws & ->)];
            [assumption|]).
  all: try keys_after_statement.
  all: unfold keys_unique in *; simpl;
       destruct Hk as (Hp & Hw & Hwp & Hv & Hvp & Hi);
       repeat split; try assumption.
  all: try (eapply insert_row_keys_unique; eassumption).
  all: try (apply delete_where_keys_unique; assumption).
  all: match goal with
       | H : update_where _ ?set ?l0 = inr ?l |- NoDup (map ?key ?l) =>
           erewrite (update_where_keys key _ set l0 l);
           [ assumption
           | eauto using set_project_fields_id, set_worker_fields_id, set_vendor_fields_id,
               set_inventory_fields_id, set_worker_aggregate_id, set_vendor_aggregate_id
           | exact H ]
       end.
Qed.

(** ** Foreign keys stay resolved *)

Section ForeignKeys.
Context {P C : Type} (key : P -> Z) (ref : C -> option Z).

Lemma foreign_key_ok parent r :
  foreign_key key parent r = ok tt <->
  match r with
  | Some n => In n (map key parent)
  | None => True
  end.
Proof.
  unfold foreign_key, references. destruct r as [n|]; [|tauto].
  rewrite <- existsb_key_In. destruct (existsb _ parent); split; intros H;
    reflexivity || discriminate.
Qed.

Lemma resolved_same_keys parent parent' child :
  map key parent' = map key parent -> resolved key ref parent child -> resolved key ref parent' child.
Proof.
  intros Hk H. unfold resolved in *. rewrite Forall_forall in *. intros c Hc.
  apply foreign_key_ok. specialize (H c Hc). apply foreign_key_ok in H.
  now rewrite Hk.
Qed.

Lemma resolved_new_parent parent p child :
  resolved key ref parent child -> resolved key ref (parent ++ [p]) child.
Proof.
  intros H. unfold resolved in *. rewrite Forall_forall in *. intros c Hc.
  apply foreign_key_ok. specialize (H c Hc). apply foreign_key_ok in H.
  destruct (ref c); [|exact I]. rewrite map_app. apply in_or_app. now left.
Qed.

Lemma resolved_new_child parent child c :
  foreign_key key parent (ref c) = ok tt ->
  resolved key ref parent child -> resolved key ref parent (child ++ [c]).
Proof.
  intros Hc H. unfold resolved in *. apply Forall_app. split; [assumption|].
  now constructor.
Qed.

Lemma resolved_cascade n parent child :
  resolved key ref parent child ->
  resolved key ref (delete_where (fun p => key p =? n) parent)
           (delete_where
              (fun c => references key (filter (fun p => key p =? n) parent) (ref c))
              child).
Proof.
  intros H. unfold resolved, delete_where in *. rewrite Forall_forall in *.
  intros c Hc. apply filter_In in Hc. destruct Hc as [Hc Hkept].
  specialize (H c Hc). apply foreign_key_ok in H. apply foreign_key_ok.
  unfold references in Hkept.
  destruct (ref c) as [m|]; [|exact I].
  apply in_map_iff in H. destruct H as (p & Hp & Hin).
  apply in_map_iff. exists p. split; [assumption|].
  apply filter_In. split; [assumption|].
  destruct (key p =? n) eqn:Hn; [|reflexivity].
  exfalso. apply negb_true_iff in Hkept.
  assert (existsb (fun p0 => key p0 =? m) (filter (fun p0 => key p0 =? n) parent) = true).
  { apply existsb_exists. exists p. split; [apply filter_In; auto|]. subst m. apply Z.eqb_refl. }
  congruence.
Qed.
End ForeignKeys.

Lemma references_resolved_iff t :
  references_resolved t <->
  resolved Worker.id WorkerPayment.worker_id (workers t) (worker_payments t) /\
  resolved Vendor.id VendorPayment.vendor_id (vendors t) (vendor_payments t).
Proof. reflexivity. Qed.

Lemma tables_after_references_resolved req t :
  references_resolved t -> references_resolved (tables_after req t).
Proof.
  intros Hr.
  destruct req as [ | visit | e b | id b | id | visit | e b | id b | id | visit id | e id b
                  | visit | e b | id b | id | visit id | e id b | visit | e b | id b | id | ];
    simpl tables_after; try assumption.
  all: try (destruct (worker_payment_tables e id b t)
              as [->|(n & row & l & ws & am & pd & _ & Hrow & _ & Hl & Hfk & Hws & ->)];
            [assumption|]).
  all: try (destruct (vendor_payment_tables e id b t)
              as [->|(n & row & l & ws & am & pd & _ & Hrow & _ & Hl & Hfk & Hws & ->)];
            [assumption|]).
  all: try keys_after_statement.
  all: apply references_resolved_iff in Hr; destruct Hr as [Hw Hv];
       apply references_resolved_iff; simpl; split; try assumption.
  all: try (apply (resolved_cascade _ _ _ _ _ Hw); fail).
  all: try (apply (resolved_cascade _ _ _ _ _ Hv); fail).
  all: try match goal with
       | H : insert_row _ _ _ = inr ?l |- resolved _ _ ?l _ =>
           apply insert_row_inv in H; destruct H as [-> _];
           apply resolved_new_parent; assumption
       end.
  all: try match goal with
       | H : update_where _ ?set ?l0 = inr ?l |- resolved ?key _ ?l _ =>
           apply (resolved_same_keys key _ l0); [|assumption];
           eapply update_where_keys; [|exact H];
           eauto using set_worker_fields_id, set_vendor_fields_id
       end.
  - apply insert_row_inv in Hl. destruct Hl as [-> _].
    apply (resolved_same_keys Worker.id _ (workers t)).
    + eapply update_where_keys; [|exact Hws]. eauto using set_worker_aggregate_id.
    + apply resolved_new_child; [|assumption].
      rewrite Hrow. apply foreign_key_ok. now apply existsb_key_In.
  - apply insert_row_inv in Hl. destruct Hl as [-> _].
    apply (resolved_same_keys Vendor.id _ (vendors t)).
    + eapply update_where_keys; [|exact Hws]. eauto using set_vendor_aggregate_id.
    + apply resolved_new_child; [|assumption].
      rewrite Hrow. apply foreign_key_ok. now apply existsb_key_In.
Qed.

(** X1.  Every route keeps the keys of the schema: if no two rows of a
    table share an id and every payment row references an existing payee
    before a request, the same holds after it, whatever the request and
    whether it succeeds or fails. *)
Theorem app_keeps_the_keys req s :
  idle s ->
  keys_unique (contents s) ->
  references_resolved (contents s) ->
  keys_unique (contents (after (app req) s)) /\
  references_resolved (contents (after (app req) s)).
Proof.
  intros Hs Hk Hr. rewrite (app_tables req s Hs). split.
  - now apply tables_after_keys_unique.
  - now apply tables_after_references_resolved.
Qed.

Lemma same_day_keys : keys_unique (contents same_day).
Proof.
  unfold keys_unique. simpl. repeat split; repeat constructor; simpl; intuition discriminate.
Qed.

Lemma same_day_references : references_resolved (contents same_day).
Proof. split; repeat constructor. Qed.

Lemma app_keeps_the_keys_witness :
  keys_unique (contents (after (app (DELETE_workers (Id 1))) same_day)) /\
  references_resolved (contents (after (app (DELETE_workers (Id 1))) same_day)).
Proof.
  exact (app_keeps_the_keys (DELETE_workers (Id 1)) same_day eq_refl
           same_day_keys same_day_references).
Defined.

Lemma serve_well_keyed reqs :
  forall s,
    idle s -> keys_unique (contents s) -> references_resolved (contents s) ->
    idle (serve reqs s) /\
    keys_unique (contents (serve reqs s)) /\
    references_resolved (contents (serve reqs s)).
Proof.
  induction reqs as [|req reqs IH]; intros s Hs Hk Hr; simpl; [auto|].
  apply IH.
  - apply app_answers_and_stays_idle. exact Hs.
  - rewrite (app_tables req s Hs). now apply tables_after_keys_unique.
  - rewrite (app_tables req s Hs). now apply tables_after_references_resolved.
Qed.

(** X2.  Starting from the empty tables [initDB] creates, after any
    sequence of requests served one after the other, each answered before
    the next begins, no transaction is open, no two rows of a table share
    an id, and every payment row references an existing payee: the routes
    never produce an orphan ledger entry. *)
Theorem served_store_is_well_keyed reqs :
  idle (serve reqs empty_site) /\
  keys_unique (contents (serve reqs empty_site)) /\
  references_resolved (contents (serve reqs empty_site)).
Proof.
  apply serve_well_keyed.
  - reflexivity.
  - unfold keys_unique. simpl. repeat split; constructor.
  - split; constructor.
Qed.

(** ** Answers *)

Ltac answered_200_or_500 :=
  rewrite single_statement_outcome by apply on_tables_effect;
  match goal with
  | |- context [effect ?q ?t] =>
      destruct (effect q t) as [?err|[?x ?t']]; simpl;
      eexists; (split; [reflexivity|]);
      [ right; eexists; split; reflexivity | left; reflexivity ]
  end.

Lemma app_answer req s :
  idle s ->
  exists r,
    answer (app req) s = inr r /\
    (status r = 200 \/
     exists err, r = res_status_500 err /\ contents (after (app req) s) = contents s).
Proof.
  intros Hs.
  destruct req as [ | visit | e b | id b | id | visit | e b | id b | id | visit id | e id b
                  | visit | e b | id b | id | visit id | e id b | visit | e b | id b | id | ];
    unfold after, answer, app.
  - eexists. split; [reflexivity|]. now left.
  - unfold get_projects. answered_200_or_500.
  - unfold post_projects. answered_200_or_500.
  - unfold put_projects. answered_200_or_500.
  - unfold delete_projects. answered_200_or_500.
  - unfold get_workers. answered_200_or_500.
  - unfold post_workers. answered_200_or_500.
  - unfold put_workers. answered_200_or_500.
  - unfold delete_workers. answered_200_or_500.
  - unfold get_worker_payments. answered_200_or_500.
  - destruct (recordPayment_outcome a_worker e id b s Hs)
      as (r & s' & Hrun & _ & [(n & a & d & c & _ & _ & _ & _ & _ & Hok)|(err & Hr & Hsame & _)]);
      simpl in Hrun; rewrite Hrun; exists r; (split; [reflexivity|]).
    + left. cbv zeta in Hok. tauto.
    + right. eauto.
  - unfold get_vendors. answered_200_or_500.
  - unfold post_vendors. answered_200_or_500.
  - unfold put_vendors. answered_200_or_500.
  - unfold delete_vendors. answered_200_or_500.
  - unfold get_vendor_payments. answered_200_or_500.
  - destruct (recordPayment_outcome a_vendor e id b s Hs)
      as (r & s' & Hrun & _ & [(n & a & d & c & _ & _ & _ & _ & _ & Hok)|(err & Hr & Hsame & _)]);
      simpl in Hrun; rewrite Hrun; exists r; (split; [reflexivity|]).
    + left. cbv zeta in Hok. tauto.
    + right. eauto.
  - unfold get_inventory. answered_200_or_500.
  - unfold post_inventory. answered_200_or_500.
  - unfold put_inventory. answered_200_or_500.
  - unfold delete_inventory. answered_200_or_500.
  - destruct s as [[t sv] log]. eexists. split; [reflexivity|]. now left.
Qed.

(** X3.  Every route handler answers, with status 200 or with status 500
    and the store's error: a request that has reached its handler, served
    alone on a connection with no transaction open, is never answered
    with a 4xx status by the handler, and the handler does not throw.  A
    request answered with status 500 leaves every table as it was, and
    the handler leaves no transaction open. *)
Theorem every_handler_answers_200_or_500 req s :
  idle s ->
  idle (after (app req) s) /\
  exists r,
    answer (app req) s = inr r /\
    ~ client_error r /\
    (status r = 200 \/
     exists err, r = res_status_500 err /\ contents (after (app req) s) = contents s).
Proof.
  intros Hs. split; [now apply app_answers_and_stays_idle|].
  destruct (app_answer req s Hs) as (r & Hanswer & Hstatus).
  exists r. split; [assumption|]. split; [|assumption].
  unfold client_error. destruct Hstatus as [H|(err & -> & _)]; [rewrite H|simpl]; lia.
Qed.

Lemma every_handler_answers_200_or_500_witness :
  exists r,
    answer (app (PUT_workers BadId (WorkerBody.mk Null Null Null Null))) same_day = inr r /\
    ~ client_error r.
Proof.
  destruct (every_handler_answers_200_or_500
              (PUT_workers BadId (WorkerBody.mk Null Null Null Null)) same_day eq_refl)
    as (_ & r & Hanswer & Hclient & _).
  exists r. split; assumption.
Defined.

(** ** What a route leaves alone *)

Lemma tables_after_frame req r t :
  ~ In r (writes req) -> same_table r t (tables_after req t).
Proof.
  intros Hnot.
  destruct req as [ | visit | e b | id b | id | visit | e b | id b | id | visit id | e id b
                  | visit | e b | id b | id | visit id | e id b | visit | e b | id b | id | ];
    simpl tables_after.
  all: try (destruct (worker_payment_tables e id b t)
              as [->|(n & row & l & ws & am & pd & _ & _ & _ & _ & _ & _ & ->)]).
  all: try (destruct (vendor_payment_tables e id b t)
              as [->|(n & row & l & ws & am & pd & _ & _ & _ & _ & _ & _ & ->)]).
  all: try (unfold statement_tables;
            match goal with
            | |- context [effect ?q ?t] =>
                let H := fresh "H" in
                destruct (effect q t) as [?err|[?x ?t']] eqn:H;
                [ | unfold INSERT_INTO_projects, UPDATE_projects, DELETE_FROM_projects,
                           INSERT_INTO_workers, UPDATE_workers, DELETE_FROM_workers,
                           INSERT_INTO_vendors, UPDATE_vendors, DELETE_FROM_vendors,
                           INSERT_INTO_inventory, UPDATE_inventory, DELETE_FROM_inventory in H;
                    statement_shape H ]
            end).
  all: destruct r; simpl in *; try reflexivity; exfalso; apply Hnot; tauto.
Qed.

(** X4.  A route writes only the tables of its own resource: a request
    leaves every table unchanged that its statements do not name, so the
    project and inventory routes never touch payees or ledgers, a worker
    route never touches vendors, and the reading routes touch nothing. *)
Theorem a_route_writes_only_its_tables req r s :
  idle s ->
  ~ In r (writes req) ->
  same_table r (contents s) (contents (after (app req) s)).
Proof.
  intros Hs Hnot. rewrite (app_tables req s Hs). now apply tables_after_frame.
Qed.

Lemma a_route_writes_only_its_tables_witness :
  vendors (contents (after (app (DELETE_workers (Id 1))) site)) = vendors (contents site).
Proof.
  refine (a_route_writes_only_its_tables (DELETE_workers (Id 1)) Vendors site eq_refl _).
  simpl. intros [H|[H|[]]]; discriminate H.
Defined.

(** ** The aggregate of a payee *)

Lemma update_where_view {A B} (view : A -> B) sel set (l l' : list A) :
  (forall a b, set a = inr b -> view b = view a) ->
  update_where sel set l = inr l' -> map view l' = map view l.
Proof.
  intros Hset H. apply update_where_Forall2 in H.
  induction H as [|a b l l' Hab _ IH]; simpl; [reflexivity|].
  f_equal; [|assumption].
  destruct (sel a); [now apply Hset|now subst].
Qed.

Lemma set_worker_fields_account name role rate contact w w' :
  set_worker_fields name role rate contact w = inr w' ->
  account_of_worker w' = account_of_worker w.
Proof. unfold set_worker_fields. destruct name; simpl; [|discriminate]. intros H. now inversion H. Qed.

Lemma set_vendor_fields_account name category contact rating v v' :
  set_vendor_fields name category contact rating v = inr v' ->
  account_of_vendor v' = account_of_vendor v.
Proof. unfold set_vendor_fields. destruct name; simpl; [|discriminate]. intros H. now inversion H. Qed.

Lemma worker_accounts_after req s :
  idle s ->
  let t := contents s in
  let t' := contents (after (app req) s) in
  accounts a_worker t' = accounts a_worker t
  \/ (exists e b,
        req = POST_workers e b /\
        accounts a_worker t' = accounts a_worker t ++ [mkAccount (nextval e) (Some 0) None])
  \/ (exists n,
        req = DELETE_workers (Id n) /\
        accounts a_worker t' = filter (fun a => negb (payee a =? n)) (accounts a_worker t))
  \/ (exists e n b a d,
        req = POST_worker_payments e (Id n) b /\
        PaymentBody.amount b = Value a /\ PaymentBody.payment_date b = Value d /\
        Forall2 (credited n a d) (accounts a_worker t) (accounts a_worker t')).
Proof.
  intros Hs t t'. subst t t'.
  assert (Hframe : ~ In Workers (writes req) ->
                   accounts a_worker (contents (after (app req) s))
                   = accounts a_worker (contents s)).
  { intros Hnot. rewrite (app_tables req s Hs).
    pose proof (tables_after_frame req Workers (contents s) Hnot) as H.
    simpl in H. unfold accounts. now rewrite H. }
  destruct req as [ | visit | e b | id b | id | visit | e b | id b | id | visit id | e id b
                  | visit | e b | id b | id | visit id | e id b | visit | e b | id b | id | ];
    try (left; apply Hframe; simpl; intuition discriminate).
  - (* POST /api/workers *)
    rewrite (app_tables _ s Hs). simpl tables_after. unfold statement_tables.
    destruct (effect _ (contents s)) as [err|[x t']] eqn:H; [now left|].
    unfold INSERT_INTO_workers in H. statement_shape H.
    all: right; left; exists e, b; split; [reflexivity|].
    all: match goal with
         | H : insert_row _ _ _ = inr _ |- _ => apply insert_row_inv in H; destruct H as [-> _]
         end.
    all: unfold accounts; simpl; now rewrite map_app.
  - (* PUT /api/workers/:id *)
    rewrite (app_tables _ s Hs). simpl tables_after. unfold statement_tables.
    destruct (effect _ (contents s)) as [err|[x t']] eqn:H; [now left|].
    unfold UPDATE_workers in H. statement_shape H.
    all: left; unfold accounts; simpl.
    all: match goal with
         | H : update_where _ ?set ?l0 = inr ?l |- _ =>
             eapply (update_where_view account_of_worker); [|exact H];
             eauto using set_worker_fields_account
         end.
  - (* DELETE /api/workers/:id *)
    rewrite (app_tables _ s Hs). simpl tables_after. unfold statement_tables, DELETE_FROM_workers.
    rewrite effect_on_tables. destruct id as [|n]; simpl; [now left|].
    right. right. left. exists n. split; [reflexivity|].
    unfold accounts, delete_where. simpl.
    symmetry. apply filter_through. reflexivity.
  - (* POST /api/workers/:id/payments *)
    destruct (recordPayment_outcome a_worker e id b s Hs)
      as (r & s' & Hrun & _ & [(n & a & d & c & -> & Ha & Hd & _ & _ & Hok)|(err & _ & Hsame & _)]);
      simpl in Hrun; unfold after; simpl app; rewrite Hrun; simpl.
    + right. right. right. cbv zeta in Hok. destruct Hok as (_ & _ & _ & Hacc & _).
      exists e, n, b, a, d. auto.
    + left. now rewrite Hsame.
Qed.

Lemma vendor_accounts_after req s :
  idle s ->
  let t := contents s in
  let t' := contents (after (app req) s) in
  accounts a_vendor t' = accounts a_vendor t
  \/ (exists e b,
        req = POST_vendors e b /\
        accounts a_vendor t' = accounts a_vendor t ++ [mkAccount (nextval e) (Some 0) None])
  \/ (exists n,
        req = DELETE_vendors (Id n) /\
        accounts a_vendor t' = filter (fun a => negb (payee a =? n)) (accounts a_vendor t))
  \/ (exists e n b a d,
        req = POST_vendor_payments e (Id n) b /\
        PaymentBody.amount b = Value a /\ PaymentBody.payment_date b = Value d /\
        Forall2 (credited n a d) (accounts a_vendor t) (accounts a_vendor t')).
Proof.
  intros Hs t t'. subst t t'.
  assert (Hframe : ~ In Vendors (writes req) ->
                   accounts a_vendor (contents (after (app req) s))
                   = accounts a_vendor (contents s)).
  { intros Hnot. rewrite (app_tables req s Hs).
    pose proof (tables_after_frame req Vendors (contents s) Hnot) as H.
    simpl in H. unfold accounts. now rewrite H. }
  destruct req as [ | visit | e b | id b | id | visit | e b | id b | id | visit id | e id b
                  | visit | e b | id b | id | visit id | e id b | visit | e b | id b | id | ];
    try (left; apply Hframe; simpl; intuition discriminate).
  - (* POST /api/vendors *)
    rewrite (app_tables _ s Hs). simpl tables_after. unfold statement_tables.
    destruct (effect _ (contents s)) as [err|[x t']] eqn:H; [now left|].
    unfold INSERT_INTO_vendors in H. statement_shape H.
    all: right; left; exists e, b; split; [reflexivity|].
    all: match goal with
         | H : insert_row _ _ _ = inr _ |- _ => apply insert_row_inv in H; destruct H as [-> _]
         end.
    all: unfold accounts; simpl; now rewrite map_app.
  - (* PUT /api/vendors/:id *)
    rewrite (app_tables _ s Hs). simpl tables_after. unfold statement_tables.
    destruct (effect _ (contents s)) as [err|[x t']] eqn:H; [now left|].
    unfold UPDATE_vendors in H. statement_shape H.
    all: left; unfold accounts; simpl.
    all: match goal with
         | H : update_where _ ?set ?l0 = inr ?l |- _ =>
             eapply (update_where_view account_of_vendor); [|exact H];
             eauto using set_vendor_fields_account
         end.
  - (* DELETE /api/vendors/:id *)
    rewrite (app_tables _ s Hs). simpl tables_after. unfold statement_tables, DELETE_FROM_vendors.
    rewrite effect_on_tables. destruct id as [|n]; simpl; [now left|].
    right. right. left. exists n. split; [reflexivity|].
    unfold accounts, delete_where. simpl.
    symmetry. apply filter_through. reflexivity.
  - (* POST /api/vendors/:id/payments *)
    destruct (recordPayment_outcome a_vendor e id b s Hs)
      as (r & s' & Hrun & _ & [(n & a & d & c & -> & Ha & Hd & _ & _ & Hok)|(err & _ & Hsame & _)]);
      simpl in Hrun; unfold after; simpl app; rewrite Hrun; simpl.
    + right. right. right. cbv zeta in Hok. destruct Hok as (_ & _ & _ & Hacc & _).
      exists e, n, b, a, d. auto.
    + left. now rewrite Hsame.
Qed.

(** X5.  total_paid and last_payment_date are written by the payment
    routes only.  After any request the accounts (id, total_paid,
    last_payment_date) of the workers are what they were, or gained one
    account with total 0 and no date (a worker was created), or lost the
    accounts of a deleted id, or were credited by a payment; editing a
    worker never changes its aggregate.  The same holds for vendors. *)
Theorem only_payments_move_the_aggregate req s :
  idle s ->
  let t := contents s in
  let t' := contents (after (app req) s) in
  (accounts a_worker t' = accounts a_worker t
   \/ (exists e b,
         req = POST_workers e b /\
         accounts a_worker t' = accounts a_worker t ++ [mkAccount (nextval e) (Some 0) None])
   \/ (exists n,
         req = DELETE_workers (Id n) /\
         accounts a_worker t' = filter (fun a => negb (payee a =? n)) (accounts a_worker t))
   \/ (exists e n b a d,
         req = POST_worker_payments e (Id n) b /\
         PaymentBody.amount b = Value a /\ PaymentBody.payment_date b = Value d /\
         Forall2 (credited n a d) (accounts a_worker t) (accounts a_worker t')))
  /\
  (accounts a_vendor t' = accounts a_vendor t
   \/ (exists e b,
         req = POST_vendors e b /\
         accounts a_vendor t' = accounts a_vendor t ++ [mkAccount (nextval e) (Some 0) None])
   \/ (exists n,
         req = DELETE_vendors (Id n) /\
         accounts a_vendor t' = filter (fun a => negb (payee a =? n)) (accounts a_vendor t))
   \/ (exists e n b a d,
         req = POST_vendor_payments e (Id n) b /\
         PaymentBody.amount b = Value a /\ PaymentBody.payment_date b = Value d /\
         Forall2 (credited n a d) (accounts a_vendor t) (accounts a_vendor t'))).
Proof.
  intros Hs. split; [now apply worker_accounts_after|now apply vendor_accounts_after].
Qed.

Lemma only_payments_move_the_aggregate_witness :
  accounts a_worker
    (contents (after (app (PUT_workers (Id 1)
                             (WorkerBody.mk (Value "Ada L."%string) Null Null Null)))
                     same_day))
  = accounts a_worker (contents same_day).
Proof.
  destruct (proj1 (only_payments_move_the_aggregate
                     (PUT_workers (Id 1) (WorkerBody.mk (Value "Ada L."%string) Null Null Null))
                     same_day eq_refl))
    as [H|[(e & b & Hreq & _)|[(n & Hreq & _)|(e & n & b & a & d & Hreq & _)]]];
    [exact H|discriminate Hreq|discriminate Hreq|discriminate Hreq].
Defined.

(** ** Routes with an [:id] *)






Lemma delete_where_missing {A} (sel : A -> bool) l :
  existsb sel l = false -> delete_where sel l = l /\ filter sel l = [].
Proof.
  unfold delete_where. induction l as [|a l IH]; simpl; intros H; [split; reflexivity|].
  apply orb_false_iff in H. destruct H as [Ha Hl]. rewrite Ha. simpl.
  destruct (IH Hl) as [-> ->]. split; reflexivity.
Qed.

Lemma cascade_of_nothing {P C} (key : P -> Z) (ref : C -> option Z) (l : list C) :
  delete_where (fun c => references key [] (ref c)) l = l.
Proof.
  unfold delete_where. apply filter_all. intros c _. now destruct (ref c).
Qed.

Lemma delete_outcome (q : statement unit) m s :
  on_tables_only q ->
  let r := try_catch (_ <- pool_query q ;; pure (res_json (message m)))
                     (fun err => pure (res_status_500 err)) in
  forall t', effect q (contents s) = inr (tt, t') ->
  answer r s = inr (res_json (message m)) /\ contents (after r s) = t'.
Proof.
  intros Hq r t' H. subst r. unfold after, answer.
  rewrite single_statement_outcome by assumption. rewrite H. split; reflexivity.
Qed.

Lemma delete_tables req r n t :
  deleted req = Some r ->
  path_id req = Some (Id n) ->
  row_exists r n (tables_after req t) = false /\
  (row_exists r n t = false -> tables_after req t = t).
Proof.
  intros Hdel Hid.
  destruct req; try discriminate Hdel; simpl in Hdel, Hid;
    injection Hdel as <-; injection Hid as ->; simpl.
  all: unfold statement_tables, DELETE_FROM_projects, DELETE_FROM_workers,
         DELETE_FROM_vendors, DELETE_FROM_inventory;
       rewrite effect_on_tables; simpl.
  all: split; [apply existsb_delete_where|].
  all: intros Hmissing; destruct (delete_where_missing _ _ Hmissing) as [Hd Hf];
       rewrite ?Hf, ?cascade_of_nothing, Hd; destruct t; reflexivity.
Qed.

(** X7.  DELETE of a project, worker, vendor or inventory item with an
    integer id within INTEGER, served alone, always answers status 200
    with a "deleted successfully" message, whether or not a row had that
    id.  Afterwards no row of that table has the id; when none had it
    before, every table is unchanged, so that repeating the request
    changes nothing more. *)
Theorem delete_answers_200_and_is_idempotent req r n s :
  idle s ->
  deleted req = Some r ->
  path_id req = Some (Id n) ->
  int4 n ->
  let s' := after (app req) s in
  (exists m, answer (app req) s = inr (res_json (message m))) /\
  row_exists r n (contents s') = false /\
  (row_exists r n (contents s) = false -> contents s' = contents s) /\
  contents (after (app req) s') = contents s'.
Proof.
  intros Hidle Hdel Hid _ s'.
  assert (Hidle' : idle s') by (apply app_answers_and_stays_idle; assumption).
  subst s'. rewrite !app_tables by assumption.
  destruct (delete_tables req r n (contents s) Hdel Hid) as [Hgone Hsame].
  destruct (delete_tables req r n (tables_after req (contents s)) Hdel Hid) as [_ Hagain].
  split; [|split; [exact Hgone|split; [exact Hsame|exact (Hagain Hgone)]]].
  destruct req; try discriminate Hdel; simpl in Hid; injection Hid as ->; simpl app.
  all: eexists; unfold answer, delete_projects, delete_workers, delete_vendors, delete_inventory;
       rewrite single_statement_outcome by apply on_tables_effect.
  all: unfold DELETE_FROM_projects, DELETE_FROM_workers, DELETE_FROM_vendors,
         DELETE_FROM_inventory; rewrite effect_on_tables; simpl; reflexivity.
Qed.

Lemma delete_answers_200_and_is_idempotent_witness :
  row_exists Workers 1 (contents same_day) = true /\
  row_exists Workers 1 (contents (after (app (DELETE_workers (Id 1))) same_day)) = false /\
  contents (after (app (DELETE_workers (Id 1))) (after (app (DELETE_workers (Id 1))) same_day))
  = contents (after (app (DELETE_workers (Id 1))) same_day).
Proof.
  destruct (delete_answers_200_and_is_idempotent (DELETE_workers (Id 1)) Workers 1 same_day
              eq_refl eq_refl eq_refl int4_1) as (_ & Hgone & _ & Hagain).
  split; [reflexivity|split; [exact Hgone|exact Hagain]].
Defined.

Lemma failed_statement_outcome {A} (q : statement A) (finish : A -> response) s err :
  on_tables_only q ->
  effect q (contents s) = inl err ->
  let r := try_catch (x <- pool_query q ;; pure (finish x))
                     (fun err => pure (res_status_500 err)) in
  answer r s = inr (res_status_500 err) /\ contents (after r s) = contents s.
Proof.
  intros Hq H r. subst r. unfold after, answer.
  rewrite single_statement_outcome by assumption. rewrite H. split; reflexivity.
Qed.

Lemma failed_transaction_outcome {A} (q1 : statement A) (q2 : statement unit) finish s err :
  on_tables_only q1 -> on_tables_only q2 -> idle s ->
  effect q1 (contents s) = inl err ->
  answer (transaction q1 q2 finish) s = inr (res_status_500 err) /\
  contents (after (transaction q1 q2 finish) s) = contents s.
Proof.
  intros H1 H2 Hs H. unfold after, answer.
  rewrite transaction_outcome by assumption. rewrite H. split; reflexivity.
Qed.

Ltac step_goal :=
  match goal with
  | |- context [match ?x with _ => _ end] =>
      innermost x ltac:(fun y => destruct y; simpl)
  end.

Ltac statement_fails :=
  rewrite effect_on_tables;
  unfold decimal, bound, bound_id, not_null, and_then, ok, raise; simpl;
  repeat step_goal; reflexivity.

(** X8.  An [:id] that is not an integer is not answered as a bad request:
    on every route with an [:id] the store refuses the request, the route
    answers status 500 with the store's message, and no table changes.
    The message is the one for a text that is no value of its type,
    unless an integer field of the body that the statement binds before
    the id is beyond INTEGER, which the store then reports first. *)
Theorem a_malformed_id_is_a_server_error req s :
  idle s ->
  path_id req = Some BadId ->
  exists err,
    answer (app req) s = inr (res_status_500 err) /\
    contents (after (app req) s) = contents s /\
    (integers_fit req -> err = invalid_text_representation).
Proof.
  intros Hs Hid. exists invalid_text_representation.
  apply (proj1 (and_assoc _ _ _)). split; [|reflexivity].
  destruct req; try discriminate Hid; simpl in Hid; injection Hid as ->; simpl app.
  all: try (rewrite post_worker_payments_transaction
            || rewrite post_vendor_payments_transaction).
  all: first [ apply failed_transaction_outcome;
               [apply on_tables_effect|apply on_tables_effect|exact Hs|]
             | apply failed_statement_outcome; [apply on_tables_effect|] ].
  all: unfold UPDATE_projects, DELETE_FROM_projects, UPDATE_workers, DELETE_FROM_workers,
         UPDATE_vendors, DELETE_FROM_vendors, UPDATE_inventory, DELETE_FROM_inventory,
         SELECT_worker_payments, SELECT_vendor_payments,
         INSERT_INTO_worker_payments, INSERT_INTO_vendor_payments.
  all: statement_fails.
Qed.

Lemma a_malformed_id_is_a_server_error_witness :
  exists err,
    answer (app (PUT_vendors BadId (VendorBody.mk (Value "Quarry"%string) Null Null (Value 4))))
           site
    = inr (res_status_500 err) /\
    contents (after (app (PUT_vendors BadId
                            (VendorBody.mk (Value "Quarry"%string) Null Null (Value 4)))) site)
    = contents site /\
    err = invalid_text_representation.
Proof.
  destruct (a_malformed_id_is_a_server_error
              (PUT_vendors BadId (VendorBody.mk (Value "Quarry"%string) Null Null (Value 4)))
              site eq_refl eq_refl) as (err & Hanswer & Hsame & Herr).
  exists err. split; [exact Hanswer|]. split; [exact Hsame|].
  apply Herr. unfold integers_fit, holds, int4. simpl. lia.
Defined.

(** ** PUT replaces the editable columns *)

Lemma update_returning {A} (key : A -> Z) n set (l l' out : list A) :
  (forall a b, set a = inr b -> key b = key a) ->
  update_where (fun a => key a =? n) set l = inr l' ->
  returning (fun a => key a =? n) set l = inr out ->
  nth_error out 0 = find (fun b => key b =? n) l'.
Proof.
  intros Hkey. unfold update_where, returning.
  revert l' out. induction l as [|a l IH]; simpl; intros l' out Hu Hr.
  - inversion Hu. inversion Hr. reflexivity.
  - destruct (key a =? n) eqn:Ha; simpl in *.
    + destruct (set a) as [?|b] eqn:Hb; simpl in *; [discriminate|].
      destruct (traverse _ l) as [?|bs]; simpl in *; [discriminate|].
      destruct (traverse set _) as [?|os]; simpl in *; [discriminate|].
      inversion Hu; inversion Hr; subst; simpl.
      now rewrite (Hkey a b Hb), Ha.
    + destruct (traverse _ l) as [?|bs] eqn:Hbs; simpl in *; [discriminate|].
      inversion Hu; subst; simpl. rewrite Ha. now apply IH.
Qed.

Ltac update_shape H :=
  rewrite effect_on_tables in H;
  unfold decimal, bound, bound_id, not_null, and_then, ok, raise in H; simpl in H;
  repeat step H; inversion H; subst; clear H;
  repeat match goal with
         | E : Decimal.coerce _ _ = Some _ |- _ => apply coerce_inv in E; subst
         end;
  eexists _, _; repeat split; eassumption.

Lemma UPDATE_workers_inv name role rate contact id t out t' :
  effect (UPDATE_workers name role rate contact id) t = inr (out, t') ->
  exists n l,
    id = Id n /\
    update_where (fun w => Worker.id w =? n)
      (set_worker_fields (value_of name) (value_of role) (stored_decimal rate)
                         (value_of contact)) (workers t) = inr l /\
    returning (fun w => Worker.id w =? n)
      (set_worker_fields (value_of name) (value_of role) (stored_decimal rate)
                         (value_of contact)) (workers t) = inr out /\
    t' = with_workers l t.
Proof. intros H. unfold UPDATE_workers in H. update_shape H. Qed.

Lemma UPDATE_vendors_inv name category contact rating id t out t' :
  effect (UPDATE_vendors name category contact rating id) t = inr (out, t') ->
  exists n l,
    id = Id n /\
    update_where (fun v => Vendor.id v =? n)
      (set_vendor_fields (value_of name) (value_of category) (value_of contact)
                         (value_of rating)) (vendors t) = inr l /\
    returning (fun v => Vendor.id v =? n)
      (set_vendor_fields (value_of name) (value_of category) (value_of contact)
                         (value_of rating)) (vendors t) = inr out /\
    t' = with_vendors l t.
Proof. intros H. unfold UPDATE_vendors in H. update_shape H. Qed.

Lemma UPDATE_projects_inv name budget spent start_date status progress id t out t' :
  effect (UPDATE_projects name budget spent start_date status progress id) t = inr (out, t') ->
  exists n l,
    id = Id n /\
    update_where (fun p => Project.id p =? n)
      (set_project_fields (value_of name) (stored_decimal budget) (stored_decimal spent)
                          (value_of start_date) (value_of status) (value_of progress))
      (projects t) = inr l /\
    returning (fun p => Project.id p =? n)
      (set_project_fields (value_of name) (stored_decimal budget) (stored_decimal spent)
                          (value_of start_date) (value_of status) (value_of progress))
      (projects t) = inr out /\
    t' = with_projects l t.
Proof. intros H. unfold UPDATE_projects in H. update_shape H. Qed.

Lemma UPDATE_inventory_inv name category quantity unit_price min_stock id t out t' :
  effect (UPDATE_inventory name category quantity unit_price min_stock id) t = inr (out, t') ->
  exists n l,
    id = Id n /\
    update_where (fun i => Inventory.id i =? n)
      (set_inventory_fields (value_of name) (value_of category) (value_of quantity)
                            (stored_decimal unit_price) (value_of min_stock))
      (inventory t) = inr l /\
    returning (fun i => Inventory.id i =? n)
      (set_inventory_fields (value_of name) (value_of category) (value_of quantity)
                            (stored_decimal unit_price) (value_of min_stock))
      (inventory t) = inr out /\
    t' = with_inventory l t.
Proof. intros H. unfold UPDATE_inventory in H. update_shape H. Qed.

Lemma set_worker_fields_inv name role rate contact w w' :
  set_worker_fields (value_of name) role rate contact w = inr w' ->
  name = Value (Worker.name w') /\
  w' = Worker.mk (Worker.id w) (Worker.name w') role rate contact
         (Worker.total_paid w) (Worker.last_payment_date w) (Worker.created_at w).
Proof.
  destruct name; simpl; intros H; try discriminate H.
  inversion H; subst; simpl. split; reflexivity.
Qed.

Lemma set_vendor_fields_inv name category contact rating v v' :
  set_vendor_fields (value_of name) category contact rating v = inr v' ->
  name = Value (Vendor.name v') /\
  v' = Vendor.mk (Vendor.id v) (Vendor.name v') category contact rating
         (Vendor.total_paid v) (Vendor.last_payment_date v) (Vendor.created_at v).
Proof.
  destruct name; simpl; intros H; try discriminate H.
  inversion H; subst; simpl. split; reflexivity.
Qed.

Lemma set_project_fields_inv name budget spent start_date status progress p p' :
  set_project_fields (value_of name) budget spent start_date status progress p = inr p' ->
  name = Value (Project.name p') /\
  p' = Project.mk (Project.id p) (Project.name p') (Project.location p) (Project.units p)
         status budget spent start_date progress (Project.created_at p).
Proof.
  destruct name; simpl; intros H; try discriminate H.
  inversion H; subst; simpl. split; reflexivity.
Qed.

Lemma set_inventory_fields_inv name category quantity unit_price min_stock i i' :
  set_inventory_fields (value_of name) category quantity unit_price min_stock i = inr i' ->
  name = Value (Inventory.name i') /\
  i' = Inventory.mk (Inventory.id i) (Inventory.name i') category quantity unit_price
         min_stock (Inventory.created_at i).
Proof.
  destruct name; simpl; intros H; try discriminate H.
  inversion H; subst; simpl. split; reflexivity.
Qed.

Lemma Forall2_impl {A B} (P Q : A -> B -> Prop) l l' :
  (forall a b, P a b -> Q a b) -> Forall2 P l l' -> Forall2 Q l l'.
Proof. intros H. induction 1; constructor; auto. Qed.

Ltac put_outcome inv set_inv set_id :=
  unfold answer, after;
  rewrite single_statement_outcome by apply on_tables_effect;
  match goal with
  | |- context [effect ?q ?t] =>
      let H := fresh "H" in
      destruct (effect q t) as [?err|[?out ?t']] eqn:H; [simpl; discriminate|];
      cbn [fst snd];
      intros _; apply inv in H;
      let n := fresh "n" in
      let l := fresh "l" in
      let Hu := fresh "Hu" in
      let Hr := fresh "Hr" in
      destruct H as (n & l & -> & Hu & Hr & ->);
      exists n; split; [reflexivity|]; split;
      [ apply update_where_Forall2 in Hu; simpl;
        refine (Forall2_impl _ _ _ _ _ Hu); intros a b0;
        destruct (_ =? n); [apply set_inv|exact (fun E => E)]
      | unfold row0;
        let E := fresh "E" in
        pose proof (fun Hk => update_returning _ n _ _ _ _ Hk Hu Hr) as E;
        rewrite E by (intros ? ?; apply set_id); reflexivity ]
  end.

Lemma put_workers_outcome id b s :
  succeeded (answer (app (PUT_workers id b)) s) = true ->
  exists n,
    id = Id n /\
    Forall2 (fun w w' =>
               if Worker.id w =? n
               then WorkerBody.name b = Value (Worker.name w') /\
                    w' = Worker.mk (Worker.id w) (Worker.name w')
                           (value_of (WorkerBody.role b))
                           (stored_decimal (WorkerBody.hourly_rate b))
                           (value_of (WorkerBody.contact b))
                           (Worker.total_paid w) (Worker.last_payment_date w)
                           (Worker.created_at w)
               else w' = w)
            (workers (contents s)) (workers (contents (after (app (PUT_workers id b)) s))) /\
    answer (app (PUT_workers id b)) s
    = inr (res_json (first_row (option_map worker_row
             (find (fun w => Worker.id w =? n)
                   (workers (contents (after (app (PUT_workers id b)) s))))))).
Proof.
  simpl app. unfold put_workers.
  put_outcome UPDATE_workers_inv set_worker_fields_inv set_worker_fields_id.
Qed.

Lemma put_vendors_outcome id b s :
  succeeded (answer (app (PUT_vendors id b)) s) = true ->
  exists n,
    id = Id n /\
    Forall2 (fun v v' =>
               if Vendor.id v =? n
               then VendorBody.name b = Value (Vendor.name v') /\
                    v' = Vendor.mk (Vendor.id v) (Vendor.name v')
                           (value_of (VendorBody.category b))
                           (value_of (VendorBody.contact b))
                           (value_of (VendorBody.rating b))
                           (Vendor.total_paid v) (Vendor.last_payment_date v)
                           (Vendor.created_at v)
               else v' = v)
            (vendors (contents s)) (vendors (contents (after (app (PUT_vendors id b)) s))) /\
    answer (app (PUT_vendors id b)) s
    = inr (res_json (first_row (option_map vendor_row
             (find (fun v => Vendor.id v =? n)
                   (vendors (contents (after (app (PUT_vendors id b)) s))))))).
Proof.
  simpl app. unfold put_vendors.
  put_outcome UPDATE_vendors_inv set_vendor_fields_inv set_vendor_fields_id.
Qed.

(** X9.  A successful PUT /api/workers/:id or PUT /api/vendors/:id whose
    id, rating and texts fit their columns (INTEGER, VARCHAR(n)) is a full
    replacement of the editable columns and of nothing else: the row
    of that id takes the name of the body and, for every other editable
    column, the value of the body or NULL when the body has none, while
    its id, total_paid, last_payment_date and created_at stay; every other
    row of the table is unchanged, and the answer is the row as stored
    (or an empty body when no row has the id). *)
Theorem put_replaces_the_editable_columns_of_a_payee s :
  (forall id b,
      fits_columns (PUT_workers id b) ->
      succeeded (answer (app (PUT_workers id b)) s) = true ->
      exists n,
        id = Id n /\
        Forall2 (fun w w' =>
                   if Worker.id w =? n
                   then WorkerBody.name b = Value (Worker.name w') /\
                        w' = Worker.mk (Worker.id w) (Worker.name w')
                               (value_of (WorkerBody.role b))
                               (stored_decimal (WorkerBody.hourly_rate b))
                               (value_of (WorkerBody.contact b))
                               (Worker.total_paid w) (Worker.last_payment_date w)
                               (Worker.created_at w)
                   else w' = w)
                (workers (contents s))
                (workers (contents (after (app (PUT_workers id b)) s))) /\
        answer (app (PUT_workers id b)) s
        = inr (res_json (first_row (option_map worker_row
                 (find (fun w => Worker.id w =? n)
                       (workers (contents (after (app (PUT_workers id b)) s)))))))) /\
  (forall id b,
      fits_columns (PUT_vendors id b) ->
      succeeded (answer (app (PUT_vendors id b)) s) = true ->
      exists n,
        id = Id n /\
        Forall2 (fun v v' =>
                   if Vendor.id v =? n
                   then VendorBody.name b = Value (Vendor.name v') /\
                        v' = Vendor.mk (Vendor.id v) (Vendor.name v')
                               (value_of (VendorBody.category b))
                               (value_of (VendorBody.contact b))
                               (value_of (VendorBody.rating b))
                               (Vendor.total_paid v) (Vendor.last_payment_date v)
                               (Vendor.created_at v)
                   else v' = v)
                (vendors (contents s))
                (vendors (contents (after (app (PUT_vendors id b)) s))) /\
        answer (app (PUT_vendors id b)) s
        = inr (res_json (first_row (option_map vendor_row
                 (find (fun v => Vendor.id v =? n)
                       (vendors (contents (after (app (PUT_vendors id b)) s)))))))).
Proof.
  split; intros id b _; [apply put_workers_outcome|apply put_vendors_outcome].
Qed.

Lemma put_replaces_the_editable_columns_of_a_payee_witness :
  workers (contents (after (app (PUT_workers (Id 1)
             (WorkerBody.mk (Value "Ada O."%string) Null Null Null))) same_day))
  = [Worker.mk 1 "Ada O." None None None (Some 30000) (Some (mkDate 2024 2 10)) 10] /\
  vendors (contents (after (app (PUT_vendors (Id 1)
             (VendorBody.mk (Value "Brickyard Ltd"%string) Null Null (Value 4)))) site))
  = [Vendor.mk 1 "Brickyard Ltd" None None (Some 4) (Some 0) None 10] /\
  (exists n,
      Id 1 = Id n /\
      answer (app (PUT_workers (Id 1) (WorkerBody.mk (Value "Ada O."%string) Null Null Null)))
             same_day
      = inr (res_json (first_row (option_map worker_row
               (find (fun w => Worker.id w =? n)
                  (workers (contents (after (app (PUT_workers (Id 1)
                     (WorkerBody.mk (Value "Ada O."%string) Null Null Null))) same_day)))))))) /\
  (exists n,
      Id 1 = Id n /\
      answer (app (PUT_vendors (Id 1)
                     (VendorBody.mk (Value "Brickyard Ltd"%string) Null Null (Value 4)))) site
      = inr (res_json (first_row (option_map vendor_row
               (find (fun v => Vendor.id v =? n)
                  (vendors (contents (after (app (PUT_vendors (Id 1)
                     (VendorBody.mk (Value "Brickyard Ltd"%string) Null Null (Value 4))))
                     site)))))))).
Proof.
  split; [reflexivity|]. split; [reflexivity|]. split.
  - destruct (proj1 (put_replaces_the_editable_columns_of_a_payee same_day) (Id 1)
                (WorkerBody.mk (Value "Ada O."%string) Null Null Null)
                ltac:(fits) eq_refl)
      as (n & Hn & _ & Hanswer).
    exists n. split; assumption.
  - destruct (proj2 (put_replaces_the_editable_columns_of_a_payee site) (Id 1)
                (VendorBody.mk (Value "Brickyard Ltd"%string) Null Null (Value 4))
                ltac:(fits) eq_refl)
      as (n & Hn & _ & Hanswer).
    exists n. split; assumption.
Defined.


Lemma put_projects_outcome id b s :
  succeeded (answer (app (PUT_projects id b)) s) = true ->
  exists n,
    id = Id n /\
    Forall2 (fun p p' =>
               if Project.id p =? n
               then ProjectBody.name b = Value (Project.name p') /\
                    p' = Project.mk (Project.id p) (Project.name p')
                           (Project.location p) (Project.units p)
                           (value_of (ProjectBody.status b))
                           (stored_decimal (ProjectBody.budget b))
                           (stored_decimal (ProjectBody.spent b))
                           (value_of (ProjectBody.start_date b))
                           (value_of (ProjectBody.progress_percent b))
                           (Project.created_at p)
               else p' = p)
            (projects (contents s)) (projects (contents (after (app (PUT_projects id b)) s))) /\
    answer (app (PUT_projects id b)) s
    = inr (res_json (first_row (option_map project_row
             (find (fun p => Project.id p =? n)
                   (projects (contents (after (app (PUT_projects id b)) s))))))).
Proof.
  simpl app. unfold put_projects.
  put_outcome UPDATE_projects_inv set_project_fields_inv set_project_fields_id.
Qed.

Lemma put_inventory_outcome id b s :
  succeeded (answer (app (PUT_inventory id b)) s) = true ->
  exists n,
    id = Id n /\
    Forall2 (fun i i' =>
               if Inventory.id i =? n
               then InventoryBody.name b = Value (Inventory.name i') /\
                    i' = Inventory.mk (Inventory.id i) (Inventory.name i')
                           (value_of (InventoryBody.category b))
                           (value_of (InventoryBody.quantity b))
                           (stored_decimal (InventoryBody.unit_price b))
                           (value_of (InventoryBody.min_stock b))
                           (Inventory.created_at i)
               else i' = i)
            (inventory (contents s))
            (inventory (contents (after (app (PUT_inventory id b)) s))) /\
    answer (app (PUT_inventory id b)) s
    = inr (res_json (first_row (option_map inventory_row
             (find (fun i => Inventory.id i =? n)
                   (inventory (contents (after (app (PUT_inventory id b)) s))))))).
Proof.
  simpl app. unfold put_inventory.
  put_outcome UPDATE_inventory_inv set_inventory_fields_inv set_inventory_fields_id.
Qed.

(** X10.  A successful PUT /api/projects/:id or PUT /api/inventory/:id
    whose id, integers and texts fit their columns (INTEGER, VARCHAR(n))
    overwrites every column of its SET list with the body's value, or with
    NULL when the body lacks the field: a project edited without [spent]
    or [progress_percent] loses them.  The columns outside the SET list
    stay: id and created_at, and for a project also location and units,
    which no PUT can change.  Other rows are unchanged and the answer is
    the row as stored. *)
Theorem put_replaces_the_listed_columns_of_a_project_or_item s :
  (forall id b,
      fits_columns (PUT_projects id b) ->
      succeeded (answer (app (PUT_projects id b)) s) = true ->
      exists n,
        id = Id n /\
        Forall2 (fun p p' =>
                   if Project.id p =? n
                   then ProjectBody.name b = Value (Project.name p') /\
                        p' = Project.mk (Project.id p) (Project.name p')
                               (Project.location p) (Project.units p)
                               (value_of (ProjectBody.status b))
                               (stored_decimal (ProjectBody.budget b))
                               (stored_decimal (ProjectBody.spent b))
                               (value_of (ProjectBody.start_date b))
                               (value_of (ProjectBody.progress_percent b))
                               (Project.created_at p)
                   else p' = p)
                (projects (contents s))
                (projects (contents (after (app (PUT_projects id b)) s))) /\
        answer (app (PUT_projects id b)) s
        = inr (res_json (first_row (option_map project_row
                 (find (fun p => Project.id p =? n)
                       (projects (contents (after (app (PUT_projects id b)) s)))))))) /\
  (forall id b,
      fits_columns (PUT_inventory id b) ->
      succeeded (answer (app (PUT_inventory id b)) s) = true ->
      exists n,
        id = Id n /\
        Forall2 (fun i i' =>
                   if Inventory.id i =? n
                   then InventoryBody.name b = Value (Inventory.name i') /\
                        i' = Inventory.mk (Inventory.id i) (Inventory.name i')
                               (value_of (InventoryBody.category b))
                               (value_of (InventoryBody.quantity b))
                               (stored_decimal (InventoryBody.unit_price b))
                               (value_of (InventoryBody.min_stock b))
                               (Inventory.created_at i)
                   else i' = i)
                (inventory (contents s))
                (inventory (contents (after (app (PUT_inventory id b)) s))) /\
        answer (app (PUT_inventory id b)) s
        = inr (res_json (first_row (option_map inventory_row
                 (find (fun i => Inventory.id i =? n)
                       (inventory (contents (after (app (PUT_inventory id b)) s)))))))).
Proof.
  split; intros id b _; [apply put_projects_outcome|apply put_inventory_outcome].
Qed.

Lemma put_replaces_the_listed_columns_of_a_project_or_item_witness :
  projects (contents (after (app (PUT_projects (Id 1) (rename "Tower A"))) yard))
  = [Project.mk 1 "Tower A" (Some "Lekki"%string) None None None None None None 10] /\
  inventory (contents (after (app (PUT_inventory (Id 1)
               (InventoryBody.mk (Value "Cement"%string) Null (Value 25) Null Null))) yard))
  = [Inventory.mk 1 "Cement" None (Some 25) None None 10] /\
  (exists n,
      Id 1 = Id n /\
      answer (app (PUT_projects (Id 1) (rename "Tower A"))) yard
      = inr (res_json (first_row (option_map project_row
               (find (fun p => Project.id p =? n)
                  (projects (contents (after (app (PUT_projects (Id 1) (rename "Tower A")))
                                             yard)))))))) /\
  (exists n,
      Id 1 = Id n /\
      answer (app (PUT_inventory (Id 1)
                     (InventoryBody.mk (Value "Cement"%string) Null (Value 25) Null Null))) yard
      = inr (res_json (first_row (option_map inventory_row
               (find (fun i => Inventory.id i =? n)
                  (inventory (contents (after (app (PUT_inventory (Id 1)
                     (InventoryBody.mk (Value "Cement"%string) Null (Value 25) Null Null)))
                     yard)))))))).
Proof.
  split; [reflexivity|]. split; [reflexivity|]. split.
  - destruct (proj1 (put_replaces_the_listed_columns_of_a_project_or_item yard) (Id 1)
                (rename "Tower A") ltac:(fits) eq_refl)
      as (n & Hn & _ & Hanswer).
    exists n. split; assumption.
  - destruct (proj2 (put_replaces_the_listed_columns_of_a_project_or_item yard) (Id 1)
                (InventoryBody.mk (Value "Cement"%string) Null (Value 25) Null Null)
                ltac:(fits) eq_refl)
      as (n & Hn & _ & Hanswer).
    exists n. split; assumption.
Defined.

(** ** The list routes *)

Lemma StronglySorted_impl {A} (R R' : A -> A -> Prop) l :
  (forall a b, R a b -> R' a b) -> StronglySorted R l -> StronglySorted R' l.
Proof.
  intros H. induction 1 as [|x l _ IH Hx]; constructor; [assumption|].
  eapply Forall_impl; [|exact Hx]. intros b. apply H.
Qed.

Lemma order_by_created_desc {A} (at_ : A -> timestamp) (wrap : A -> any_row) visit l :
  (forall a, created (wrap a) = at_ a) ->
  is_scan visit ->
  Permutation (map wrap (order_by_desc (fun a b => at_ a <=? at_ b) (visit l))) (map wrap l) /\
  newest_first (map wrap (order_by_desc (fun a b => at_ a <=? at_ b) (visit l))).
Proof.
  intros Hwrap Hscan. split.
  - apply Permutation_map. rewrite order_by_desc_permutation. apply Hscan.
  - apply StronglySorted_map.
    eapply StronglySorted_impl; [|apply order_by_desc_sorted].
    + intros a b H. simpl in H. rewrite !Hwrap. now apply Z.leb_le.
    + intros x y H. apply Z.leb_gt in H. apply Z.leb_le. lia.
    + intros x y z H1 H2. apply Z.leb_le in H1, H2. apply Z.leb_le. lia.
Qed.

(** X11.  GET /api/projects, /api/workers, /api/vendors and /api/inventory
    answer status 200 with every row of their table, each once, newest
    created first, and change nothing; a table without rows gives the
    empty list. *)
Theorem a_list_route_answers_the_table_newest_first req r s :
  listing req = Some r ->
  scanned req ->
  exists l,
    answer (app req) s = inr (res_json (rows l)) /\
    Permutation l (table_rows r (contents s)) /\
    newest_first l /\
    contents (after (app req) s) = contents s.
Proof.
  intros Hlist Hscan.
  destruct req; try discriminate Hlist; simpl in Hlist; injection Hlist as <-;
    simpl in Hscan; simpl app;
    unfold answer, after, get_projects, get_workers, get_vendors, get_inventory;
    rewrite single_statement_outcome by apply on_tables_effect;
    unfold SELECT_projects, SELECT_workers, SELECT_vendors, SELECT_inventory;
    rewrite effect_on_tables; unfold ok; cbn [fst snd];
    eexists; (split; [reflexivity|]).
  all: apply (proj1 (and_assoc _ _ _)); split;
    [ apply order_by_created_desc; [reflexivity|exact Hscan]
    | destruct s as [[t sv] log]; reflexivity ].
Qed.

Lemma a_list_route_answers_the_table_newest_first_witness :
  exists l,
    answer (app (GET_workers (fun l => l))) same_day = inr (res_json (rows l)) /\
    Permutation l (table_rows Workers (contents same_day)) /\
    newest_first l /\
    contents (after (app (GET_workers (fun l => l))) same_day) = contents same_day.
Proof.
  apply (a_list_route_answers_the_table_newest_first (GET_workers (fun l => l)) Workers same_day
           eq_refl (fun l => Permutation_refl l)).
Defined.

(** ** The books balance *)

Lemma find_app {A} (p : A -> bool) l l' :
  find p (l ++ l') = match find p l with Some x => Some x | None => find p l' end.
Proof. induction l as [|x l IH]; simpl; [reflexivity|]. destruct (p x); auto. Qed.

Lemma existsb_find {A} (p : A -> bool) l :
  existsb p l = true -> exists x, find p l = Some x.
Proof.
  induction l as [|x l IH]; simpl; [discriminate|].
  destruct (p x); [eauto|exact IH].
Qed.

Lemma filter_owned_other m n led :
  m <> n -> filter (owned_by m) (filter (fun en => negb (owned_by n en)) led)
            = filter (owned_by m) led.
Proof.
  intros Hmn. induction led as [|en led IH]; simpl; [reflexivity|].
  destruct (owned_by n en) eqn:Hn; simpl.
  - rewrite IH. unfold owned_by in *. destruct (payee_id en) as [o|]; [|reflexivity].
    apply Z.eqb_eq in Hn. subst o. apply Z.eqb_neq in Hmn.
    rewrite Z.eqb_sym in Hmn. now rewrite Hmn.
  - now rewrite IH.
Qed.

Lemma find_filter_other n m (accs : list account) :
  m <> n ->
  find (fun a => payee a =? m) (filter (fun a => negb (payee a =? n)) accs)
  = find (fun a => payee a =? m) accs.
Proof.
  intros Hmn. induction accs as [|a accs IH]; simpl; [reflexivity|].
  destruct (payee a =? n) eqn:Hn; simpl.
  - apply Z.eqb_eq in Hn. apply Z.eqb_neq in Hmn. rewrite Z.eqb_sym in Hmn.
    rewrite Hn, Hmn. exact IH.
  - destruct (payee a =? m); [reflexivity|exact IH].
Qed.

Lemma existsb_filter_other n m (accs : list account) :
  existsb (fun a => payee a =? m) (filter (fun a => negb (payee a =? n)) accs) = true ->
  m <> n /\ existsb (fun a => payee a =? m) accs = true.
Proof.
  intros H. apply existsb_exists in H. destruct H as (a & Ha & Hm).
  apply filter_In in Ha. destruct Ha as [Ha Hn].
  apply Z.eqb_eq in Hm. apply negb_true_iff, Z.eqb_neq in Hn. split; [congruence|].
  apply existsb_exists. exists a. split; [assumption|]. now apply Z.eqb_eq.
Qed.

Lemma balanced_new accs led id :
  balanced accs led -> owned accs led ->
  existsb (fun a => payee a =? id) accs = false ->
  balanced (accs ++ [mkAccount id (Some 0) None]) led.
Proof.
  intros Hb Ho Hfresh n Hex. rewrite find_app.
  destruct (existsb (fun a => payee a =? n) accs) eqn:Hn.
  - destruct (existsb_find _ _ Hn) as (x & Hx). rewrite Hx.
    specialize (Hb n Hn). now rewrite Hx in Hb.
  - rewrite existsb_app, Hn in Hex. simpl in Hex. rewrite orb_false_r in Hex.
    apply Z.eqb_eq in Hex. subst n.
    assert (Hnone : find (fun a => payee a =? id) accs = None).
    { destruct (find _ accs) as [x|] eqn:Hx; [|reflexivity].
      apply find_some in Hx. destruct Hx as [Hin Hp].
      assert (existsb (fun a => payee a =? id) accs = true)
        by (apply existsb_exists; eauto).
      congruence. }
    rewrite Hnone. simpl. rewrite Z.eqb_refl. simpl.
    rewrite filter_none; [reflexivity|].
    intros en Hen. unfold owned in Ho. rewrite Forall_forall in Ho. specialize (Ho en Hen).
    unfold owned_by. destruct (payee_id en) as [m|]; [|reflexivity].
    destruct (m =? id) eqn:Hm; [|reflexivity].
    apply Z.eqb_eq in Hm. subst m. congruence.
Qed.

Lemma balanced_delete accs led n :
  balanced accs led ->
  balanced (filter (fun a => negb (payee a =? n)) accs)
           (if existsb (fun a => payee a =? n) accs
            then filter (fun en => negb (owned_by n en)) led
            else led).
Proof.
  intros Hb m Hex. apply existsb_filter_other in Hex. destruct Hex as [Hmn Hex].
  rewrite find_filter_other by assumption.
  rewrite (Hb m Hex).
  destruct (existsb (fun a => payee a =? n) accs); [|reflexivity].
  now rewrite filter_owned_other.
Qed.

Lemma credited_payee n a d l l' :
  Forall2 (credited n a d) l l' -> map payee l' = map payee l.
Proof.
  induction 1 as [|x y l l' Hxy _ IH]; simpl; [reflexivity|].
  f_equal; [|exact IH]. unfold credited in Hxy.
  destruct (payee x =? n); [tauto|now subst].
Qed.

Lemma existsb_payee m (l l' : list account) :
  map payee l' = map payee l ->
  existsb (fun a => payee a =? m) l' = existsb (fun a => payee a =? m) l.
Proof.
  intros H.
  rewrite <- (existsb_through payee (fun a => payee a =? m) (fun z => z =? m) l')
    by reflexivity.
  rewrite <- (existsb_through payee (fun a => payee a =? m) (fun z => z =? m) l)
    by reflexivity.
  now rewrite H.
Qed.

Lemma credited_balance n a d l l' m :
  whole_hundredths a ->
  Forall2 (credited n a d) l l' ->
  existsb (fun x => payee x =? m) l = true ->
  match find (fun x => payee x =? m) l' with
  | Some x => coalesce (total_paid x) 0
  | None => 0
  end
  = match find (fun x => payee x =? m) l with
    | Some x => coalesce (total_paid x) 0
    | None => 0
    end + (if m =? n then Decimal.to_hundredths a else 0).
Proof.
  intros Ha. induction 1 as [|x y l l' Hxy _ IH]; simpl; [discriminate|].
  unfold credited in Hxy.
  destruct (payee x =? n) eqn:Hn.
  - destruct Hxy as (Hp & Ht & _). rewrite Hp.
    destruct (payee x =? m) eqn:Hm.
    + intros _. apply Z.eqb_eq in Hn, Hm.
      assert (Hmn : (m =? n) = true) by (apply Z.eqb_eq; congruence). rewrite Hmn.
      apply add_to_total_inv in Ht. rewrite Ht. simpl.
      now apply to_hundredths_sum_whole.
    + simpl. exact IH.
  - subst y. destruct (payee x =? m) eqn:Hm.
    + intros _. apply Z.eqb_eq in Hm. apply Z.eqb_neq in Hn.
      assert (Hmn : (m =? n) = false) by (apply Z.eqb_neq; congruence). rewrite Hmn. lia.
    + simpl. exact IH.
Qed.

Lemma balanced_credit accs accs' led en n a d :
  balanced accs led ->
  whole_hundredths a ->
  Forall2 (credited n a d) accs accs' ->
  payee_id en = Some n -> amount en = Decimal.to_hundredths a ->
  balanced accs' (led ++ [en]).
Proof.
  intros Hb Ha Hc Hn Hamount m Hex.
  rewrite (existsb_payee m accs accs' (credited_payee _ _ _ _ _ Hc)) in Hex.
  rewrite (credited_balance n a d accs accs' m Ha Hc Hex), (Hb m Hex).
  rewrite filter_app. simpl.
  assert (Hen : owned_by m en = (m =? n)) by (unfold owned_by; rewrite Hn; apply Z.eqb_sym).
  rewrite Hen. destruct (m =? n).
  - rewrite sum_amounts_app. lia.
  - rewrite app_nil_r. lia.
Qed.

Lemma frame_of_the_books k req s :
  idle s ->
  ~ In (payee_relation k) (writes req) -> ~ In (ledger_relation k) (writes req) ->
  accounts k (contents (after (app req) s)) = accounts k (contents s) /\
  ledger k (contents (after (app req) s)) = ledger k (contents s).
Proof.
  intros Hs Hp Hl. rewrite (app_tables req s Hs).
  pose proof (tables_after_frame req _ (contents s) Hp) as H1.
  pose proof (tables_after_frame req _ (contents s) Hl) as H2.
  destruct k; simpl in H1, H2; unfold accounts, ledger; now rewrite H1, H2.
Qed.

Lemma books_after k req s :
  idle s ->
  let t := contents s in
  let t' := contents (after (app req) s) in
  (accounts k t' = accounts k t /\ ledger k t' = ledger k t)
  \/ (exists id,
        existsb (fun a => payee a =? id) (accounts k t) = false /\
        accounts k t' = accounts k t ++ [mkAccount id (Some 0) None] /\
        ledger k t' = ledger k t)
  \/ (exists n,
        accounts k t' = filter (fun a => negb (payee a =? n)) (accounts k t) /\
        ledger k t' = if existsb (fun a => payee a =? n) (accounts k t)
                      then filter (fun en => negb (owned_by n en)) (ledger k t)
                      else ledger k t)
  \/ (exists b n a d en,
        payment_of req = Some b /\ PaymentBody.amount b = Value a /\
        existsb (fun x => payee x =? n) (accounts k t) = true /\
        Forall2 (credited n a d) (accounts k t) (accounts k t') /\
        ledger k t' = ledger k t ++ [en] /\
        payee_id en = Some n /\ amount en = Decimal.to_hundredths a).
Proof.
  intros Hs t t'. subst t t'.
  pose proof (frame_of_the_books k req s Hs) as Hframe.
  destruct k;
  destruct req as [ | visit | e b | id b | id | visit | e b | id b | id | visit id | e id b
                  | visit | e b | id b | id | visit id | e id b | visit | e b | id b | id | ];
    try (left; apply Hframe; simpl; intuition discriminate); clear Hframe.
  - (* POST /api/workers *)
    pose proof (tables_after_frame (POST_workers e b) WorkerPayments (contents s)) as Hl.
    rewrite (app_tables _ s Hs). simpl in Hl. simpl tables_after. unfold ledger.
    rewrite Hl by (intuition discriminate). clear Hl. unfold statement_tables.
    destruct (effect _ (contents s)) as [err|[x t']] eqn:H; [now left|].
    unfold INSERT_INTO_workers in H. statement_shape H.
    all: right; left; exists (nextval e).
    all: match goal with
         | H : insert_row _ _ _ = inr _ |- _ => apply insert_row_inv in H; destruct H as [-> H]
         end.
    all: unfold accounts; simpl; rewrite map_app; simpl; split; [|split; reflexivity].
    all: rewrite (existsb_through account_of_worker (fun w => Worker.id w =? nextval e))
           by reflexivity; assumption.
  - (* PUT /api/workers/:id *)
    pose proof (tables_after_frame (PUT_workers id b) WorkerPayments (contents s)) as Hl.
    rewrite (app_tables _ s Hs). simpl in Hl. simpl tables_after. unfold ledger.
    rewrite Hl by (intuition discriminate). clear Hl. unfold statement_tables.
    destruct (effect _ (contents s)) as [err|[x t']] eqn:H; [now left|].
    unfold UPDATE_workers in H. statement_shape H.
    all: left; split; [|reflexivity]; unfold accounts; simpl.
    all: match goal with
         | H : update_where _ ?set ?l0 = inr ?l |- _ =>
             eapply (update_where_view account_of_worker); [|exact H];
             eauto using set_worker_fields_account
         end.
  - (* DELETE /api/workers/:id *)
    rewrite (app_tables _ s Hs). simpl tables_after. unfold statement_tables, DELETE_FROM_workers.
    rewrite effect_on_tables. destruct id as [|n]; simpl; [now left|].
    right. right. left. exists n. unfold accounts, ledger, delete_where. simpl. split.
    + symmetry. apply filter_through. reflexivity.
    + fold (delete_where
              (fun p => references Worker.id
                          (filter (fun w => Worker.id w =? n) (workers (contents s)))
                          (WorkerPayment.worker_id p))
              (worker_payments (contents s))).
      rewrite cascade_worker_payments.
      rewrite (existsb_through account_of_worker (fun w => Worker.id w =? n)) by reflexivity.
      destruct (existsb _ (workers (contents s))); [|reflexivity].
      symmetry. apply filter_through. reflexivity.
  - (* POST /api/workers/:id/payments *)
    destruct (recordPayment_outcome a_worker e id b s Hs)
      as (r & s' & Hrun & _ & [(n & a & d & c & -> & Ha & Hd & Hc & Hex & Hok)|(err & _ & Hsame & _)]);
      simpl in Hrun; unfold after; simpl app; rewrite Hrun; simpl.
    + right. right. right. cbv zeta in Hok. destruct Hok as (_ & _ & Hled & Hacc & _).
      eexists b, n, a, d, _. split; [reflexivity|]. split; [assumption|].
      split; [exact Hex|]. split; [assumption|]. split; [exact Hled|]. split; [reflexivity|].
      simpl. now apply coerce_inv in Hc.
    + left. now rewrite Hsame.
  - (* POST /api/vendors *)
    pose proof (tables_after_frame (POST_vendors e b) VendorPayments (contents s)) as Hl.
    rewrite (app_tables _ s Hs). simpl in Hl. simpl tables_after. unfold ledger.
    rewrite Hl by (intuition discriminate). clear Hl. unfold statement_tables.
    destruct (effect _ (contents s)) as [err|[x t']] eqn:H; [now left|].
    unfold INSERT_INTO_vendors in H. statement_shape H.
    all: right; left; exists (nextval e).
    all: match goal with
         | H : insert_row _ _ _ = inr _ |- _ => apply insert_row_inv in H; destruct H as [-> H]
         end.
    all: unfold accounts; simpl; rewrite map_app; simpl; split; [|split; reflexivity].
    all: rewrite (existsb_through account_of_vendor (fun v => Vendor.id v =? nextval e))
           by reflexivity; assumption.
  - (* PUT /api/vendors/:id *)
    pose proof (tables_after_frame (PUT_vendors id b) VendorPayments (contents s)) as Hl.
    rewrite (app_tables _ s Hs). simpl in Hl. simpl tables_after. unfold ledger.
    rewrite Hl by (intuition discriminate). clear Hl. unfold statement_tables.
    destruct (effect _ (contents s)) as [err|[x t']] eqn:H; [now left|].
    unfold UPDATE_vendors in H. statement_shape H.
    all: left; split; [|reflexivity]; unfold accounts; simpl.
    all: match goal with
         | H : update_where _ ?set ?l0 = inr ?l |- _ =>
             eapply (update_where_view account_of_vendor); [|exact H];
             eauto using set_vendor_fields_account
         end.
  - (* DELETE /api/vendors/:id *)
    rewrite (app_tables _ s Hs). simpl tables_after. unfold statement_tables, DELETE_FROM_vendors.
    rewrite effect_on_tables. destruct id as [|n]; simpl; [now left|].
    right. right. left. exists n. unfold accounts, ledger, delete_where. simpl. split.
    + symmetry. apply filter_through. reflexivity.
    + fold (delete_where
              (fun p => references Vendor.id
                          (filter (fun v => Vendor.id v =? n) (vendors (contents s)))
                          (VendorPayment.vendor_id p))
              (vendor_payments (contents s))).
      rewrite cascade_vendor_payments.
      rewrite (existsb_through account_of_vendor (fun v => Vendor.id v =? n)) by reflexivity.
      destruct (existsb _ (vendors (contents s))); [|reflexivity].
      symmetry. apply filter_through. reflexivity.
  - (* POST /api/vendors/:id/payments *)
    destruct (recordPayment_outcome a_vendor e id b s Hs)
      as (r & s' & Hrun & _ & [(n & a & d & c & -> & Ha & Hd & Hc & Hex & Hok)|(err & _ & Hsame & _)]);
      simpl in Hrun; unfold after; simpl app; rewrite Hrun; simpl.
    + right. right. right. cbv zeta in Hok. destruct Hok as (_ & _ & Hled & Hacc & _).
      eexists b, n, a, d, _. split; [reflexivity|]. split; [assumption|].
      split; [exact Hex|]. split; [assumption|]. split; [exact Hled|]. split; [reflexivity|].
      simpl. now apply coerce_inv in Hc.
    + left. now rewrite Hsame.
Qed.

Lemma owned_of_references t :
  references_resolved t -> forall k, owned (accounts k t) (ledger k t).
Proof.
  intros [Hw Hv] k. unfold owned, resolved in *.
  destruct k; unfold accounts, ledger; apply Forall_map.
  - eapply Forall_impl; [|exact Hw]. intros p Hp. simpl.
    apply foreign_key_ok in Hp. destruct (WorkerPayment.worker_id p) as [m|]; [|exact I].
    rewrite (existsb_through account_of_worker (fun w => Worker.id w =? m)) by reflexivity.
    now apply existsb_key_In.
  - eapply Forall_impl; [|exact Hv]. intros p Hp. simpl.
    apply foreign_key_ok in Hp. destruct (VendorPayment.vendor_id p) as [m|]; [|exact I].
    rewrite (existsb_through account_of_vendor (fun v => Vendor.id v =? m)) by reflexivity.
    now apply existsb_key_In.
Qed.

Lemma books_balance_balanced t :
  books_balance t <-> forall k, balanced (accounts k t) (ledger k t).
Proof. split; intros H k n; exact (H k n). Qed.

Lemma app_books_balance req s :
  idle s ->
  references_resolved (contents s) ->
  books_balance (contents s) ->
  in_hundredths req ->
  books_balance (contents (after (app req) s)).
Proof.
  intros Hs Hr Hb Hreq. apply books_balance_balanced. intros k.
  apply books_balance_balanced in Hb. specialize (Hb k).
  pose proof (owned_of_references _ Hr k) as Ho.
  destruct (books_after k req s Hs)
    as [[-> ->]|[(id & Hfresh & -> & ->)|[(n & -> & ->)|
        (b & n & a & d & en & Hpay & Ha & _ & Hc & -> & Hn & Hamount)]]].
  - exact Hb.
  - now apply balanced_new.
  - now apply balanced_delete.
  - apply (balanced_credit (accounts k (contents s)) _ _ _ n a d); try assumption.
    unfold in_hundredths in Hreq. rewrite Hpay in Hreq.
    unfold amount_is in Hreq. now rewrite Ha in Hreq.
Qed.

Lemma site_references : references_resolved (contents site).
Proof. split; constructor. Qed.

Lemma site_books : books_balance (contents site).
Proof.
  intros k n. destruct k; unfold payee_exists, consistent, balance, account_of, entries_of;
    cbn [site contents backend data accounts ledger workers vendors worker_payments
         vendor_payments map existsb find filter account_of_worker account_of_vendor
         payee ada brickyard Worker.id Vendor.id];
    destruct (1 =? n); simpl; intros H; try discriminate H; reflexivity.
Qed.

(** X12.  Served alone, every route keeps the books: if no transaction is
    open, every payment row references an existing payee and every
    payee's total_paid (NULL read as 0) is the sum of the amounts of its
    ledger entries, then after any request with no other request in
    flight, whose payment amount, if it carries one, has at most two
    fractional digits, the totals are again the ledger sums, for every
    worker and vendor and whether the request succeeds or fails. *)
Theorem every_request_keeps_the_books req s :
  idle s ->
  references_resolved (contents s) ->
  books_balance (contents s) ->
  in_hundredths req ->
  references_resolved (contents (after (app req) s)) /\
  books_balance (contents (after (app req) s)).
Proof.
  intros Hs Hr Hb Hreq. split.
  - rewrite (app_tables req s Hs). now apply tables_after_references_resolved.
  - now apply app_books_balance.
Qed.

Lemma every_request_keeps_the_books_witness :
  references_resolved
    (contents (after (app (POST_worker_payments (at_ 1 100) (Id 1)
                             (pay 12.5 (mkDate 2024 3 1) "wages"))) site)) /\
  books_balance
    (contents (after (app (POST_worker_payments (at_ 1 100) (Id 1)
                             (pay 12.5 (mkDate 2024 3 1) "wages"))) site)).
Proof.
  apply (every_request_keeps_the_books
           (POST_worker_payments (at_ 1 100) (Id 1) (pay 12.5 (mkDate 2024 3 1) "wages"))
           site eq_refl site_references site_books).
  reflexivity.
Defined.

Lemma serve_books_balance reqs :
  forall s,
    idle s -> references_resolved (contents s) -> books_balance (contents s) ->
    Forall in_hundredths reqs ->
    books_balance (contents (serve reqs s)).
Proof.
  induction reqs as [|req reqs IH]; intros s Hs Hr Hb Hreqs; simpl; [exact Hb|].
  inversion Hreqs as [|x l Hreq Hrest]; subst.
  apply IH; try assumption.
  - apply app_answers_and_stays_idle. exact Hs.
  - rewrite (app_tables req s Hs). now apply tables_after_references_resolved.
  - now apply app_books_balance.
Qed.

(** X13.  Starting from the empty tables of [initDB], after any sequence
    of requests served one after the other, each answered before the next
    begins, in which every payment amount has at most two fractional
    digits, whatever the requests are and whichever of them fail, the
    total_paid of every worker and vendor is the sum of the amounts of
    its ledger entries. *)
Theorem served_books_balance reqs :
  Forall in_hundredths reqs ->
  books_balance (contents (serve reqs empty_site)).
Proof.
  apply serve_books_balance.
  - reflexivity.
  - split; constructor.
  - intros k n. destruct k; discriminate.
Qed.

Lemma served_books_balance_witness :
  balance a_worker 1
    (contents (serve [POST_workers (at_ 1 10) (WorkerBody.mk (Value "Ada"%string) Null Null Null);
                      POST_worker_payments (at_ 1 100) (Id 1)
                        (pay 12.5 (mkDate 2024 3 1) "wages");
                      POST_worker_payments (at_ 2 200) (Id 1)
                        (pay (-2.25) (mkDate 2024 3 2) "refund")] empty_site)) = 1025 /\
  books_balance
    (contents (serve [POST_workers (at_ 1 10) (WorkerBody.mk (Value "Ada"%string) Null Null Null);
                      POST_worker_payments (at_ 1 100) (Id 1)
                        (pay 12.5 (mkDate 2024 3 1) "wages");
                      POST_worker_payments (at_ 2 200) (Id 1)
                        (pay (-2.25) (mkDate 2024 3 2) "refund")] empty_site)).
Proof.
  split; [reflexivity|].
  apply served_books_balance.
  repeat constructor.
Defined.

(** ** POST creates the row of the body *)

Ltac insert_shape H :=
  rewrite effect_on_tables in H;
  unfold decimal, bound, bound_id, not_null, and_then, ok, raise in H; simpl in H;
  repeat step H; inversion H; subst; clear H;
  repeat match goal with
         | E : Decimal.coerce _ _ = Some _ |- _ => apply coerce_inv in E; subst
         | E : insert_row _ _ _ = inr _ |- _ => apply insert_row_inv in E; destruct E as [-> E]
         end;
  eexists; repeat split; eassumption.

Lemma INSERT_INTO_workers_inv e name role rate contact t out t' :
  effect (INSERT_INTO_workers e name role rate contact) t = inr (out, t') ->
  exists nm,
    name = Value nm /\
    out = [Worker.mk (nextval e) nm (value_of role) (stored_decimal rate) (value_of contact)
                     (Some 0) None (current_timestamp e)] /\
    t' = with_workers (workers t ++ out) t /\
    existsb (fun w => Worker.id w =? nextval e) (workers t) = false.
Proof. intros H. unfold INSERT_INTO_workers in H. insert_shape H. Qed.

Lemma INSERT_INTO_vendors_inv e name category contact rating t out t' :
  effect (INSERT_INTO_vendors e name category contact rating) t = inr (out, t') ->
  exists nm,
    name = Value nm /\
    out = [Vendor.mk (nextval e) nm (value_of category) (value_of contact) (value_of rating)
                     (Some 0) None (current_timestamp e)] /\
    t' = with_vendors (vendors t ++ out) t /\
    existsb (fun v => Vendor.id v =? nextval e) (vendors t) = false.
Proof. intros H. unfold INSERT_INTO_vendors in H. insert_shape H. Qed.

Lemma INSERT_INTO_projects_inv e name budget start_date status location t out t' :
  effect (INSERT_INTO_projects e name budget start_date status location) t = inr (out, t') ->
  exists nm,
    name = Value nm /\
    out = [Project.mk (nextval e) nm (value_of location) None (value_of status)
                      (stored_decimal budget) (Some 0) (value_of start_date) (Some 0)
                      (current_timestamp e)] /\
    t' = with_projects (projects t ++ out) t /\
    existsb (fun p => Project.id p =? nextval e) (projects t) = false.
Proof. intros H. unfold INSERT_INTO_projects in H. insert_shape H. Qed.

Lemma INSERT_INTO_inventory_inv e name category quantity unit_price min_stock t out t' :
  effect (INSERT_INTO_inventory e name category quantity unit_price min_stock) t
  = inr (out, t') ->
  exists nm,
    name = Value nm /\
    out = [Inventory.mk (nextval e) nm (value_of category) (value_of quantity)
                        (stored_decimal unit_price) (value_of min_stock)
                        (current_timestamp e)] /\
    t' = with_inventory (inventory t ++ out) t /\
    existsb (fun i => Inventory.id i =? nextval e) (inventory t) = false.
Proof. intros H. unfold INSERT_INTO_inventory in H. insert_shape H. Qed.

Ltac post_outcome inv :=
  unfold answer, after;
  rewrite single_statement_outcome by apply on_tables_effect;
  match goal with
  | |- context [effect ?q ?t] =>
      let H := fresh "H" in
      destruct (effect q t) as [?err|[?out ?t']] eqn:H; [simpl; discriminate|];
      cbn [fst snd]; intros _; apply inv in H;
      let nm := fresh "nm" in
      let Hnm := fresh "Hnm" in
      let Hfresh := fresh "Hfresh" in
      destruct H as (nm & Hnm & -> & -> & Hfresh);
      exists nm; repeat split; assumption
  end.

(** X14.  A successful POST /api/projects, /api/workers, /api/vendors or
    /api/inventory whose integers, texts and sequence value fit their
    columns (INTEGER, VARCHAR(n)) stores exactly one new row at the end of its table and
    answers that row.  The row has the next id of the sequence, which no
    row had before, and the creation time; each column named by the
    INSERT takes the body's value, or NULL when the body lacks the field,
    so the schema defaults of status, rating, quantity and min_stock never
    apply; the columns the INSERT does not name take their defaults:
    total_paid 0 and no last payment date for a payee, spent 0,
    progress_percent 0 and no units for a project. *)
Theorem post_creates_the_row_of_the_body e s :
  (forall b,
      fits_columns (POST_projects e b) ->
      succeeded (answer (app (POST_projects e b)) s) = true ->
      exists name,
        ProjectBody.name b = Value name /\
        answer (app (POST_projects e b)) s
        = inr (res_json (row0 project_row
                 [Project.mk (nextval e) name (value_of (ProjectBody.location b)) None
                    (value_of (ProjectBody.status b))
                    (stored_decimal (ProjectBody.budget b)) (Some 0)
                    (value_of (ProjectBody.start_date b)) (Some 0)
                    (current_timestamp e)])) /\
        projects (contents (after (app (POST_projects e b)) s))
        = projects (contents s)
          ++ [Project.mk (nextval e) name (value_of (ProjectBody.location b)) None
                (value_of (ProjectBody.status b))
                (stored_decimal (ProjectBody.budget b)) (Some 0)
                (value_of (ProjectBody.start_date b)) (Some 0)
                (current_timestamp e)] /\
        row_exists Projects (nextval e) (contents s) = false) /\
  (forall b,
      fits_columns (POST_workers e b) ->
      succeeded (answer (app (POST_workers e b)) s) = true ->
      exists name,
        WorkerBody.name b = Value name /\
        answer (app (POST_workers e b)) s
        = inr (res_json (row0 worker_row
                 [Worker.mk (nextval e) name (value_of (WorkerBody.role b))
                    (stored_decimal (WorkerBody.hourly_rate b))
                    (value_of (WorkerBody.contact b)) (Some 0) None
                    (current_timestamp e)])) /\
        workers (contents (after (app (POST_workers e b)) s))
        = workers (contents s)
          ++ [Worker.mk (nextval e) name (value_of (WorkerBody.role b))
                (stored_decimal (WorkerBody.hourly_rate b))
                (value_of (WorkerBody.contact b)) (Some 0) None
                (current_timestamp e)] /\
        row_exists Workers (nextval e) (contents s) = false) /\
  (forall b,
      fits_columns (POST_vendors e b) ->
      succeeded (answer (app (POST_vendors e b)) s) = true ->
      exists name,
        VendorBody.name b = Value name /\
        answer (app (POST_vendors e b)) s
        = inr (res_json (row0 vendor_row
                 [Vendor.mk (nextval e) name (value_of (VendorBody.category b))
                    (value_of (VendorBody.contact b)) (value_of (VendorBody.rating b))
                    (Some 0) None (current_timestamp e)])) /\
        vendors (contents (after (app (POST_vendors e b)) s))
        = vendors (contents s)
          ++ [Vendor.mk (nextval e) name (value_of (VendorBody.category b))
                (value_of (VendorBody.contact b)) (value_of (VendorBody.rating b))
                (Some 0) None (current_timestamp e)] /\
        row_exists Vendors (nextval e) (contents s) = false) /\
  (forall b,
      fits_columns (POST_inventory e b) ->
      succeeded (answer (app (POST_inventory e b)) s) = true ->
      exists name,
        InventoryBody.name b = Value name /\
        answer (app (POST_inventory e b)) s
        = inr (res_json (row0 inventory_row
                 [Inventory.mk (nextval e) name (value_of (InventoryBody.category b))
                    (value_of (InventoryBody.quantity b))
                    (stored_decimal (InventoryBody.unit_price b))
                    (value_of (InventoryBody.min_stock b)) (current_timestamp e)])) /\
        inventory (contents (after (app (POST_inventory e b)) s))
        = inventory (contents s)
          ++ [Inventory.mk (nextval e) name (value_of (InventoryBody.category b))
                (value_of (InventoryBody.quantity b))
                (stored_decimal (InventoryBody.unit_price b))
                (value_of (InventoryBody.min_stock b)) (current_timestamp e)] /\
        row_exists InventoryItems (nextval e) (contents s) = false).
Proof.
  repeat match goal with |- _ /\ _ => split end; intros b _; simpl app.
  - unfold post_projects. post_outcome INSERT_INTO_projects_inv.
  - unfold post_workers. post_outcome INSERT_INTO_workers_inv.
  - unfold post_vendors. post_outcome INSERT_INTO_vendors_inv.
  - unfold post_inventory. post_outcome INSERT_INTO_inventory_inv.
Qed.

Lemma post_creates_the_row_of_the_body_witness :
  projects (contents (after (app (POST_projects (at_ 2 50) (rename "Annex"))) yard))
  = [tower; Project.mk 2 "Annex" None None None None (Some 0) None (Some 0) 50] /\
  workers (contents (after (app (POST_workers (at_ 2 50)
             (WorkerBody.mk (Value "Bayo"%string) Null (Value 1500.5%Q) Null))) yard))
  = [ada; Worker.mk 2 "Bayo" None (Some 150050) None (Some 0) None 50] /\
  vendors (contents (after (app (POST_vendors (at_ 2 50)
             (VendorBody.mk (Value "Cement Co"%string) Null Null Null))) yard))
  = [brickyard; Vendor.mk 2 "Cement Co" None None None (Some 0) None 50] /\
  inventory (contents (after (app (POST_inventory (at_ 2 50)
               (InventoryBody.mk (Value "Sand"%string) Null Null Null Null))) yard))
  = [cement; Inventory.mk 2 "Sand" None None None None 50].
Proof.
  destruct (post_creates_the_row_of_the_body (at_ 2 50) yard) as (Hp & Hw & Hv & Hi).
  destruct (Hp (rename "Annex") ltac:(fits) eq_refl) as (np & Hnp & _ & Hprojects & _).
  destruct (Hw (WorkerBody.mk (Value "Bayo"%string) Null (Value 1500.5%Q) Null)
               ltac:(fits) eq_refl) as (nw & Hnw & _ & Hworkers & _).
  destruct (Hv (VendorBody.mk (Value "Cement Co"%string) Null Null Null)
               ltac:(fits) eq_refl) as (nv & Hnv & _ & Hvendors & _).
  destruct (Hi (InventoryBody.mk (Value "Sand"%string) Null Null Null Null)
               ltac:(fits) eq_refl) as (ni & Hni & _ & Hinventory & _).
  injection Hnp as <-. injection Hnw as <-. injection Hnv as <-. injection Hni as <-.
  repeat split; assumption.
Defined.

(** ** A body without a name *)


Ltac bind_parameters :=
  repeat match goal with
         | |- context [match ?x with _ => _ end] =>
             innermost x ltac:(fun y =>
               lazymatch y with
               | update_where _ _ _ => fail
               | _ => destruct y; simpl
               end)
         end.



(** ** The analytics report *)

Lemma sum_column_total l : coalesce (sum_column l) 0 = total l.
Proof.
  unfold sum_column.
  assert (H : forall acc,
             coalesce (fold_left (fun acc v => match acc, v with
                                               | Some a, Some x => Some (a + x)
                                               | None, Some x => Some x
                                               | _, None => acc
                                               end) l acc) 0
             = coalesce acc 0 + total l).
  { induction l as [|v l IH]; intros acc; simpl; [lia|].
    rewrite IH. destruct acc as [a|], v as [x|]; simpl; lia. }
  rewrite H. reflexivity.
Qed.

(** X16.  GET /api/analytics, served with no other request between its
    queries, never fails and changes nothing: it sends eight SELECTs and
    answers status 200 with [parseInt] of the number of rows of projects,
    workers, vendors and inventory and with [parseFloat] of the sums of
    budget, spent and the two total_paid columns, in which a NULL counts
    as 0 and an empty table sums to 0. *)
Theorem analytics_counts_rows_and_sums_columns s :
  let t := contents s in
  answer (app GET_analytics) s
  = inr (res_json (analytics_report
           (mkAnalytics (parseInt (Z.of_nat (List.length (projects t))))
                        (parseInt (Z.of_nat (List.length (workers t))))
                        (parseInt (Z.of_nat (List.length (vendors t))))
                        (parseInt (Z.of_nat (List.length (inventory t))))
                        (parseFloat (total (map Project.budget (projects t))))
                        (parseFloat (total (map Project.spent (projects t))))
                        (parseFloat (total (map Worker.total_paid (workers t))))
                        (parseFloat (total (map Vendor.total_paid (vendors t))))))) /\
  contents (after (app GET_analytics) s) = t /\
  sent (app GET_analytics) s
  = [Select Projects; Select Workers; Select Vendors; Select InventoryItems;
     Select Projects; Select Projects; Select Workers; Select Vendors].
Proof.
  destruct s as [[t sv] log]. cbv zeta. rewrite <- !sum_column_total.
  split; [reflexivity|]. split; [reflexivity|].
  apply sent_app. unfold after. simpl.
  rewrite <- !app_assoc. reflexivity.
Qed.

(** ** The analytics totals and the ledgers *)

Lemma all_owned_after k req s :
  idle s ->
  all_owned (accounts k (contents s)) (ledger k (contents s)) ->
  all_owned (accounts k (contents (after (app req) s)))
            (ledger k (contents (after (app req) s))).
Proof.
  intros Hs Ho. unfold all_owned in *.
  destruct (books_after k req s Hs)
    as [[-> ->]|[(id & Hfresh & -> & ->)|[(n & -> & ->)|
        (b & n & a & d & en & Hpay & Ha & Hex & Hc & -> & Hn & Hamount)]]].
  - exact Ho.
  - eapply Forall_impl; [|exact Ho]. intros en (m & Hm & Hex). exists m.
    split; [assumption|]. rewrite existsb_app, Hex. reflexivity.
  - destruct (existsb (fun a => payee a =? n) (accounts k (contents s))) eqn:Hn.
    + rewrite Forall_forall in *. intros en Hen. apply filter_In in Hen.
      destruct Hen as [Hen Hnot]. destruct (Ho en Hen) as (m & Hm & Hex).
      exists m. split; [assumption|].
      apply existsb_exists in Hex. destruct Hex as (x & Hx & Hxm).
      apply existsb_exists. exists x. split; [|assumption].
      apply filter_In. split; [assumption|].
      unfold owned_by in Hnot. rewrite Hm in Hnot.
      apply Z.eqb_eq in Hxm. now rewrite Hxm.
    + rewrite filter_all; [exact Ho|].
      intros x Hx. apply negb_true_iff.
      destruct (payee x =? n) eqn:Hxn; [|reflexivity].
      assert (existsb (fun a => payee a =? n) (accounts k (contents s)) = true)
        by (apply existsb_exists; eauto).
      congruence.
  - pose proof (credited_payee _ _ _ _ _ Hc) as Hp.
    apply Forall_app. split.
    + eapply Forall_impl; [|exact Ho]. intros x (m & Hm & Hxm). exists m.
      split; [assumption|]. now rewrite (existsb_payee m _ _ Hp).
    + constructor; [|constructor]. exists n. split; [assumption|].
      now rewrite (existsb_payee n _ _ Hp).
Qed.

Lemma find_own (accs : list account) a :
  NoDup (map payee accs) -> In a accs -> find (fun x => payee x =? payee a) accs = Some a.
Proof.
  induction accs as [|x accs IH]; simpl; intros Hnd Hin; [contradiction|].
  inversion Hnd as [|y ys Hnotin Hrest]; subst.
  destruct Hin as [->|Hin]; [now rewrite Z.eqb_refl|].
  destruct (payee x =? payee a) eqn:Hx; [|now apply IH].
  exfalso. apply Hnotin. apply Z.eqb_eq in Hx. rewrite Hx. now apply in_map.
Qed.

Lemma share_of_one (ids : list Z) m x :
  NoDup ids -> In m ids ->
  fold_right (fun n acc => (if n =? m then x else 0) + acc) 0 ids = x.
Proof.
  induction ids as [|n ids IH]; simpl; intros Hnd Hin; [contradiction|].
  inversion Hnd as [|y ys Hnotin Hrest]; subst.
  destruct Hin as [->|Hin].
  - rewrite Z.eqb_refl.
    assert (H0 : fold_right (fun n acc => (if n =? m then x else 0) + acc) 0 ids = 0).
    { clear IH Hnd Hrest. induction ids as [|n ids IH]; simpl; [reflexivity|].
      destruct (n =? m) eqn:Hn.
      - exfalso. apply Hnotin. left. now apply Z.eqb_eq.
      - rewrite IH; [reflexivity|]. intros H. apply Hnotin. now right. }
    rewrite H0. lia.
  - destruct (n =? m) eqn:Hn.
    + exfalso. apply Hnotin. apply Z.eqb_eq in Hn. now subst.
    + rewrite IH by assumption. lia.
Qed.

Lemma shares_add_up (ids : list Z) led :
  NoDup ids ->
  Forall (fun en => exists m, payee_id en = Some m /\ In m ids) led ->
  fold_right (fun n acc => sum_amounts (filter (owned_by n) led) + acc) 0 ids
  = sum_amounts led.
Proof.
  intros Hnd. induction 1 as [|en led (m & Hm & Hin) _ IH]; simpl.
  - induction ids as [|n ids IHids]; simpl; [reflexivity|].
    inversion Hnd; subst. rewrite IHids by assumption. reflexivity.
  - transitivity
      (fold_right (fun n acc => (if n =? m then amount en else 0) + acc) 0 ids
       + fold_right (fun n acc => sum_amounts (filter (owned_by n) led) + acc) 0 ids).
    + clear IH Hnd Hin. induction ids as [|n ids IHids]; simpl; [reflexivity|].
      rewrite IHids. unfold owned_by at 1. rewrite Hm, (Z.eqb_sym m n).
      destruct (n =? m); simpl; lia.
    + rewrite IH, (share_of_one ids m (amount en) Hnd Hin). reflexivity.
Qed.

Lemma total_is_the_ledger_sum accs led :
  NoDup (map payee accs) -> balanced accs led -> all_owned accs led ->
  total (map total_paid accs) = sum_amounts led.
Proof.
  intros Hnd Hb Ho.
  rewrite <- (shares_add_up (map payee accs) led Hnd).
  - assert (H : forall a, In a accs ->
                coalesce (total_paid a) 0 = sum_amounts (filter (owned_by (payee a)) led)).
    { intros a Ha. rewrite <- (Hb (payee a)).
      - now rewrite (find_own accs a Hnd Ha).
      - apply existsb_exists. exists a. split; [assumption|apply Z.eqb_refl]. }
    clear Hnd Hb Ho. unfold total.
    induction accs as [|a accs IH]; simpl; [reflexivity|].
    rewrite (H a) by now left. rewrite IH; [reflexivity|].
    intros x Hx. apply H. now right.
  - eapply Forall_impl; [|exact Ho]. intros en (m & Hm & Hex). exists m.
    split; [assumption|].
    rewrite <- (existsb_through payee (fun a => payee a =? m) (fun z => z =? m)) in Hex
      by reflexivity.
    apply existsb_exists in Hex. destruct Hex as (z & Hz & Hzm).
    apply Z.eqb_eq in Hzm. now subst.
Qed.

Lemma serve_ledgers_owned reqs :
  forall s, idle s -> ledgers_owned (contents s) -> ledgers_owned (contents (serve reqs s)).
Proof.
  induction reqs as [|req reqs IH]; intros s Hs Ho; simpl; [exact Ho|].
  apply IH.
  - apply app_answers_and_stays_idle. exact Hs.
  - intros k. apply all_owned_after; [exact Hs|apply Ho].
Qed.

Lemma analytics_totals s :
  exists a,
    answer (app GET_analytics) s = inr (res_json (analytics_report a)) /\
    a_total_worker_payments a
    = parseFloat (total (map total_paid (accounts a_worker (contents s)))) /\
    a_total_vendor_payments a
    = parseFloat (total (map total_paid (accounts a_vendor (contents s)))).
Proof.
  destruct s as [[t sv] log]. eexists. split; [reflexivity|].
  unfold accounts, contents. simpl. rewrite !map_map, !sum_column_total. split; reflexivity.
Qed.

Lemma payees_unique t :
  keys_unique t -> forall k, NoDup (map payee (accounts k t)).
Proof.
  intros (_ & Hw & _ & Hv & _) k.
  destruct k; unfold accounts; rewrite map_map; assumption.
Qed.

(** X17.  The analytics totals are read from the ledgers' sums.  Starting
    from the empty tables of [initDB], after any sequence of requests
    served one after the other, each answered before the next begins, in
    which every payment amount has at most two fractional digits,
    total_worker_payments of GET /api/analytics is [parseFloat] of the
    sum of the amounts of all rows of worker_payments, and
    total_vendor_payments [parseFloat] of the sum of the amounts of all
    rows of vendor_payments: what the deletion of a payee takes from the
    total, its cascade takes from the ledger. *)
Theorem analytics_totals_are_the_ledger_sums reqs :
  Forall in_hundredths reqs ->
  exists a,
    answer (app GET_analytics) (serve reqs empty_site) = inr (res_json (analytics_report a)) /\
    a_total_worker_payments a
    = parseFloat (sum_amounts (ledger a_worker (contents (serve reqs empty_site)))) /\
    a_total_vendor_payments a
    = parseFloat (sum_amounts (ledger a_vendor (contents (serve reqs empty_site)))).
Proof.
  intros Hreqs.
  assert (Hidle : idle empty_site) by reflexivity.
  assert (Hkeys0 : keys_unique (contents empty_site))
    by (unfold keys_unique; simpl; repeat split; constructor).
  assert (Hrefs0 : references_resolved (contents empty_site)) by (split; constructor).
  assert (Hbooks0 : books_balance (contents empty_site))
    by (intros k n; destruct k; discriminate).
  assert (Howned0 : ledgers_owned (contents empty_site))
    by (intros k; destruct k; constructor).
  destruct (serve_well_keyed reqs empty_site Hidle Hkeys0 Hrefs0) as (_ & Hkeys & _).
  pose proof (serve_books_balance reqs empty_site Hidle Hrefs0 Hbooks0 Hreqs) as Hbooks.
  pose proof (serve_ledgers_owned reqs empty_site Hidle Howned0) as Howned.
  pose proof (proj1 (books_balance_balanced _) Hbooks) as Hbal.
  destruct (analytics_totals (serve reqs empty_site)) as (a & Hanswer & Hw & Hv).
  exists a. split; [exact Hanswer|]. rewrite Hw, Hv.
  split; f_equal; apply total_is_the_ledger_sum;
    solve [apply payees_unique; exact Hkeys | apply Hbal | apply Howned].
Qed.

Lemma analytics_totals_are_the_ledger_sums_witness :
  exists a,
    answer (app GET_analytics)
      (serve [POST_workers (at_ 1 10) (WorkerBody.mk (Value "Ada"%string) Null Null Null);
              POST_workers (at_ 2 20) (WorkerBody.mk (Value "Bayo"%string) Null Null Null);
              POST_worker_payments (at_ 1 100) (Id 1) (pay 12.5 (mkDate 2024 3 1) "wages");
              POST_worker_payments (at_ 2 200) (Id 2) (pay 7.25 (mkDate 2024 3 2) "wages");
              DELETE_workers (Id 1)] empty_site)
    = inr (res_json (analytics_report a)) /\
    a_total_worker_payments a = parseFloat 725.
Proof.
  destruct (analytics_totals_are_the_ledger_sums
              [POST_workers (at_ 1 10) (WorkerBody.mk (Value "Ada"%string) Null Null Null);
               POST_workers (at_ 2 20) (WorkerBody.mk (Value "Bayo"%string) Null Null Null);
               POST_worker_payments (at_ 1 100) (Id 1) (pay 12.5 (mkDate 2024 3 1) "wages");
               POST_worker_payments (at_ 2 200) (Id 2) (pay 7.25 (mkDate 2024 3 2) "wages");
               DELETE_workers (Id 1)])
    as (a & Hanswer & Hw & _).
  - repeat constructor.
  - exists a. split; [exact Hanswer|]. rewrite Hw. reflexivity.
Defined.

(** ** A recorded payment is listed *)

(** X18.  What a payment route records, the listing route of the same
    payee returns, when the two requests are served one after the other
    with no other request in flight: after a successful payment to payee
    [n], GET /api/workers/n/payments (or the vendor route) answers status
    200 with the entries [n] had before together with the entry the
    payment answered, ordered by payment date descending; the entries of
    every other payee are what they were.  ([n] is within INTEGER, as
    every id the store holds.) *)
Theorem a_recorded_payment_is_listed k v e n b s :
  idle s ->
  are_scans v ->
  int4 n ->
  succeeded (answer (recordPayment k e (Id n) b) s) = true ->
  let s' := after (recordPayment k e (Id n) b) s in
  exists paid en r,
    answer (recordPayment k e (Id n) b) s = inr paid /\
    created_entry paid = Some en /\
    answer (listPayments k v (Id n)) s' = inr r /\
    status r = 200 /\
    Permutation (listed r) (en :: entries_of k n (contents s)) /\
    by_date_desc (listed r) /\
    (forall m, m <> n -> entries_of k m (contents s') = entries_of k m (contents s)).
Proof.
  intros Hs Hv _. unfold after, answer.
  destruct (recordPayment_outcome k e (Id n) b s Hs)
    as (paid & s' & Hrun & _ &
        [(n' & a & d & c & Hid & _ & _ & _ & _ & Hok)|(err & -> & _)]);
    rewrite Hrun; simpl; [|discriminate].
  intros _. injection Hid as <-. cbv zeta in Hok.
  destruct Hok as (_ & Hcreated & Hledger & _).
  destruct (listPayments_outcome k v n s' Hv) as (r & Hr & Hstatus & Hsorted & Hperm & _).
  eexists paid, _, r. split; [reflexivity|]. split; [exact Hcreated|].
  split; [exact Hr|]. split; [exact Hstatus|].
  unfold entries_of in *. rewrite Hledger in *. split; [|split; [exact Hsorted|]].
  - rewrite Hperm, filter_app. simpl. unfold owned_by at 2. simpl. rewrite Z.eqb_refl.
    symmetry. apply Permutation_cons_append.
  - intros m Hm. rewrite filter_app. simpl. unfold owned_by at 2. simpl.
    apply Z.eqb_neq in Hm. rewrite Z.eqb_sym, Hm. apply app_nil_r.
Qed.

Lemma a_recorded_payment_is_listed_witness :
  (exists paid en r,
      answer (recordPayment a_worker (at_ 3 300) (Id 1) (pay 50 (mkDate 2024 2 11) "third"))
             same_day = inr paid /\
      created_entry paid = Some en /\
      answer (listPayments a_worker in_insertion_order (Id 1))
             (after (recordPayment a_worker (at_ 3 300) (Id 1)
                       (pay 50 (mkDate 2024 2 11) "third")) same_day) = inr r /\
      Permutation (listed r) (en :: entries_of a_worker 1 (contents same_day))) /\
  (exists paid en r,
      answer (recordPayment a_vendor (at_ 1 100) (Id 1) (pay 50 (mkDate 2024 2 11) "sand"))
             site = inr paid /\
      created_entry paid = Some en /\
      answer (listPayments a_vendor in_insertion_order (Id 1))
             (after (recordPayment a_vendor (at_ 1 100) (Id 1)
                       (pay 50 (mkDate 2024 2 11) "sand")) site) = inr r /\
      Permutation (listed r) (en :: entries_of a_vendor 1 (contents site))).
Proof.
  split.
  - destruct (a_recorded_payment_is_listed a_worker in_insertion_order (at_ 3 300) 1
                (pay 50 (mkDate 2024 2 11) "third") same_day eq_refl
                (conj (fun l => Permutation_refl l) (fun l => Permutation_refl l))
                int4_1 eq_refl)
      as (paid & en & r & H1 & H2 & H3 & _ & H4 & _).
    exists paid, en, r. repeat split; assumption.
  - destruct (a_recorded_payment_is_listed a_vendor in_insertion_order (at_ 1 100) 1
                (pay 50 (mkDate 2024 2 11) "sand") site eq_refl
                (conj (fun l => Permutation_refl l) (fun l => Permutation_refl l))
                int4_1 eq_refl)
      as (paid & en & r & H1 & H2 & H3 & _ & H4 & _).
    exists paid, en, r. repeat split; assumption.
Defined.

(** ** The direction of a payment *)

Lemma round_half_away_monotone x y :
  (x <= y)%Q -> Decimal.round_half_away x <= Decimal.round_half_away y.
Proof.
  intros Hxy. unfold Decimal.round_half_away.
  destruct (Qle_bool 0 x) eqn:Hx, (Qle_bool 0 y) eqn:Hy.
  - apply Qfloor_resp_le. now apply Qplus_le_compat; [|apply Qle_refl].
  - apply Qle_bool_iff in Hx. exfalso.
    assert (H : (0 <= y)%Q) by (now apply Qle_trans with x).
    apply Qle_bool_iff in H. congruence.
  - apply Qle_bool_iff in Hy.
    assert (Hneg : (0 <= - x)%Q).
    { assert (Hlt : (x < 0)%Q).
      { apply Qnot_le_lt. intros H. apply Qle_bool_iff in H. congruence. }
      apply Qlt_le_weak, Qopp_le_compat in Hlt. exact Hlt. }
    assert (H1 : 0 <= Qfloor (- x + (1 # 2))).
    { change 0 with (Qfloor (inject_Z 0)). apply Qfloor_resp_le.
      rewrite <- (Qplus_0_r (inject_Z 0)). apply Qplus_le_compat; [exact Hneg|discriminate]. }
    assert (H2 : 0 <= Qfloor (y + (1 # 2))).
    { change 0 with (Qfloor (inject_Z 0)). apply Qfloor_resp_le.
      rewrite <- (Qplus_0_r (inject_Z 0)). apply Qplus_le_compat; [exact Hy|discriminate]. }
    lia.
  - assert (H : Qfloor (- y + (1 # 2)) <= Qfloor (- x + (1 # 2))).
    { apply Qfloor_resp_le. apply Qplus_le_compat; [|apply Qle_refl].
      now apply Qopp_le_compat. }
    lia.
Qed.

Lemma to_hundredths_monotone x y :
  (x <= y)%Q -> Decimal.to_hundredths x <= Decimal.to_hundredths y.
Proof.
  intros H. unfold Decimal.to_hundredths. apply round_half_away_monotone.
  apply Qmult_le_compat_r; [exact H|discriminate].
Qed.

(** X19.  A payment moves total_paid in the direction of its amount,
    whatever the rounding does: after a successful payment of a
    non-negative amount the payee's total is not lower than before, and
    after one of a non-positive amount it is not higher. *)
Theorem a_payment_moves_the_total_its_own_way k n e b s :
  idle s ->
  succeeded (answer (recordPayment k e (Id n) b) s) = true ->
  exists a,
    PaymentBody.amount b = Value a /\
    ((0 <= a)%Q ->
     balance k n (contents s) <= balance k n (contents (after (recordPayment k e (Id n) b) s))) /\
    ((a <= 0)%Q ->
     balance k n (contents (after (recordPayment k e (Id n) b) s)) <= balance k n (contents s)).
Proof.
  intros Hs Hok.
  destruct (recordPayment_balance k n e b s Hs Hok) as (_ & a & Ha & Hbal & _).
  exists a. split; [exact Ha|]. rewrite Hbal.
  set (T := balance k n (contents s)).
  rewrite <- (to_hundredths_of_hundredths T) at 1 4.
  split; intros Hsign; apply to_hundredths_monotone.
  - rewrite <- (Qplus_0_r (Decimal.of_hundredths T)) at 1.
    apply Qplus_le_compat; [apply Qle_refl|exact Hsign].
  - rewrite <- (Qplus_0_r (Decimal.of_hundredths T)) at 2.
    apply Qplus_le_compat; [apply Qle_refl|exact Hsign].
Qed.

Lemma a_payment_moves_the_total_its_own_way_witness :
  balance a_worker 1 (contents site)
  <= balance a_worker 1
       (contents (after (recordPayment a_worker (at_ 1 100) (Id 1)
                           (pay 0.004 (mkDate 2024 3 1) "dust")) site)).
Proof.
  destruct (a_payment_moves_the_total_its_own_way a_worker 1 (at_ 1 100)
              (pay 0.004 (mkDate 2024 3 1) "dust") site eq_refl eq_refl)
    as (a & Ha & Hup & _).
  apply Hup. injection Ha as <-. discriminate.
Defined.

(** ** The bounds of the decimal columns *)

Lemma coerce_beyond p q :
  Decimal.fits p (Decimal.to_hundredths q) = false -> Decimal.coerce p q = None.
Proof. intros H. unfold Decimal.coerce. now rewrite H. Qed.

(** X20.  The bounds of the DECIMAL columns are enforced by the store
    alone.  A budget or spent of 10^13 or more, or an hourly_rate,
    unit_price or payment amount of 10^8 or more (in absolute value, after
    rounding to hundredths), makes a POST, a payment, or a PUT to an id
    that names a row answer status 500 and leave every table unchanged. *)
Theorem a_decimal_beyond_its_column_is_a_server_error req p q s :
  idle s ->
  In (p, Value q) (decimals req) ->
  Decimal.fits p (Decimal.to_hundredths q) = false ->
  (forall r n, edited req = Some r -> path_id req = Some (Id n) ->
               row_exists r n (contents s) = true) ->
  exists err,
    answer (app req) s = inr (res_status_500 err) /\
    contents (after (app req) s) = contents s.
Proof.
  intros Hs Hin Hfits _. apply coerce_beyond in Hfits.
  destruct req; simpl in Hin; try contradiction;
    repeat match goal with
           | H : _ \/ _ |- _ => destruct H as [H|H]
           | H : False |- _ => contradiction
           end;
    injection Hin as <- Hfield; simpl app.
  all: try (rewrite post_worker_payments_transaction
            || rewrite post_vendor_payments_transaction).
  all: unfold post_projects, put_projects, post_workers, put_workers,
         post_inventory, put_inventory.
  all: match goal with
       | |- context [transaction ?q1 ?q2 ?f] =>
           cut (exists err, effect q1 (contents s) = inl err);
           [ intros (err & H); exists err;
             apply failed_transaction_outcome;
             [apply on_tables_effect|apply on_tables_effect|exact Hs|exact H] | ]
       | |- context [pool_query ?q] =>
           cut (exists err, effect q (contents s) = inl err);
           [ intros (err & H); exists err;
             apply failed_statement_outcome; [apply on_tables_effect|exact H] | ]
       end.
  all: unfold INSERT_INTO_projects, UPDATE_projects, INSERT_INTO_workers, UPDATE_workers,
         INSERT_INTO_inventory, UPDATE_inventory,
         INSERT_INTO_worker_payments, INSERT_INTO_vendor_payments;
       rewrite effect_on_tables, Hfield;
       unfold decimal, bound, bound_id, not_null, and_then, ok, raise; simpl.
  all: rewrite ?Hfits.
  all: bind_parameters.
  all: rewrite ?Hfits.
  all: eexists; reflexivity.
Qed.

Lemma a_decimal_beyond_its_column_is_a_server_error_witness :
  exists err,
    answer (app (POST_worker_payments (at_ 1 100) (Id 1)
                   (pay 100000000 (mkDate 2024 3 1) "too much"))) site
    = inr (res_status_500 err) /\
    contents (after (app (POST_worker_payments (at_ 1 100) (Id 1)
                            (pay 100000000 (mkDate 2024 3 1) "too much"))) site)
    = contents site.
Proof.
  apply (a_decimal_beyond_its_column_is_a_server_error
           (POST_worker_payments (at_ 1 100) (Id 1)
              (pay 100000000 (mkDate 2024 3 1) "too much"))
           10 100000000 site eq_refl (or_introl eq_refl) eq_refl).
  intros r n Hr. discriminate Hr.
Defined.
